(** * Liquidacion BRL/COP: the calculator, the record store and the CSV export

    A shallow embedding of the TypeScript sources ([App.tsx], the calculator
    page, the history page with its edit dialog, and the exchange rate
    service) together with the properties of the liquidation formulas, the
    record store, the date filter, the CSV writer and the rate parser.

    JavaScript numbers are IEEE 754 binary64 values.  They are modelled by
    [spec_float] at precision 53 and maximal exponent 1024, with the
    operations of [SpecFloat] (round to nearest, ties to even), so overflow
    to [Infinity], [NaN] and the two zeros are all present in the model.
    JavaScript strings are modelled by [string]; a character stands for a
    code unit below 256. *)

From Stdlib Require Import ZArith List String Ascii Bool Lia.
From Stdlib Require Import DecimalString.
From Stdlib Require Import Floats.SpecFloat.
Import ListNotations.

Local Open Scope string_scope.
Local Open Scope Z_scope.

(** ** The parts of the JavaScript run time the sources rely on *)

Module JS.

Definition number := spec_float.

Definition prec : Z := 53.
Definition emax : Z := 1024.

Definition NaN : number := S754_nan.
Definition pzero : number := S754_zero false.

Definition add : number -> number -> number := SFadd prec emax.
Definition sub : number -> number -> number := SFsub prec emax.
Definition mul : number -> number -> number := SFmul prec emax.
Definition div : number -> number -> number := SFdiv prec emax.

(** [a < b], [a <= b] and [a > b] on numbers: false as soon as one side
    is [NaN]. *)
Definition ltb : number -> number -> bool := SFltb.
Definition leb : number -> number -> bool := SFleb.
Definition gtb (a b : number) : bool := SFltb b a.

Definition isNaN (x : number) : bool :=
  match x with S754_nan => true | _ => false end.

Definition isFinite (x : number) : bool :=
  match x with S754_zero _ | S754_finite _ _ _ => true | _ => false end.

(** ToBoolean on a number: [NaN], [+0] and [-0] are falsy. *)
Definition truthy (x : number) : bool :=
  match x with
  | S754_nan | S754_zero _ => false
  | _ => true
  end.

(** [x || 0] *)
Definition or_zero (x : number) : number := if truthy x then x else pzero.

(** ToBoolean on a string: only the empty string is falsy. *)
Definition truthy_str (s : string) : bool :=
  match s with EmptyString => false | _ => true end.

(** *** Decimal text to number

    [of_ratio n d] is the binary64 value nearest to [n / d] (ties to
    even) for [0 <= n] and [0 < d].  The quotient is taken with at least
    64 significant bits and one more bit records whether anything was
    left over, so the final rounding to 53 bits sees the exact position
    of [n / d] between its two neighbours. *)
Definition of_ratio (n d : Z) : number :=
  let s := Z.max 0 (64 + Z.log2 d - Z.log2 n) in
  let q := (n * 2 ^ s) / d in
  let r := (n * 2 ^ s) mod d in
  binary_normalize prec emax (2 * q + (if r =? 0 then 0 else 1)) (- (s + 1)) false.

(** [of_decimal m e] is the number for the decimal literal [m * 10^e]. *)
Definition of_decimal (m e : Z) : number :=
  if 0 <=? e then of_ratio (m * 10 ^ e) 1 else of_ratio m (10 ^ (- e)).

Definition is_digit (c : ascii) : bool :=
  let n := N_of_ascii c in ((48 <=? n) && (n <=? 57))%N.

Definition digit_val (c : ascii) : Z := Z.of_N (N_of_ascii c) - 48.

(** WhiteSpace and LineTerminator code units below 256: TAB, LF, VT, FF,
    CR, SP and NBSP. *)
Definition is_space (c : ascii) : bool :=
  let n := N_of_ascii c in
  ((n =? 9) || (n =? 10) || (n =? 11) || (n =? 12) || (n =? 13)
   || (n =? 32) || (n =? 160))%N.

Fixpoint trimStart (s : string) : string :=
  match s with
  | String c r => if is_space c then trimStart r else s
  | EmptyString => s
  end.

(** The longest run of digits at the head of [s], with what follows. *)
Fixpoint span_digits (s : string) : string * string :=
  match s with
  | String c r =>
      if is_digit c then let (d, t) := span_digits r in (String c d, t)
      else (EmptyString, s)
  | EmptyString => (EmptyString, EmptyString)
  end.

Fixpoint digits_val_from (acc : Z) (s : string) : Z :=
  match s with
  | String c r => digits_val_from (10 * acc + digit_val c) r
  | EmptyString => acc
  end.

Definition digits_val (s : string) : Z := digits_val_from 0 s.

Definition Z_length (s : string) : Z := Z.of_nat (String.length s).

(** The sign in front of a StrDecimalLiteral or of an exponent. *)
Definition read_sign (s : string) : bool * string :=
  match s with
  | String "-" r => (true, r)
  | String "+" r => (false, r)
  | _ => (false, s)
  end.

(** The value of an ExponentPart at the head of [s]; [0] when [s] does
    not start with one (an [e] that no digit follows is not part of the
    literal). *)
Definition read_exponent (s : string) : Z :=
  match s with
  | String c r =>
      if (Ascii.eqb c "e" || Ascii.eqb c "E")%bool then
        let (neg, r') := read_sign r in
        let (ds, _) := span_digits r' in
        match ds with
        | EmptyString => 0
        | _ => if neg then - digits_val ds else digits_val ds
        end
      else 0
  | EmptyString => 0
  end.

(** The value of the longest prefix of [s] that is a
    StrUnsignedDecimalLiteral; [NaN] when there is none. *)
Definition read_unsigned (s : string) : number :=
  if String.prefix "Infinity" s then S754_infinity false
  else
    let (ip, t) := span_digits s in
    let (fp, u) :=
      match t with
      | String "." r => span_digits r
      | _ => (EmptyString, t)
      end in
    match (ip ++ fp)%string with
    | EmptyString => NaN
    | ds => of_decimal (digits_val ds) (read_exponent u - Z_length fp)
    end.

(** The global [parseFloat]: leading white space is dropped, the longest
    prefix that is a StrDecimalLiteral is read, and what follows it is
    ignored.  The value of the literal is rounded to the nearest number,
    as the engines do for any number of digits. *)
Definition parseFloat (s : string) : number :=
  let (neg, t) := read_sign (trimStart s) in
  let v := read_unsigned t in
  if neg then SFopp v else v.

(** *** Number to text *)

(** The decimal digits of a natural number, ["0"] for zero. *)
Definition dec_string (n : Z) : string :=
  NilZero.string_of_uint (N.to_uint (Z.to_N n)).

Fixpoint zeros (k : nat) : string :=
  match k with O => EmptyString | S k' => String "0" (zeros k') end.

(** The digits of [n] with a point in front of the last two, the way
    [toFixed] lays out [n / 100]: at least one digit before the point. *)
Definition fixed2_of_hundredths (n : Z) : string :=
  let m := dec_string n in
  let m := (zeros (3 - String.length m)%nat ++ m)%string in
  let k := String.length m in
  (substring 0 (k - 2)%nat m ++ "." ++ substring (k - 2)%nat 2 m)%string.

(** The integer nearest to [100 * m * 2^e], the larger one on a tie. *)
Definition hundredths (m : positive) (e : Z) : Z :=
  if 0 <=? e then 100 * Zpos m * 2 ^ e
  else (2 * 100 * Zpos m + 2 ^ (- e)) / 2 ^ (- e + 1).

(** [10^21 <= m * 2^e] *)
Definition at_least_1e21 (m : positive) (e : Z) : bool :=
  if 0 <=? e then 10 ^ 21 <=? Zpos m * 2 ^ e
  else 10 ^ 21 * 2 ^ (- e) <=? Zpos m.

Definition of_Z (z : Z) : number := binary_normalize prec emax z 0 false.

Definition same_number (x y : number) : bool :=
  match x, y with
  | S754_finite sx mx ex, S754_finite sy my ey =>
      Bool.eqb sx sy && (mx =? my)%positive && (ex =? ey)
  | _, _ => false
  end.

Fixpoint strip_zeros_rev (s : list ascii) : list ascii :=
  match s with
  | "0"%char :: r => strip_zeros_rev r
  | _ => s
  end.

Definition strip_trailing_zeros (s : string) : string :=
  string_of_list_ascii
    (List.rev (strip_zeros_rev (List.rev (list_ascii_of_string s)))).

(** The multiple [c * 10^p] nearest to [X] that reads back as [x], if
    one of the two around [X] does. *)
Definition shortest_at (x : number) (X p : Z) : option Z :=
  let lo := X / 10 ^ p * 10 ^ p in
  let hi := lo + 10 ^ p in
  let ok v := same_number (of_Z v) x in
  match ok lo, ok hi with
  | true, true =>
      if X - lo <? hi - X then Some lo
      else if hi - X <? X - lo then Some hi
      else if Z.even (X / 10 ^ p) then Some lo else Some hi
  | true, false => Some lo
  | false, true => Some hi
  | false, false => None
  end.

(** The first [v] found when the number of kept digits grows from
    [n - p] upwards: the decimal with the fewest digits that reads back
    as [x]. *)
Fixpoint shortest_from (x : number) (X : Z) (p : nat) : Z :=
  match shortest_at x X (Z.of_nat p) with
  | Some v => v
  | None => match p with O => X | S p' => shortest_from x X p' end
  end.

(** Number::toString for a finite [x = m * 2^e] with [10^21 <= x]:
    the shortest digits that read back as [x], in exponent notation. *)
Definition toString_large (m : positive) (e : Z) : string :=
  let X := Zpos m * 2 ^ e in
  let n := String.length (dec_string X) in
  let v := shortest_from (S754_finite false m e) X (n - 1)%nat in
  let ds := dec_string v in
  let sig := strip_trailing_zeros ds in
  let ex := dec_string (Z.of_nat (String.length ds) - 1) in
  match sig with
  | String d EmptyString => (String d EmptyString ++ "e+" ++ ex)%string
  | String d r => (String d EmptyString ++ "." ++ r ++ "e+" ++ ex)%string
  | EmptyString => ds
  end.

(** [x.toFixed(2)] *)
Definition toFixed2 (x : number) : string :=
  match x with
  | S754_nan => "NaN"
  | S754_infinity s => if s then "-Infinity" else "Infinity"
  | S754_zero _ => "0.00"
  | S754_finite s m e =>
      ((if s then "-" else "") ++
       (if at_least_1e21 m e then toString_large m e
        else fixed2_of_hundredths (hundredths m e)))%string
  end.

(** *** Strings *)

Definition dquote : ascii := "034"%char.
Definition newline : ascii := "010"%char.

(** [s.includes(c)] for a one character search string. *)
Fixpoint includes (c : ascii) (s : string) : bool :=
  match s with
  | String a r => Ascii.eqb a c || includes c r
  | EmptyString => false
  end.

(** [s.replace(/c/g, cc)]: every [c] is written twice. *)
Fixpoint double_every (c : ascii) (s : string) : string :=
  match s with
  | String a r =>
      if Ascii.eqb a c then String c (String c (double_every c r))
      else String a (double_every c r)
  | EmptyString => EmptyString
  end.

(** Every character of [s] satisfies [p]. *)
Fixpoint str_forall (p : ascii -> bool) (s : string) : bool :=
  match s with
  | String c r => p c && str_forall p r
  | EmptyString => true
  end.

(** [parts.join(sep)] *)
Definition join (sep : string) (parts : list string) : string :=
  String.concat sep parts.

(** [a >= b] and [a <= b] on strings: the order of the code units. *)
Definition str_leb (a b : string) : bool := String.leb a b.
Definition str_geb (a b : string) : bool := String.leb b a.

End JS.

(** ** What the handlers do to the browser *)

Inductive effect : Type :=
| Alert (message : string)                    (* window.alert *)
| CreateObjectURL (url : string)              (* URL.createObjectURL *)
| RevokeObjectURL (url : string)              (* URL.revokeObjectURL *)
| Download (filename : string) (body : string) (* click on a download link *)
| ConsoleError (message : string).            (* console.error *)

(** ** App.tsx: the record type and the record store *)

Module App.
Import JS.

Record File : Type := { file_name : string; file_body : string }.

Record LiquidationRecord : Type := {
  id : string;
  fecha : string;
  valorCop : number;
  comisionCop : number;
  liquidoCop : number;
  tasaBrlCop : number;
  totalBrl : number;
  comprobanteUrl : string;
  comprobanteName : string
}.

(** [Omit<LiquidationRecord, 'id' | 'comprobanteUrl'> & { file: File }] *)
Record NewRecordData : Type := {
  new_fecha : string;
  new_valorCop : number;
  new_comisionCop : number;
  new_liquidoCop : number;
  new_tasaBrlCop : number;
  new_totalBrl : number;
  new_comprobanteName : string;
  new_file : File
}.

(** The [history] state: the newest record first. *)
Definition History := list LiquidationRecord.

Definition registered_message : string :=
  "Liquidaci" ++ String "243" ("n registrada con " ++ String "233" "xito.").

(** [handleAddToHistory].  [fresh_id] is the text made of [Date.now()]
    and [Math.random()], [fresh_url] the URL the browser hands out for
    the file; both come from outside the program. *)
Definition handleAddToHistory (fresh_id fresh_url : string)
    (newRecordData : NewRecordData) (prevHistory : History)
    : History * list effect :=
  let newRecord := {|
    id := fresh_id;
    fecha := new_fecha newRecordData;
    valorCop := new_valorCop newRecordData;
    comisionCop := new_comisionCop newRecordData;
    liquidoCop := new_liquidoCop newRecordData;
    tasaBrlCop := new_tasaBrlCop newRecordData;
    totalBrl := new_totalBrl newRecordData;
    comprobanteUrl := fresh_url;
    comprobanteName := file_name (new_file newRecordData)
  |} in
  (newRecord :: prevHistory,
   [CreateObjectURL fresh_url; Alert registered_message]).

(** [handleDeleteRecord]: the URL of the first record found with the id
    is revoked, and every record with the id is filtered out. *)
Definition handleDeleteRecord (recordId : string) (prevHistory : History)
    : History * list effect :=
  let recordToDelete :=
    find (fun r => String.eqb (id r) recordId) prevHistory in
  (filter (fun record => negb (String.eqb (id record) recordId)) prevHistory,
   match recordToDelete with
   | Some r => [RevokeObjectURL (comprobanteUrl r)]
   | None => []
   end).

(** [handleUpdateRecord] *)
Definition handleUpdateRecord (updatedRecord : LiquidationRecord)
    (prevHistory : History) : History :=
  map (fun record =>
         if String.eqb (id record) (id updatedRecord)
         then updatedRecord else record)
      prevHistory.

End App.

(** ** services/exchangeRateService: the rate read out of the answer *)

Module ExchangeRateService.
Import JS.

(** What comes back from [ai.models.generateContent]: an answer with
    its text, or nothing to read a rate from (the call is rejected, or
    the answer has no text and [text.match] throws). *)
Inductive Response : Type :=
| Answered (text : string)
| Rejected.

Inductive Result : Type :=
| Resolved (rate : number)
| Thrown (message : string).

Definition parse_error : string :=
  "Could not parse a valid exchange rate from the AI response.".
Definition fetch_error : string :=
  "Failed to fetch BRL-COP exchange rate from the AI service.".

(** The character class [[\d.]]. *)
Definition is_rate_char (c : ascii) : bool :=
  is_digit c || Ascii.eqb c ".".

Fixpoint rate_run (s : string) : string :=
  match s with
  | String c r => if is_rate_char c then String c (rate_run r) else EmptyString
  | EmptyString => EmptyString
  end.

(** [text.match(/[\d.]+/)]: the leftmost, longest run of digits and
    points. *)
Fixpoint first_match (text : string) : option string :=
  match text with
  | String c r =>
      if is_rate_char c then Some (rate_run text) else first_match r
  | EmptyString => None
  end.

(** The body of the [try] block once the answer is there. *)
Definition read_rate (text : string) : Result :=
  match first_match text with
  | Some m =>
      if truthy_str m then
        let rate := parseFloat m in
        if negb (isNaN rate) then Resolved rate else Thrown parse_error
      else Thrown parse_error
  | None => Thrown parse_error
  end.

(** [fetchBrlCopRate]: whatever is thrown inside [try] is logged and
    replaced by the one error of the service. *)
Definition fetchBrlCopRate (response : Response) : Result * list effect :=
  let attempt :=
    match response with
    | Answered text => read_rate text
    | Rejected => Thrown "rejected"
    end in
  match attempt with
  | Resolved rate => (Resolved rate, [])
  | Thrown _ => (Thrown fetch_error, [ConsoleError "Error fetching exchange rate:"])
  end.

End ExchangeRateService.

(** ** Calculator.tsx: the entry form *)

Module Calculator.
Import JS App.

Record State : Type := {
  nequi : string;
  bancolombia : string;
  daviplata : string;
  selectedDate : string;
  comprobanteFile : option File;
  brlCopRate : option number;      (* [number | null] *)
  isLoadingRate : bool;
  error : option string            (* [string | null] *)
}.

(** The state at the first render; [today] is the current date. *)
Definition initial (today : string) : State := {|
  nequi := ""; bancolombia := ""; daviplata := "";
  selectedDate := today;
  comprobanteFile := None;
  brlCopRate := None;
  isLoadingRate := true;
  error := None
|}.

(** The effect run once after the first render: [getRate]. *)
Definition getRate (outcome : ExchangeRateService.Result) (st : State) : State :=
  match outcome with
  | ExchangeRateService.Resolved rate => {|
      nequi := nequi st; bancolombia := bancolombia st;
      daviplata := daviplata st; selectedDate := selectedDate st;
      comprobanteFile := comprobanteFile st;
      brlCopRate := Some rate;
      isLoadingRate := false;
      error := None |}
  | ExchangeRateService.Thrown message => {|
      nequi := nequi st; bancolombia := bancolombia st;
      daviplata := daviplata st; selectedDate := selectedDate st;
      comprobanteFile := comprobanteFile st;
      brlCopRate := Some pzero;
      isLoadingRate := false;
      error := Some message |}
  end.

(** The three amount fields, that is the three setters handed to
    [handleInputChange]. *)
Inductive Channel : Type := Nequi | Bancolombia | Daviplata.

Definition set_channel (ch : Channel) (value : string) (st : State) : State :=
  {| nequi := match ch with Nequi => value | _ => nequi st end;
     bancolombia := match ch with Bancolombia => value | _ => bancolombia st end;
     daviplata := match ch with Daviplata => value | _ => daviplata st end;
     selectedDate := selectedDate st;
     comprobanteFile := comprobanteFile st;
     brlCopRate := brlCopRate st;
     isLoadingRate := isLoadingRate st;
     error := error st |}.

(** [/^\d*\.?\d*$/.test(value)]: digits, then a point or nothing, then
    digits, then the end of the text. *)
Definition amount_pattern (value : string) : bool :=
  let (_, t) := span_digits value in
  let u := match t with String "." r => r | _ => t end in
  let (_, w) := span_digits u in
  match w with EmptyString => true | _ => false end.

(** [handleInputChange(setter)] on a change event carrying [value]. *)
Definition handleInputChange (ch : Channel) (value : string) (st : State) : State :=
  if amount_pattern value then set_channel ch value st else st.

(** [handleFileChange] *)
Definition handleFileChange (files : list File) (st : State) : State :=
  {| nequi := nequi st; bancolombia := bancolombia st;
     daviplata := daviplata st; selectedDate := selectedDate st;
     comprobanteFile := match files with f :: _ => Some f | [] => None end;
     brlCopRate := brlCopRate st;
     isLoadingRate := isLoadingRate st;
     error := error st |}.

(** The literal [0.10]. *)
Definition tenth : number := of_decimal 10 (-2).

Record Liquidation : Type := {
  saldoMovimiento : number;
  comision : number;
  liquidoCOP : number;
  totalBRL : number
}.

(** The [useMemo] block. *)
Definition compute (nequi bancolombia daviplata : string)
    (brlCopRate : option number) : Liquidation :=
  let nequiValue := or_zero (parseFloat nequi) in
  let bancolombiaValue := or_zero (parseFloat bancolombia) in
  let daviplataValue := or_zero (parseFloat daviplata) in
  let saldo := add (add nequiValue bancolombiaValue) daviplataValue in
  let com := mul saldo tenth in
  let liquido := sub saldo com in
  let brl :=
    match brlCopRate with
    | Some rate =>
        if truthy rate && gtb rate pzero then div liquido rate else pzero
    | None => pzero
    end in
  {| saldoMovimiento := saldo; comision := com;
     liquidoCOP := liquido; totalBRL := brl |}.

Definition liquidation (st : State) : Liquidation :=
  compute (nequi st) (bancolombia st) (daviplata st) (brlCopRate st).

Definition register_message : string :=
  "Para registrar, aseg" ++ String "250" ("rese de que el 'L" ++
  String "237" "quido COP' sea mayor a cero y que haya adjuntado un comprobante.").

(** [!brlCopRate] *)
Definition rate_missing (r : option number) : bool :=
  match r with Some rate => negb (truthy rate) | None => true end.

(** [!comprobanteFile] *)
Definition file_missing (f : option File) : bool :=
  match f with Some _ => false | None => true end.

(** The condition of the [if] that opens [handleRegisterClick]. *)
Definition register_refused (st : State) : bool :=
  leb (liquidoCOP (liquidation st)) pzero
  || rate_missing (brlCopRate st)
  || file_missing (comprobanteFile st).

(** [handleRegisterClick], together with the [onAddToHistory] it calls.
    Past the guard the rate is a number and the file is there; the last
    branch of the [match] is never taken. *)
Definition handleRegisterClick (fresh_id fresh_url : string)
    (st : State) (history : History) : State * History * list effect :=
  let l := liquidation st in
  if register_refused st then
    (st, history, [Alert register_message])
  else
    match brlCopRate st, comprobanteFile st with
    | Some rate, Some file =>
        let '(history', effects) :=
          handleAddToHistory fresh_id fresh_url
            {| new_fecha := selectedDate st;
               new_valorCop := saldoMovimiento l;
               new_comisionCop := comision l;
               new_liquidoCop := liquidoCOP l;
               new_tasaBrlCop := rate;
               new_totalBrl := totalBRL l;
               new_comprobanteName := file_name file;
               new_file := file |}
            history in
        ({| nequi := ""; bancolombia := ""; daviplata := "";
            selectedDate := selectedDate st;
            comprobanteFile := None;
            brlCopRate := brlCopRate st;
            isLoadingRate := isLoadingRate st;
            error := error st |},
         history', effects)
    | _, _ => (st, history, [])
    end.

(** What the footer shows of the error: [{error && <p>{error}</p>}]. *)
Definition error_line (st : State) : option string :=
  match error st with
  | Some message => if truthy_str message then Some message else None
  | None => None
  end.

(** The [disabled] attribute of the register button. *)
Definition register_disabled (st : State) : bool :=
  leb (liquidoCOP (liquidation st)) pzero
  || isLoadingRate st
  || file_missing (comprobanteFile st).

(** [setSelectedDate] from the date input. *)
Definition handleDateChange (value : string) (st : State) : State :=
  {| nequi := nequi st; bancolombia := bancolombia st;
     daviplata := daviplata st; selectedDate := value;
     comprobanteFile := comprobanteFile st;
     brlCopRate := brlCopRate st;
     isLoadingRate := isLoadingRate st;
     error := error st |}.

(** What the user can do on the page. *)
Inductive UserEvent : Type :=
| InputChange (ch : Channel) (value : string)
| FileChange (files : list File)
| DateChange (value : string)
| RegisterClick (fresh_id fresh_url : string).

(** What can happen to the page: the user acts, or the rate request
    settles. *)
Inductive Event : Type :=
| User (ev : UserEvent)
| RateSettled (outcome : ExchangeRateService.Result).

Definition user_step (ev : UserEvent) (st : State) (history : History)
    : State * History * list effect :=
  match ev with
  | InputChange ch value => (handleInputChange ch value st, history, [])
  | FileChange files => (handleFileChange files st, history, [])
  | DateChange value => (handleDateChange value st, history, [])
  | RegisterClick fresh_id fresh_url =>
      handleRegisterClick fresh_id fresh_url st history
  end.

Definition step (ev : Event) (st : State) (history : History)
    : State * History * list effect :=
  match ev with
  | User ev => user_step ev st history
  | RateSettled outcome => (getRate outcome st, history, [])
  end.

(** The page and the store after the events of [evs], with the effects
    in the order they happened. *)
Fixpoint run (evs : list Event) (st : State) (history : History)
    : State * History * list effect :=
  match evs with
  | [] => (st, history, [])
  | ev :: rest =>
      let '(st1, h1, e1) := step ev st history in
      let '(st2, h2, e2) := run rest st1 h1 in
      (st2, h2, (e1 ++ e2)%list)
  end.

End Calculator.

(** ** History.tsx: the edit dialog and the CSV export *)

Module EditModal.
Import JS App.

(** The effect that follows every change of [valorCop] or [tasaBrlCop]:
    the three derived fields of the form are computed again. *)
Definition recompute (formData : LiquidationRecord) : LiquidationRecord :=
  let valorCop' := or_zero (valorCop formData) in
  let tasaBrlCop' := or_zero (tasaBrlCop formData) in
  let comisionCop' := mul valorCop' Calculator.tenth in
  let liquidoCop' := sub valorCop' comisionCop' in
  let totalBrl' :=
    if gtb tasaBrlCop' pzero then div liquidoCop' tasaBrlCop' else pzero in
  {| id := id formData;
     fecha := fecha formData;
     valorCop := valorCop formData;
     comisionCop := comisionCop';
     liquidoCop := liquidoCop';
     tasaBrlCop := tasaBrlCop formData;
     totalBrl := totalBrl';
     comprobanteUrl := comprobanteUrl formData;
     comprobanteName := comprobanteName formData |}.

(** The inputs of the form that call [handleChange], by their [name]. *)
Inductive InputName : Type := fecha_input | tasaBrlCop_input | valorCop_input.

(** [handleChange], followed by the effect above. *)
Definition handleChange (name : InputName) (value : string)
    (prev : LiquidationRecord) : LiquidationRecord :=
  recompute
    {| id := id prev;
       fecha := match name with fecha_input => value | _ => fecha prev end;
       valorCop :=
         match name with
         | valorCop_input => or_zero (parseFloat value)
         | _ => valorCop prev
         end;
       comisionCop := comisionCop prev;
       liquidoCop := liquidoCop prev;
       tasaBrlCop :=
         match name with
         | tasaBrlCop_input => or_zero (parseFloat value)
         | _ => tasaBrlCop prev
         end;
       totalBrl := totalBrl prev;
       comprobanteUrl := comprobanteUrl prev;
       comprobanteName := comprobanteName prev |}.

End EditModal.

Module HistoryPage.
Import JS App.

(** The state of the page; [records] and the store handlers are props. *)
Record State : Type := {
  editingRecord : option LiquidationRecord;
  startDate : string;
  endDate : string
}.

(** The callback of [records.filter] in [handleExportCsv]; an empty
    [startDate] or [endDate] is a bound that was not given. *)
Definition in_range (startDate endDate : string) (record : LiquidationRecord) : bool :=
  if negb (truthy_str startDate) && negb (truthy_str endDate) then true
  else
    let recordIsAfterStartDate :=
      if truthy_str startDate then str_geb (fecha record) startDate else true in
    let recordIsBeforeEndDate :=
      if truthy_str endDate then str_leb (fecha record) endDate else true in
    recordIsAfterStartDate && recordIsBeforeEndDate.

Definition filteredRecords (startDate endDate : string) (records : History) : History :=
  filter (in_range startDate endDate) records.

Definition headers : list string :=
  ["Fecha"; "Valor COP"; "Comision COP"; "Liquido COP";
   "TASA BRL/COP"; "TOTAL BRL"; "COMPROBANTE"].

Definition needs_quotes (cellString : string) : bool :=
  includes "," cellString || includes dquote cellString
  || includes newline cellString.

Definition sanitizeCell (cellString : string) : string :=
  if needs_quotes cellString then
    String dquote (double_every dquote cellString ++ String dquote EmptyString)
  else cellString.

Definition csvRow (r : LiquidationRecord) : string :=
  join ","
    [fecha r;
     toFixed2 (valorCop r);
     toFixed2 (comisionCop r);
     toFixed2 (liquidoCop r);
     toFixed2 (tasaBrlCop r);
     toFixed2 (totalBrl r);
     sanitizeCell (comprobanteName r)].

Definition csvString (rows : History) : string :=
  join (String newline EmptyString) (join "," headers :: map csvRow rows).

Definition nothing_to_export : string :=
  "No hay registros para exportar en el rango de fechas seleccionado.".

Definition csv_filename (today : string) : string :=
  "historial_liquidaciones_" ++ today ++ ".csv".

(** [handleExportCsv].  [today] is the date part of the current time,
    [blob_url] the URL the browser hands out for the CSV blob.  No
    setter is called, so the page state comes back as it was. *)
Definition handleExportCsv (today blob_url : string)
    (records : History) (st : State) : State * list effect :=
  match filteredRecords (startDate st) (endDate st) records with
  | [] => (st, [Alert nothing_to_export])
  | rows =>
      (st,
       [CreateObjectURL blob_url;
        Download (csv_filename today) (csvString rows);
        RevokeObjectURL blob_url])
  end.

End HistoryPage.

(** ** The operations as the specification words them *)

Module Spec.
Import JS App.

(** A bound of a date range: the empty text of a date input stands for
    a bound that is not supplied. *)
Definition bound (s : string) : option string :=
  match s with EmptyString => None | _ => Some s end.

Definition date_within (start finish : option string) (date : string) : bool :=
  match start with Some s => String.leb s date | None => true end
  && match finish with Some e => String.leb date e | None => true end.

(** [listByDateRange(start?, end?)] over a store. *)
Definition listByDateRange (start finish : option string) (store : History) : History :=
  filter (fun r => date_within start finish (fecha r)) store.

(** The text of a date input for a date with a year of four digits:
    [YYYY-MM-DD]. *)
Definition digit_char (k : Z) : ascii := ascii_of_N (Z.to_N (48 + k)).

Definition two_digits (n : Z) : string :=
  String (digit_char (n / 10)) (String (digit_char (n mod 10)) EmptyString).

Definition four_digits (n : Z) : string :=
  (two_digits (n / 100) ++ two_digits (n mod 100))%string.

Definition iso_date (y m d : Z) : string :=
  (four_digits y ++ String "-" (two_digits m ++ String "-" (two_digits d)))%string.

(** The first day is not after the second one. *)
Definition day_le (y1 m1 d1 y2 m2 d2 : Z) : Prop :=
  y1 < y2 \/ (y1 = y2 /\ (m1 < m2 \/ (m1 = m2 /\ d1 <= d2))).

(** One confirmed liquidation on its way into the store. *)
Record Registration : Type := {
  reg_id : string;
  reg_url : string;
  reg_data : NewRecordData
}.

Definition add_record (g : Registration) (store : History) : History :=
  fst (handleAddToHistory (reg_id g) (reg_url g) (reg_data g) store).

(** The store after the registrations of [gs], the first of the list
    first. *)
Definition add_records (gs : list Registration) (store : History) : History :=
  fold_left (fun h g => add_record g h) gs store.

(** [l] keeps some of the elements of [l'], in the order of [l']. *)
Inductive in_order_of {A : Type} : list A -> list A -> Prop :=
| order_nil : in_order_of [] []
| order_keep x l l' : in_order_of l l' -> in_order_of (x :: l) (x :: l')
| order_drop x l l' : in_order_of l l' -> in_order_of l (x :: l').

(** The runs of characters that satisfy [p] in [s], left to right, each
    as long as it can be; [cur] is the run being read. *)
Fixpoint runs (p : ascii -> bool) (cur : string) (s : string) : list string :=
  match s with
  | String c r =>
      if p c then runs p (cur ++ String c EmptyString)%string r
      else match cur with
           | EmptyString => runs p EmptyString r
           | _ => cur :: runs p EmptyString r
           end
  | EmptyString =>
      match cur with EmptyString => [] | _ => [cur] end
  end.

(** The numeric tokens of an answer: its runs of digits and points. *)
Definition rate_tokens (text : string) : list string :=
  runs ExchangeRateService.is_rate_char EmptyString text.

(** How often an effect list revokes [url]. *)
Fixpoint revocations (url : string) (es : list effect) : nat :=
  match es with
  | RevokeObjectURL u :: r =>
      (if String.eqb u url then 1 else 0) + revocations url r
  | _ :: r => revocations url r
  | [] => 0
  end%nat.

(** The number of low bits the first step of [binary_round_aux] drops
    from a mantissa [m] with exponent [e]. *)
Definition dropped (m e : Z) : Z :=
  Z.max 0 (fexp prec emax (Zdigits2 m + e) - e).

(** [x] is a number of sign [s]; [NaN] has no sign. *)
Definition sign_is (s : bool) (x : number) : bool :=
  match x with
  | S754_zero s' | S754_infinity s' | S754_finite s' _ _ => Bool.eqb s s'
  | S754_nan => false
  end.

(** A finite [x] has a mantissa below [2^53] and an exponent in the
    binary64 range. *)
Definition bounded64 (x : number) : bool :=
  match x with
  | S754_finite _ m e => (Zpos m <? 2 ^ 53) && (-1074 <=? e) && (e <=? 971)
  | _ => true
  end.

(** Digits, a point and two digits, with ["-"] in front of a negative
    number: a number written with two decimal places and nothing else. *)
Definition two_decimals (s : string) : bool :=
  let t := match s with String "-" r => r | _ => s end in
  let (ip, u) := span_digits t in
  match ip, u with
  | String _ _, String "." (String a (String b EmptyString)) =>
      is_digit a && is_digit b
  | _, _ => false
  end.

(** A number [toFixed] writes in positional notation: finite and of
    magnitude below [10^21]. *)
Definition plain_amount (x : number) : bool :=
  match x with
  | S754_zero _ => true
  | S754_finite _ m e => negb (at_least_1e21 m e)
  | _ => false
  end.

(** Reading a quoted CSV cell back, after its opening quote: a doubled
    quote is a quote, a single one ends the cell. *)
Fixpoint read_quoted (s : string) : string :=
  match s with
  | EmptyString => EmptyString
  | String a t =>
      if Ascii.eqb a dquote then
        match t with
        | String b r =>
            if Ascii.eqb b dquote then String dquote (read_quoted r)
            else EmptyString
        | EmptyString => EmptyString
        end
      else String a (read_quoted t)
  end.

(** Reading a CSV cell back. *)
Definition read_cell (s : string) : string :=
  match s with
  | String a t => if Ascii.eqb a dquote then read_quoted t else s
  | EmptyString => EmptyString
  end.

(** The header row of the export. *)
Definition header_row : string :=
  "Fecha,Valor COP,Comision COP,Liquido COP,TASA BRL/COP,TOTAL BRL,COMPROBANTE".

(** The texts of the language of [/^\d*\.?\d*$/]: digits, or digits
    with one point somewhere. *)
Definition amount_text (s : string) : Prop :=
  exists a b : string,
    str_forall is_digit a = true /\ str_forall is_digit b = true
    /\ (s = (a ++ b)%string \/ s = (a ++ String "." b)%string).

(** The three amount fields of the form hold accepted texts. *)
Definition fields_accepted (st : Calculator.State) : bool :=
  Calculator.amount_pattern (Calculator.nequi st)
  && Calculator.amount_pattern (Calculator.bancolombia st)
  && Calculator.amount_pattern (Calculator.daviplata st).

(** What an amount of the calculator can be: 0, a positive binary64
    number, or [Infinity]. *)
Definition amount_like (x : number) : bool := sign_is false x && bounded64 x.

End Spec.

(** ** Concrete inputs *)

Module Examples.
Import JS App Calculator.

Definition today : string := "2024-05-17".

Definition receipt : File :=
  {| file_name := "recibo.pdf"; file_body := "%PDF-1.4" |}.

Definition rate_750 : number := parseFloat "750".

Definition record_of (k date : string) (gross : string) : LiquidationRecord :=
  let l := compute gross "" "" (Some rate_750) in
  {| id := k; fecha := date;
     valorCop := saldoMovimiento l; comisionCop := comision l;
     liquidoCop := liquidoCOP l; tasaBrlCop := rate_750;
     totalBrl := totalBRL l;
     comprobanteUrl := "blob:" ++ k;
     comprobanteName := k ++ ".pdf" |}.

Definition record_a : LiquidationRecord := record_of "a" "2024-05-01" "100000".
Definition record_b : LiquidationRecord := record_of "b" "2024-03-15" "250000.50".
Definition record_c : LiquidationRecord := record_of "c" "2024-04-30" "80000".

Definition store_abc : History := [record_a; record_b; record_c].

(** A record whose date holds a comma; no date input produces it. *)
Definition record_comma : LiquidationRecord := record_of "d" "2024,05" "1".

(** 1 followed by 309 zeros: a text the amount fields accept and that
    reads as [Infinity]. *)
Definition huge_amount : string := String "1" (zeros 309).

(** The form filled in with the example of the specification. *)
Definition filled_form : State :=
  {| nequi := "100000"; bancolombia := "50000"; daviplata := "0";
     selectedDate := today;
     comprobanteFile := Some receipt;
     brlCopRate := Some rate_750;
     isLoadingRate := false;
     error := None |}.

(** The same form with nothing typed, with no rate, and with no file. *)
Definition form_without_amount : State :=
  {| nequi := ""; bancolombia := ""; daviplata := "";
     selectedDate := today;
     comprobanteFile := Some receipt;
     brlCopRate := Some rate_750;
     isLoadingRate := false;
     error := None |}.

Definition form_without_rate : State :=
  {| nequi := "100000"; bancolombia := "50000"; daviplata := "0";
     selectedDate := today;
     comprobanteFile := Some receipt;
     brlCopRate := Some pzero;
     isLoadingRate := false;
     error := Some ExchangeRateService.fetch_error |}.

Definition form_without_file : State :=
  {| nequi := "100000"; bancolombia := "50000"; daviplata := "0";
     selectedDate := today;
     comprobanteFile := None;
     brlCopRate := Some rate_750;
     isLoadingRate := false;
     error := None |}.

(** The rate arrives, the user types the huge amount, attaches the
    receipt and registers. *)
Definition overflow_session : list Event :=
  [RateSettled (ExchangeRateService.Resolved rate_750);
   User (InputChange Nequi huge_amount);
   User (FileChange [receipt]);
   User (RegisterClick "1715904000000-0.5" "blob:1")].

Definition range_page (s e : string) : HistoryPage.State :=
  {| HistoryPage.editingRecord := None;
     HistoryPage.startDate := s;
     HistoryPage.endDate := e |}.

End Examples.

(** ** The rest of the components *)

(** *** App.tsx: the effect that revokes the URLs *)

Module Lifecycle.
Import JS App.

(** The function the effect of [App] returns for a render with the list
    [history]: [history.forEach(record => URL.revokeObjectURL(...))]. *)
Definition cleanup (history : History) : list effect :=
  map (fun record => RevokeObjectURL (comprobanteUrl record)) history.

(** The store operations as the program goes through them.  The updater
    handed to [setHistory] is built on an array literal, on [filter] or
    on [map], so what it returns is never the array of the previous
    render, whatever it holds; the component renders again, and the
    effect, whose dependency is [history], first runs the function it
    returned for the previous list.  That comes after the handler and
    the updater are done. *)
Definition addToHistory (fresh_id fresh_url : string)
    (newRecordData : NewRecordData) (history : History)
    : History * list effect :=
  let '(history', es) :=
    handleAddToHistory fresh_id fresh_url newRecordData history in
  (history', (es ++ cleanup history)%list).

Definition deleteRecord (recordId : string) (history : History)
    : History * list effect :=
  let '(history', es) := handleDeleteRecord recordId history in
  (history', (es ++ cleanup history)%list).

Definition updateRecord (updatedRecord : LiquidationRecord)
    (history : History) : History * list effect :=
  (handleUpdateRecord updatedRecord history, cleanup history).

End Lifecycle.

(** *** History.tsx: the state of the edit dialog and its handlers *)

Module EditDialog.
Import JS App.

Record State : Type := {
  formData : LiquidationRecord;
  newFile : option (File * string)     (* [{ file, url } | null] *)
}.

(** The dialog after its first render and the effect that follows it. *)
Definition opened (record : LiquidationRecord) : State :=
  {| formData := EditModal.recompute record; newFile := None |}.

(** [handleChange] with the effect it may trigger. *)
Definition handleChange (name : EditModal.InputName) (value : string)
    (st : State) : State :=
  {| formData := EditModal.handleChange name value (formData st);
     newFile := newFile st |}.

(** [handleFileChange]; [newUrl] is the URL the browser hands out for
    the first of [files]. *)
Definition handleFileChange (files : list File) (newUrl : string)
    (st : State) : State * list effect :=
  match files with
  | file :: _ =>
      ({| formData :=
            {| id := id (formData st);
               fecha := fecha (formData st);
               valorCop := valorCop (formData st);
               comisionCop := comisionCop (formData st);
               liquidoCop := liquidoCop (formData st);
               tasaBrlCop := tasaBrlCop (formData st);
               totalBrl := totalBrl (formData st);
               comprobanteUrl := newUrl;
               comprobanteName := file_name file |};
          newFile := Some (file, newUrl) |},
       CreateObjectURL newUrl
       :: match newFile st with
          | Some (_, url) => [RevokeObjectURL url]
          | None => []
          end)
  | [] => (st, [])
  end.

(** [handleSave] for the dialog opened on [record]: what is handed to
    [onSave], and the effects. *)
Definition handleSave (record : LiquidationRecord) (st : State)
    : LiquidationRecord * list effect :=
  (formData st,
   match newFile st with
   | Some _ => [RevokeObjectURL (comprobanteUrl record)]
   | None => []
   end).

(** [handleCancel] *)
Definition handleCancel (st : State) : list effect :=
  match newFile st with
  | Some (_, url) => [RevokeObjectURL url]
  | None => []
  end.

(** What the user does in the dialog before saving or cancelling. *)
Inductive Event : Type :=
| Change (name : EditModal.InputName) (value : string)
| Pick (files : list File) (newUrl : string).

Definition step (ev : Event) (st : State) : State * list effect :=
  match ev with
  | Change name value => (handleChange name value st, [])
  | Pick files newUrl => handleFileChange files newUrl st
  end.

Fixpoint run (evs : list Event) (st : State) : State * list effect :=
  match evs with
  | [] => (st, [])
  | ev :: rest =>
      let '(st1, e1) := step ev st in
      let '(st2, e2) := run rest st1 in
      (st2, (e1 ++ e2)%list)
  end.

End EditDialog.

(** *** History.tsx: the handlers of the table *)

Module HistoryHandlers.
Import JS App HistoryPage.

(** [handleDeleteClick]; [confirmed] is the answer to [window.confirm]. *)
Definition handleDeleteClick (confirmed : bool) (recordId : string)
    (history : History) : History * list effect :=
  if confirmed then handleDeleteRecord recordId history else (history, []).

(** [handleEditClick] *)
Definition handleEditClick (record : LiquidationRecord) (st : State) : State :=
  {| editingRecord := Some record;
     startDate := startDate st; endDate := endDate st |}.

(** [handleSaveEdit] *)
Definition handleSaveEdit (updatedRecord : LiquidationRecord)
    (st : State) (history : History) : State * History :=
  ({| editingRecord := None;
      startDate := startDate st; endDate := endDate st |},
   handleUpdateRecord updatedRecord history).

(** The dialog is opened on [record], the user acts, and saves: the page,
    the store and all the effects, those of the dialog first, then those
    of the effect of [App], which the update of the store sets off
    ([Lifecycle.updateRecord]). *)
Definition edit_and_save (record : LiquidationRecord)
    (evs : list EditDialog.Event) (st : State) (history : History)
    : State * History * list effect :=
  let '(dialog, e1) :=
    EditDialog.run evs (EditDialog.opened record) in
  let '(updated, e2) := EditDialog.handleSave record dialog in
  let '(st', history') :=
    handleSaveEdit updated (handleEditClick record st) history in
  (st', history',
   (e1 ++ e2 ++ snd (Lifecycle.updateRecord updated history))%list).

(** The same with a cancel at the end: the store is not touched, so the
    effect of [App] does not run. *)
Definition edit_and_cancel (record : LiquidationRecord)
    (evs : list EditDialog.Event) (st : State) (history : History)
    : State * History * list effect :=
  let '(dialog, e1) :=
    EditDialog.run evs (EditDialog.opened record) in
  ({| editingRecord := None;
      startDate := startDate st; endDate := endDate st |},
   history, (e1 ++ EditDialog.handleCancel dialog)%list).

End HistoryHandlers.

(** *** Words for the further properties *)

Module Words.
Import JS App.

(** The URLs an effect list creates, and those it revokes, in order. *)
Fixpoint created_urls (es : list effect) : list string :=
  match es with
  | CreateObjectURL u :: r => u :: created_urls r
  | _ :: r => created_urls r
  | [] => []
  end.

Fixpoint revoked_urls (es : list effect) : list string :=
  match es with
  | RevokeObjectURL u :: r => u :: revoked_urls r
  | _ :: r => revoked_urls r
  | [] => []
  end.

(** The URLs the picks of a dialog session ask for. *)
Fixpoint picked_urls (evs : list EditDialog.Event) : list string :=
  match evs with
  | EditDialog.Pick (_ :: _) u :: r => u :: picked_urls r
  | _ :: r => picked_urls r
  | [] => []
  end.

(** A record as the calculator registers it: the gross amount is an
    amount, the derived fields follow from it and from the rate, the rate
    is a number other than 0, and the net amount is not at or below 0. *)
Definition registered (r : LiquidationRecord) : Prop :=
  Spec.amount_like (valorCop r) = true
  /\ comisionCop r = mul (valorCop r) Calculator.tenth
  /\ liquidoCop r = sub (valorCop r) (comisionCop r)
  /\ truthy (tasaBrlCop r) = true
  /\ totalBrl r
     = (if gtb (tasaBrlCop r) pzero then div (liquidoCop r) (tasaBrlCop r)
        else pzero)
  /\ leb (liquidoCop r) pzero = false.

(** A character that needs no quotes in a CSV cell. *)
Definition plain_char (c : ascii) : bool :=
  negb (Ascii.eqb c "," || Ascii.eqb c dquote || Ascii.eqb c newline).

(** A CSV reader: cells are separated by commas and rows by newlines; a
    cell that opens with a double quote runs to the quote that closes it,
    a doubled quote inside it standing for one quote. *)
Inductive csv_mode : Type := Plain | Quoted | Closing.

Fixpoint csv_read (mode : csv_mode) (cell : string) (row : list string)
    (s : string) : list (list string) :=
  match s with
  | EmptyString => [(row ++ [cell])%list]
  | String c r =>
      match mode with
      | Plain =>
          if Ascii.eqb c "," then csv_read Plain EmptyString (row ++ [cell])%list r
          else if Ascii.eqb c newline then
            (row ++ [cell])%list :: csv_read Plain EmptyString [] r
          else if Ascii.eqb c dquote
                  && match cell with EmptyString => true | _ => false end
          then csv_read Quoted EmptyString row r
          else csv_read Plain (cell ++ String c EmptyString)%string row r
      | Quoted =>
          if Ascii.eqb c dquote then csv_read Closing cell row r
          else csv_read Quoted (cell ++ String c EmptyString)%string row r
      | Closing =>
          if Ascii.eqb c dquote then
            csv_read Quoted (cell ++ String dquote EmptyString)%string row r
          else if Ascii.eqb c "," then
            csv_read Plain EmptyString (row ++ [cell])%list r
          else if Ascii.eqb c newline then
            (row ++ [cell])%list :: csv_read Plain EmptyString [] r
          else csv_read Plain (cell ++ String c EmptyString)%string row r
      end
  end.

Definition read_csv (s : string) : list (list string) :=
  csv_read Plain EmptyString [] s.

(** The seven cells of the row of a record, before any quoting. *)
Definition cells_of (r : LiquidationRecord) : list string :=
  [fecha r; toFixed2 (valorCop r); toFixed2 (comisionCop r);
   toFixed2 (liquidoCop r); toFixed2 (tasaBrlCop r); toFixed2 (totalBrl r);
   comprobanteName r].

(** [a] is a prefix of [b]. *)
Definition is_prefix (a b : string) : Prop := exists c, b = (a ++ c)%string.

End Words.

(** *** Words for the accuracy of the numbers read *)

Module Accuracy.
Import JS.






End Accuracy.

Module Samples.
Import JS App.

Definition scan : File := {| file_name := "scan, page 1.png"; file_body := "PNG" |}.
Definition photo : File := {| file_name := "foto.jpg"; file_body := "JPG" |}.

(** The user edits the amount, picks a file and then another one. *)
Definition two_picks : list EditDialog.Event :=
  [EditDialog.Change EditModal.valorCop_input "200000";
   EditDialog.Pick [scan] "blob:n1";
   EditDialog.Pick [photo] "blob:n2"].

(** A proof name with a comma and double quotes in it, and a record that
    carries it. *)
Definition quoted_name : string :=
  "recibo " ++ String dquote ("mayo" ++ String dquote ", final.pdf").

Definition record_quoted : LiquidationRecord :=
  let r := Examples.record_b in
  {| id := "q"; fecha := fecha r;
     valorCop := valorCop r; comisionCop := comisionCop r;
     liquidoCop := liquidoCop r; tasaBrlCop := tasaBrlCop r;
     totalBrl := totalBrl r;
     comprobanteUrl := "blob:q";
     comprobanteName := quoted_name |}.

End Samples.

(** * Properties *)

Import JS App ExchangeRateService HistoryPage Calculator Spec.
Local Open Scope list_scope.

(** [lia] on goals with a division or a remainder by a constant. *)
Ltac div_lia := Z.div_mod_to_equations; lia.

(** Facts on what an amount can be, for [auto]. *)
Create HintDb amounts.

(** ** The run-time model at concrete inputs *)

Example parseFloat_samples :
  parseFloat "0.1" = S754_finite false 7205759403792794 (-56)
  /\ parseFloat "750" = S754_finite false 6597069766656000 (-43)
  /\ parseFloat "5." = parseFloat "5"
  /\ parseFloat ".5" = S754_finite false 4503599627370496 (-53)
  /\ parseFloat " 12abc" = parseFloat "12"
  /\ parseFloat "1e3" = parseFloat "1000"
  /\ parseFloat "5e" = parseFloat "5"
  /\ parseFloat "-0" = S754_zero true
  /\ parseFloat "" = NaN
  /\ parseFloat "." = NaN
  /\ parseFloat "abc" = NaN
  /\ parseFloat "-Infinity" = S754_infinity true
  /\ parseFloat "9007199254740993" = S754_finite false 4503599627370496 1
  /\ parseFloat "1.7976931348623157e308" = S754_finite false 9007199254740991 971
  /\ parseFloat "1.7976931348623159e308" = S754_infinity false
  /\ parseFloat "4.9e-324" = S754_finite false 1 (-1074)
  /\ parseFloat "2.4703282292062327e-324" = S754_zero false.
Proof. vm_compute. repeat split. Qed.

Example toFixed2_samples :
  toFixed2 (parseFloat "1.005") = "1.00"
  /\ toFixed2 (parseFloat "0.125") = "0.13"
  /\ toFixed2 (parseFloat "8.575") = "8.57"
  /\ toFixed2 (parseFloat "1234567.891") = "1234567.89"
  /\ toFixed2 (parseFloat "-0.001") = "-0.00"
  /\ toFixed2 (parseFloat "-0") = "0.00"
  /\ toFixed2 (parseFloat "1e20") = "100000000000000000000.00"
  /\ toFixed2 (parseFloat "1e21") = "1e+21"
  /\ toFixed2 (parseFloat "1180591620717411303424") = "1.1805916207174113e+21"
  /\ toFixed2 (parseFloat "1e400") = "Infinity"
  /\ toFixed2 NaN = "NaN".
Proof. vm_compute. repeat split. Qed.

(** The scenario of the specification: 100000, 50000 and 0 at a rate of
    750. *)
Example specification_scenario :
  let l := compute "100000" "50000" "0" (Some (parseFloat "750")) in
  saldoMovimiento l = parseFloat "150000"
  /\ comision l = parseFloat "15000"
  /\ liquidoCOP l = parseFloat "135000"
  /\ totalBRL l = parseFloat "180"
  /\ toFixed2 (totalBRL l) = "180.00".
Proof. vm_compute. repeat split. Qed.

(** ** Lists and texts *)

Section Basics.

Lemma filter_all_kept {A} (p : A -> bool) (l : list A) :
  (forall x, In x l -> p x = true) -> filter p l = l.
Proof.
  induction l as [|a l IH]; simpl; intros H; [reflexivity|].
  rewrite (H a) by auto. f_equal. apply IH. auto.
Qed.

Lemma filter_none_kept {A} (p : A -> bool) (l : list A) :
  (forall x, In x l -> p x = false) -> filter p l = [].
Proof.
  induction l as [|a l IH]; simpl; intros H; [reflexivity|].
  rewrite (H a) by auto. apply IH. auto.
Qed.

Lemma find_none_of {A} (p : A -> bool) (l : list A) :
  (forall x, In x l -> p x = false) -> find p l = None.
Proof.
  induction l as [|a l IH]; simpl; intros H; [reflexivity|].
  rewrite (H a) by auto. apply IH. auto.
Qed.

Lemma find_past_prefix {A} (p : A -> bool) (l1 l2 : list A) :
  (forall x, In x l1 -> p x = false) -> find p (l1 ++ l2) = find p l2.
Proof.
  induction l1 as [|a l1 IH]; simpl; intros H; [reflexivity|].
  rewrite (H a) by auto. apply IH. auto.
Qed.

Lemma filter_in_order {A} (p : A -> bool) (l : list A) :
  Spec.in_order_of (filter p l) l.
Proof.
  induction l as [|a l IH]; simpl; [constructor|].
  destruct (p a); now constructor.
Qed.

Lemma str_append_nil (s : string) : (s ++ "")%string = s.
Proof. induction s as [|c s IH]; simpl; [reflexivity | now rewrite IH]. Qed.

Lemma str_append_assoc (a b c : string) :
  ((a ++ b) ++ c)%string = (a ++ (b ++ c))%string.
Proof. induction a as [|x a IH]; simpl; [reflexivity | now rewrite IH]. Qed.

Lemma str_length_append (a b : string) :
  String.length (a ++ b)%string = (String.length a + String.length b)%nat.
Proof. induction a as [|c a IH]; simpl; [reflexivity | now rewrite IH]. Qed.

Lemma str_forall_append (p : ascii -> bool) (a b : string) :
  str_forall p (a ++ b) = str_forall p a && str_forall p b.
Proof.
  induction a as [|c a IH]; simpl; [reflexivity|].
  now rewrite IH, andb_assoc.
Qed.

Lemma substring_prefix (a b : string) :
  substring 0 (String.length a) (a ++ b) = a.
Proof.
  induction a as [|c a IH]; simpl.
  - destruct b; reflexivity.
  - now rewrite IH.
Qed.

Lemma substring_whole (b : string) : substring 0 (String.length b) b = b.
Proof. induction b as [|c b IH]; simpl; [reflexivity | now rewrite IH]. Qed.

Lemma substring_suffix (a b : string) :
  substring (String.length a) (String.length b) (a ++ b) = b.
Proof.
  induction a as [|c a IH]; simpl; [apply substring_whole | exact IH].
Qed.

Lemma span_digits_spec (s : string) :
  s = (fst (span_digits s) ++ snd (span_digits s))%string
  /\ str_forall is_digit (fst (span_digits s)) = true
  /\ match snd (span_digits s) with
     | String c _ => is_digit c = false
     | EmptyString => True
     end.
Proof.
  induction s as [|c s (IH1 & IH2 & IH3)]; simpl; [auto|].
  destruct (is_digit c) eqn:Hc; simpl.
  - destruct (span_digits s) as [d t]; simpl in *.
    rewrite Hc, IH2. split; [congruence | auto].
  - rewrite Hc. auto.
Qed.

Lemma span_digits_exact (a t : string) :
  str_forall is_digit a = true ->
  match t with String c _ => is_digit c = false | EmptyString => True end ->
  span_digits (a ++ t) = (a, t).
Proof.
  intros Ha Ht. induction a as [|c a IH]; simpl.
  - destruct t as [|c r]; [reflexivity|]. simpl. now rewrite Ht.
  - simpl in Ha. apply andb_true_iff in Ha. destruct Ha as [Hc Ha].
    now rewrite Hc, (IH Ha).
Qed.

Lemma span_digits_fst (s : string) :
  fst (span_digits (fst (span_digits s))) = fst (span_digits s).
Proof.
  induction s as [|c s IH]; simpl; [reflexivity|].
  destruct (is_digit c) eqn:Hc; [|reflexivity].
  destruct (span_digits s) as [d t]. simpl in *.
  rewrite Hc. destruct (span_digits d) as [d' t']. simpl in *. now rewrite IH.
Qed.

Lemma span_digits_append (a b : string) :
  fst (span_digits a) = a -> fst (span_digits b) = b ->
  fst (span_digits (a ++ b)) = (a ++ b)%string.
Proof.
  induction a as [|c a IH]; simpl; intros Ha Hb; [exact Hb|].
  destruct (is_digit c) eqn:Hc; [|discriminate].
  destruct (span_digits a) as [d t]. simpl in Ha. injection Ha as Ha.
  specialize (IH Ha Hb).
  destruct (span_digits (a ++ b)) as [d' t']. simpl in *. now rewrite IH.
Qed.

End Basics.

(** ** Rounding to binary64 *)

Section Rounding.

Lemma pow2_pos (k : Z) : 0 <= k -> 0 < 2 ^ k.
Proof. intros. now apply Z.pow_pos_nonneg. Qed.

Lemma pow2_split (a b : Z) : 0 <= a -> 0 <= b -> 2 ^ (a + b) = 2 ^ a * 2 ^ b.
Proof. intros. now apply Z.pow_add_r. Qed.

Lemma digits2_pos_log2 (p : positive) :
  Zpos (digits2_pos p) = Z.log2 (Zpos p) + 1.
Proof.
  assert (S : forall q, digits2_pos q = Pos.size q)
    by (induction q; simpl; congruence).
  destruct p; simpl; rewrite ?S; lia.
Qed.

Lemma Zdigits2_log2 (m : Z) : 0 < m -> Zdigits2 m = Z.log2 m + 1.
Proof. destruct m; try lia. intros _. apply digits2_pos_log2. Qed.

Lemma Zdigits2_bounds (m : Z) :
  0 < m -> 2 ^ (Zdigits2 m - 1) <= m < 2 ^ Zdigits2 m.
Proof.
  intros H. rewrite Zdigits2_log2 by assumption.
  replace (Z.log2 m + 1 - 1) with (Z.log2 m) by lia.
  replace (Z.log2 m + 1) with (Z.succ (Z.log2 m)) by lia.
  now apply Z.log2_spec.
Qed.

Lemma Zdigits2_nonneg (m : Z) : 0 <= Zdigits2 m.
Proof. destruct m; simpl; lia. Qed.

Lemma Zdigits2_le (m : Z) (k : Z) : 0 <= k -> 0 <= m -> m < 2 ^ k -> Zdigits2 m <= k.
Proof.
  intros Hk Hm H. destruct (Z.eq_dec m 0) as [->|Hz]; [simpl; lia|].
  rewrite Zdigits2_log2 by lia.
  assert (Z.log2 m < k) by (apply Z.log2_lt_pow2; lia). lia.
Qed.

Lemma Zdigits2_ge (m k : Z) : 0 <= k -> 2 ^ k <= m -> k + 1 <= Zdigits2 m.
Proof.
  intros Hk H. assert (0 < m) by (pose proof (pow2_pos k Hk); lia).
  rewrite Zdigits2_log2 by assumption.
  assert (k <= Z.log2 m) by (apply Z.log2_le_pow2; assumption). lia.
Qed.

Lemma fexp_ge_emin (e : Z) : -1074 <= fexp prec emax e.
Proof. unfold fexp, emin, prec, emax. lia. Qed.

Lemma fexp_eq (e : Z) : fexp prec emax e = Z.max (e - 53) (-1074).
Proof. reflexivity. Qed.

Lemma shr_1_m (mrs : shr_record) :
  0 <= shr_m mrs -> shr_m (shr_1 mrs) = shr_m mrs / 2.
Proof.
  destruct mrs as [m r s]. cbn [shr_m]. intros H.
  destruct m as [|[p|p|]|p]; unfold shr_1; cbn [shr_m]; try lia;
    try reflexivity.
  - rewrite Pos2Z.inj_xI. apply Z.div_unique with 1; lia.
  - rewrite Pos2Z.inj_xO. apply Z.div_unique with 0; lia.
Qed.

Lemma iter_shr_1_m (p : positive) (mrs : shr_record) :
  0 <= shr_m mrs ->
  shr_m (iter_pos shr_1 p mrs) = shr_m mrs / 2 ^ Zpos p.
Proof.
  revert mrs. induction p as [p IH|p IH|]; intros mrs H; simpl iter_pos.
  - assert (H1 : 0 <= shr_m (shr_1 mrs))
      by (rewrite shr_1_m by assumption; apply Z.div_pos; lia).
    assert (H2 : 0 <= shr_m (iter_pos shr_1 p (shr_1 mrs)))
      by (rewrite IH by assumption; apply Z.div_pos; lia).
    rewrite IH, IH, shr_1_m by assumption.
    rewrite !Z.div_div by lia.
    replace (2 ^ Zpos p~1) with (2 * (2 ^ Zpos p * 2 ^ Zpos p)); [reflexivity|].
    change (Zpos p~1) with (2 * Zpos p + 1).
    rewrite Z.pow_add_r, Z.pow_twice_r, Z.pow_1_r by lia. lia.
  - assert (H2 : 0 <= shr_m (iter_pos shr_1 p mrs))
      by (rewrite IH by assumption; apply Z.div_pos; lia).
    rewrite IH, IH by assumption.
    rewrite !Z.div_div by lia.
    replace (2 ^ Zpos p~0) with (2 ^ Zpos p * 2 ^ Zpos p); [reflexivity|].
    change (Zpos p~0) with (2 * Zpos p).
    now rewrite Z.pow_twice_r.
  - now apply shr_1_m.
Qed.

Lemma shr_record_of_loc_m (m : Z) (l : location) :
  shr_m (shr_record_of_loc m l) = m.
Proof. destruct l as [|[| |]]; reflexivity. Qed.

Lemma shr_fexp_m (m e : Z) (l : location) :
  0 <= m ->
  shr_m (fst (shr_fexp prec emax m e l)) = m / 2 ^ dropped m e
  /\ snd (shr_fexp prec emax m e l) = e + dropped m e.
Proof.
  intros H. unfold shr_fexp, shr, dropped.
  destruct (fexp prec emax (Zdigits2 m + e) - e) as [|p|p] eqn:E; simpl fst; simpl snd.
  - rewrite shr_record_of_loc_m, Z.div_1_r. lia.
  - rewrite iter_shr_1_m by (rewrite shr_record_of_loc_m; assumption).
    rewrite shr_record_of_loc_m.
    replace (Z.max 0 (Zpos p)) with (Zpos p) by lia. lia.
  - rewrite shr_record_of_loc_m.
    replace (Z.max 0 (Zneg p)) with 0 by lia.
    rewrite Z.div_1_r. lia.
Qed.

Lemma round_nearest_even_bounds (m : Z) (l : location) :
  m <= round_nearest_even m l <= m + 1.
Proof.
  destruct l as [|[| |]]; simpl; try lia.
  destruct (Z.even m); lia.
Qed.

(** The shape of every result of [binary_round_aux] on a mantissa that is
    not negative: the mantissa is cut to [m / 2^n], moved up by at most
    one, and cut once more. *)
Lemma binary_round_aux_shape (sx : bool) (mx ex : Z) (lx : location) :
  0 <= mx ->
  exists m1 : Z,
    mx / 2 ^ dropped mx ex <= m1 <= mx / 2 ^ dropped mx ex + 1
    /\ binary_round_aux prec emax sx mx ex lx
       = match m1 / 2 ^ dropped m1 (ex + dropped mx ex) with
         | Z0 => S754_zero sx
         | Zpos m =>
             if ex + dropped mx ex + dropped m1 (ex + dropped mx ex) <=? emax - prec
             then S754_finite sx m (ex + dropped mx ex + dropped m1 (ex + dropped mx ex))
             else S754_infinity sx
         | Zneg _ => S754_nan
         end.
Proof.
  intros H. unfold binary_round_aux.
  destruct (shr_fexp_m mx ex lx H) as [Hm He].
  destruct (shr_fexp prec emax mx ex lx) as [mrs' e']. simpl in Hm, He.
  set (m1 := round_nearest_even (shr_m mrs') (loc_of_shr_record mrs')).
  assert (B : shr_m mrs' <= m1 <= shr_m mrs' + 1)
    by apply round_nearest_even_bounds.
  assert (P0 : 0 <= mx / 2 ^ dropped mx ex)
    by (apply Z.div_pos; [lia | apply Z.pow_pos_nonneg; unfold dropped; lia]).
  assert (P1 : 0 <= m1) by lia.
  destruct (shr_fexp_m m1 e' loc_Exact P1) as [Hm2 He2].
  destruct (shr_fexp prec emax m1 e' loc_Exact) as [mrs'' e'']. simpl in Hm2, He2.
  exists m1. split; [lia|]. subst e' e''. rewrite Hm2. reflexivity.
Qed.

Lemma binary_round_aux_sign (sx : bool) (mx ex : Z) (lx : location) :
  0 <= mx -> sign_is sx (binary_round_aux prec emax sx mx ex lx) = true.
Proof.
  intros H. destruct (binary_round_aux_shape sx mx ex lx H) as (m1 & B & ->).
  assert (P0 : 0 <= mx / 2 ^ dropped mx ex)
    by (apply Z.div_pos; [lia | apply Z.pow_pos_nonneg; unfold dropped; lia]).
  assert (P1 : 0 <= m1 / 2 ^ dropped m1 (ex + dropped mx ex))
    by (apply Z.div_pos; [lia | apply Z.pow_pos_nonneg; unfold dropped; lia]).
  destruct (m1 / 2 ^ dropped m1 (ex + dropped mx ex)); try lia; simpl.
  - apply eqb_reflx.
  - destruct (_ <=? _); simpl; apply eqb_reflx.
Qed.

(** With enough bits to start from, what is left after the first shift
    is below [2^53]. *)
Lemma first_shift_below (mx ex : Z) :
  0 <= mx -> mx / 2 ^ dropped mx ex < 2 ^ 53.
Proof.
  intros H. destruct (Z.eq_dec mx 0) as [->|Hz]; [rewrite Zdiv_0_l; reflexivity|].
  assert (Hd := Zdigits2_bounds mx ltac:(lia)).
  assert (Hn := Zdigits2_nonneg mx).
  set (d := Zdigits2 mx) in *.
  assert (Hk : d - 53 <= dropped mx ex).
  { unfold dropped. fold d. rewrite fexp_eq. lia. }
  assert (H0 : 0 <= dropped mx ex) by (unfold dropped; lia).
  destruct (Z_le_gt_dec d 53) as [Hs|Hl].
  - apply Z.le_lt_trans with mx.
    + apply Z.div_le_upper_bound; [now apply pow2_pos|].
      pose proof (pow2_pos _ H0). nia.
    + apply Z.lt_le_trans with (2 ^ d); [lia|].
      apply Z.pow_le_mono_r; lia.
  - apply Z.div_lt_upper_bound; [now apply pow2_pos|].
    apply Z.lt_le_trans with (2 ^ d); [lia|].
    rewrite <- Z.pow_add_r by lia.
    apply Z.pow_le_mono_r; lia.
Qed.

Lemma dropped_small (m e : Z) :
  0 <= m -> m < 2 ^ 53 -> -1074 <= e -> dropped m e = 0.
Proof.
  intros H0 H1 He. unfold dropped. rewrite fexp_eq.
  assert (Zdigits2 m <= 53) by (apply Zdigits2_le; lia). lia.
Qed.

Lemma dropped_carry (e : Z) : -1074 <= e -> dropped (2 ^ 53) e = 1.
Proof. intros He. unfold dropped. rewrite fexp_eq. simpl Zdigits2. lia. Qed.

Lemma binary_round_aux_bounded (sx : bool) (mx ex : Z) (lx : location) :
  0 <= mx -> ex <= fexp prec emax (Zdigits2 mx + ex) ->
  bounded64 (binary_round_aux prec emax sx mx ex lx) = true.
Proof.
  intros H P. destruct (binary_round_aux_shape sx mx ex lx H) as (m1 & B & ->).
  pose proof (first_shift_below mx ex H) as Hlt.
  assert (P0 : 0 <= mx / 2 ^ dropped mx ex)
    by (apply Z.div_pos; [lia | apply Z.pow_pos_nonneg; unfold dropped; lia]).
  assert (He1 : -1074 <= ex + dropped mx ex).
  { unfold dropped. pose proof (fexp_ge_emin (Zdigits2 mx + ex)). lia. }
  set (e1 := ex + dropped mx ex) in *.
  assert (C : m1 < 2 ^ 53 \/ m1 = 2 ^ 53) by lia.
  destruct C as [C|C].
  - rewrite (dropped_small m1 e1) by lia.
    rewrite Z.div_1_r, Z.add_0_r.
    destruct m1 as [|p|p]; try reflexivity.
    destruct (e1 <=? emax - prec) eqn:L; [|reflexivity].
    unfold bounded64. apply Z.leb_le in L. unfold emax, prec in L.
    apply andb_true_iff; split; [apply andb_true_iff; split|].
    + now apply Z.ltb_lt.
    + now apply Z.leb_le.
    + apply Z.leb_le. lia.
  - subst m1. rewrite (dropped_carry e1) by lia.
    change (2 ^ 53 / 2 ^ 1) with (Zpos (2 ^ 52)).
    destruct (e1 + 1 <=? emax - prec) eqn:L; [|reflexivity].
    unfold bounded64. apply Z.leb_le in L. unfold emax, prec in L.
    apply andb_true_iff; split; [apply andb_true_iff; split|].
    + reflexivity.
    + apply Z.leb_le. lia.
    + apply Z.leb_le. lia.
Qed.

Lemma iter_xO_value (m d : positive) :
  Zpos (Pos.iter xO m d) = Zpos m * 2 ^ Zpos d.
Proof.
  induction d as [|d IH] using Pos.peano_ind.
  - simpl. lia.
  - rewrite Pos.iter_succ, Pos2Z.inj_succ, Z.pow_succ_r by lia.
    rewrite Pos2Z.inj_xO, IH. lia.
Qed.

Lemma shl_align_value (mx : positive) (ex ez : Z) :
  ez <= ex ->
  Zpos (fst (shl_align mx ex ez)) = Zpos mx * 2 ^ (ex - ez)
  /\ snd (shl_align mx ex ez) = ez.
Proof.
  intros H. unfold shl_align.
  destruct (ez - ex) as [|d|d] eqn:E; cbn [fst snd]; try lia.
  - replace (ex - ez) with 0 by lia. rewrite Z.pow_0_r. lia.
  - rewrite iter_xO_value. replace (ex - ez) with (Zpos d) by lia. lia.
Qed.

Lemma binary_round_good (sx : bool) (mx : positive) (ex : Z) :
  sign_is sx (binary_round prec emax sx mx ex) = true
  /\ bounded64 (binary_round prec emax sx mx ex) = true.
Proof.
  unfold binary_round.
  set (f := fexp prec emax (Zpos (digits2_pos mx) + ex)).
  destruct (shl_align mx ex f) as [mz ez] eqn:A.
  split; [apply binary_round_aux_sign; lia|].
  apply binary_round_aux_bounded; [lia|].
  destruct (Z_le_gt_dec f ex) as [Hle|Hgt].
  - destruct (shl_align_value mx ex f Hle) as [V E].
    rewrite A in V, E. cbn [fst snd] in V, E. subst ez.
    assert (D : Zdigits2 (Zpos mz) = Zpos (digits2_pos mx) + (ex - f)).
    { rewrite V. rewrite !Zdigits2_log2 by (try apply Z.mul_pos_pos; try apply pow2_pos; lia).
      rewrite digits2_pos_log2, Z.log2_mul_pow2 by lia. lia. }
    rewrite D. replace (Zpos (digits2_pos mx) + (ex - f) + f)
      with (Zpos (digits2_pos mx) + ex) by lia.
    fold f. lia.
  - unfold shl_align in A. destruct (f - ex) eqn:E; try lia.
    injection A as <- <-. simpl Zdigits2. fold f. lia.
Qed.

End Rounding.

(** ** Amounts: what is read, added, and taken as commission *)

Section Amounts.

Lemma amount_like_sign (x : number) :
  amount_like x = true -> sign_is false x = true.
Proof. unfold amount_like. intros H. now apply andb_true_iff in H. Qed.

Lemma sign_nonneg (x : number) : sign_is false x = true -> leb pzero x = true.
Proof. destruct x as [[|]|[|]| |[|] m e]; simpl; intros H; try discriminate; reflexivity. Qed.

Lemma amount_like_cases (x : number) :
  amount_like x = true ->
  x = S754_zero false \/ x = S754_infinity false
  \/ exists m e, x = S754_finite false m e /\ Zpos m < 2 ^ 53 /\ -1074 <= e <= 971.
Proof.
  unfold amount_like.
  destruct x as [[|]|[|]| |[|] m e]; simpl; intros H; try discriminate; auto.
  right. right. exists m, e. split; [reflexivity|].
  apply andb_true_iff in H. destruct H as [H H3].
  apply andb_true_iff in H. destruct H as [H1 H2].
  apply Z.ltb_lt in H1. apply Z.leb_le in H2. apply Z.leb_le in H3. lia.
Qed.

Lemma binary_normalize_amount (z e : Z) :
  0 <= z -> amount_like (binary_normalize prec emax z e false) = true.
Proof.
  intros H. unfold amount_like. destruct z as [|p|p]; try lia; simpl.
  - reflexivity.
  - destruct (binary_round_good false p e) as [S B]. now rewrite S, B.
Qed.

Lemma of_ratio_amount (n d : Z) :
  0 <= n -> 0 < d -> amount_like (of_ratio n d) = true.
Proof.
  intros Hn Hd. unfold of_ratio. apply binary_normalize_amount.
  set (s := Z.max 0 (64 + Z.log2 d - Z.log2 n)).
  assert (0 <= n * 2 ^ s / d).
  { apply Z.div_pos; [|assumption].
    apply Z.mul_nonneg_nonneg; [assumption|]. apply Z.pow_nonneg. lia. }
  destruct (_ =? 0); lia.
Qed.

Lemma of_decimal_amount (m e : Z) :
  0 <= m -> amount_like (of_decimal m e) = true.
Proof.
  intros Hm. unfold of_decimal. destruct (0 <=? e) eqn:E.
  - apply of_ratio_amount; [|lia].
    apply Z.mul_nonneg_nonneg; [assumption|]. apply Z.pow_nonneg. lia.
  - apply of_ratio_amount; [assumption|].
    apply Z.pow_pos_nonneg; lia.
Qed.

Lemma digit_val_nonneg (c : ascii) : is_digit c = true -> 0 <= digit_val c.
Proof.
  unfold is_digit, digit_val. intros H.
  apply andb_true_iff in H. destruct H as [H _].
  apply N.leb_le in H. lia.
Qed.

Lemma digits_val_from_nonneg (s : string) (acc : Z) :
  0 <= acc -> fst (span_digits s) = s -> 0 <= digits_val_from acc s.
Proof.
  revert acc. induction s as [|c s IH]; intros acc Ha Hs;
    cbn [digits_val_from]; [assumption|].
  simpl in Hs. destruct (is_digit c) eqn:Hc; [|discriminate].
  destruct (span_digits s) as [d t] eqn:Sp. simpl in Hs.
  injection Hs as Hs. apply IH; [|exact Hs].
  pose proof (digit_val_nonneg c Hc). lia.
Qed.

(** What [read_unsigned] gives is [NaN] or an amount: never a negative
    number. *)
Lemma read_unsigned_amount (s : string) :
  read_unsigned s = NaN \/ amount_like (read_unsigned s) = true.
Proof.
  unfold read_unsigned. destruct (prefix "Infinity" s); [now right|].
  destruct (span_digits s) as [ip t] eqn:I.
  assert (Hip : fst (span_digits ip) = ip)
    by (pose proof (span_digits_fst s) as H; now rewrite I in H).
  assert (exists fp u, (match t with String "." r => span_digits r | _ => (EmptyString, t) end) = (fp, u)
                       /\ fst (span_digits fp) = fp) as (fp & u & -> & Hfp).
  { destruct t as [|c r]; [now exists EmptyString, EmptyString|].
    destruct (Ascii.eqb_spec c ".") as [->|Hc].
    - destruct (span_digits r) as [fp u] eqn:F. exists fp, u. split; [reflexivity|].
      pose proof (span_digits_fst r) as H. now rewrite F in H.
    - exists EmptyString, (String c r). split; [|reflexivity].
      destruct c as [[|] [|] [|] [|] [|] [|] [|] [|]]; try reflexivity.
      now elim Hc. }
  destruct (ip ++ fp)%string as [|c ds] eqn:D; [now left|].
  right. apply of_decimal_amount. apply digits_val_from_nonneg; [lia|].
  rewrite <- D. now apply span_digits_append.
Qed.

Lemma or_zero_amount (x : number) :
  x = NaN \/ amount_like x = true -> amount_like (or_zero x) = true.
Proof.
  intros [->|H]; [reflexivity|]. unfold or_zero.
  destruct (truthy x); [assumption | reflexivity].
Qed.

Lemma add_amount (a b : number) :
  amount_like a = true -> amount_like b = true -> amount_like (add a b) = true.
Proof.
  intros Ha Hb.
  destruct (amount_like_cases a Ha) as [->|[->|(ma & ea & -> & _)]];
    destruct (amount_like_cases b Hb) as [->|[->|(mb & eb & -> & _)]];
    try reflexivity; try assumption.
  unfold add, SFadd, cond_Zopp. apply binary_normalize_amount. lia.
Qed.

Lemma tenth_eq : tenth = S754_finite false 7205759403792794 (-56).
Proof. vm_compute. reflexivity. Qed.

Lemma mul_tenth_sign (g : number) :
  amount_like g = true -> sign_is false (mul g tenth) = true.
Proof.
  intros Hg. rewrite tenth_eq.
  destruct (amount_like_cases g Hg) as [->|[->|(m & e & -> & _)]];
    try reflexivity.
  unfold mul, SFmul. cbn [xorb]. apply binary_round_aux_sign. lia.
Qed.

(** The commission of a finite gross amount is 0 or a finite number that
    is not above the gross amount; both are compared at the scale
    [2^(eg - 56)]. *)
Lemma commission_below_gross (mg : positive) (eg : Z) :
  Zpos mg < 2 ^ 53 -> -1074 <= eg <= 971 ->
  mul (S754_finite false mg eg) tenth = S754_zero false
  \/ exists mc ec,
       mul (S754_finite false mg eg) tenth = S754_finite false mc ec
       /\ eg - 56 <= ec
       /\ Zpos mc * 2 ^ (ec - (eg - 56)) <= Zpos mg * 2 ^ 56.
Proof.
  intros Hm He.
  assert (C : (Zpos mg = 1 /\ eg = -1074) \/ (Zpos mg <> 1 \/ eg <> -1074)) by lia.
  destruct C as [[M1 E1]|NS].
  { left. assert (mg = 1%positive) by lia. subst mg eg.
    vm_compute. reflexivity. }
  rewrite tenth_eq. unfold mul, SFmul. cbn [xorb].
  set (mt := 7205759403792794%positive).
  set (M := Zpos (mg * mt)). set (E := eg + -56).
  assert (HM : M = Zpos mg * 7205759403792794) by (subst M mt; lia).
  assert (M0 : 0 <= M) by lia.
  destruct (binary_round_aux_shape false M E loc_Exact M0) as (m1 & B & ->).
  pose proof (first_shift_below M E M0) as Hlt.
  pose proof (Zdigits2_bounds (Zpos mg) ltac:(lia)) as Dg.
  pose proof (Zdigits2_bounds M ltac:(lia)) as DM.
  assert (Dg53 : Zdigits2 (Zpos mg) <= 53) by (apply Zdigits2_le; lia).
  assert (Dg1 : 1 <= Zdigits2 (Zpos mg)) by (apply (Zdigits2_ge (Zpos mg) 0); lia).
  set (dg := Zdigits2 (Zpos mg)) in *. set (dM := Zdigits2 M) in *.
  assert (DMlo : 53 <= dM).
  { apply (Zdigits2_ge M 52); [lia|]. change (2 ^ 52) with 4503599627370496. lia. }
  assert (DMhi : dM <= dg + 53).
  { apply Zdigits2_le; [lia | lia |].
    rewrite pow2_split by lia. change (2 ^ 53) with 9007199254740992. nia. }
  assert (Hn : dropped M E = Z.max (dM - 53) (-1074 - E)).
  { unfold dropped. fold dM. rewrite fexp_eq. lia. }
  set (n := dropped M E) in *.
  assert (He1 : -1074 <= E + n) by lia.
  assert (Hn0 : 0 <= n) by lia.
  assert (Pn : 0 < 2 ^ n) by (now apply pow2_pos).
  assert (P0 : 0 <= M / 2 ^ n) by (apply Z.div_pos; lia).
  assert (Hn2 : 0 <= dropped m1 (E + n) <= 1).
  { destruct (Z.eq_dec m1 (2 ^ 53)) as [->|Hne].
    - rewrite dropped_carry by lia. lia.
    - rewrite dropped_small by lia. lia. }
  set (n2 := dropped m1 (E + n)) in *.
  assert (Pn2 : 0 < 2 ^ n2) by (apply pow2_pos; lia).
  assert (V1 : m1 / 2 ^ n2 * 2 ^ n2 <= m1)
    by (rewrite Z.mul_comm; apply Z.mul_div_le; assumption).
  assert (V2 : M / 2 ^ n * 2 ^ n <= M)
    by (rewrite Z.mul_comm; apply Z.mul_div_le; assumption).
  assert (V3 : 2 ^ n <= Zpos mg * 2 ^ 55).
  { destruct (Z.max_spec (dM - 53) (-1074 - E)) as [[_ Hx]|[_ Hx]];
      rewrite Hx in Hn.
    - (* the subnormal range *)
      destruct (Z.eq_dec eg (-1074)) as [E1|E1].
      + assert (n = 56) by lia.
        replace n with 56 by lia.
        change (2 ^ 56) with (2 * 2 ^ 55). change (2 ^ 55) with 36028797018963968. lia.
      + apply Z.le_trans with (2 ^ 55).
        * apply Z.pow_le_mono_r; lia.
        * change (2 ^ 55) with 36028797018963968. lia.
    - apply Z.le_trans with (2 ^ dg).
      + apply Z.pow_le_mono_r; lia.
      + replace dg with (1 + (dg - 1)) at 1 by lia.
        rewrite pow2_split by lia.
        change (2 ^ 1) with 2. change (2 ^ 55) with 36028797018963968. lia. }
  assert (V4 : m1 / 2 ^ n2 * 2 ^ (n + n2) <= Zpos mg * 2 ^ 56).
  { rewrite pow2_split by lia.
    apply Z.le_trans with (M + 2 ^ n).
    - nia.
    - rewrite HM. change (2 ^ 56) with 72057594037927936.
      change (2 ^ 55) with 36028797018963968 in V3. lia. }
  assert (L : E + n + n2 <= emax - prec) by (unfold emax, prec; lia).
  destruct (m1 / 2 ^ n2) as [|mc|mc] eqn:Q.
  - now left.
  - right. exists mc, (E + n + n2).
    apply Z.leb_le in L. rewrite L.
    split; [reflexivity|]. split; [lia|].
    replace (E + n + n2 - (eg - 56)) with (n + n2) by lia. exact V4.
  - assert (0 <= m1 / 2 ^ n2) by (apply Z.div_pos; lia). lia.
Qed.

(** The net amount of a finite gross amount is not below 0. *)
Lemma net_of_finite_gross (g : number) :
  amount_like g = true -> isFinite g = true ->
  amount_like (sub g (mul g tenth)) = true.
Proof.
  intros Hg Hf.
  destruct (amount_like_cases g Hg) as [->|[->|(mg & eg & -> & Hm & He)]];
    [now rewrite tenth_eq | discriminate |].
  destruct (commission_below_gross mg eg Hm He) as [->|(mc & ec & -> & Hec & V)].
  - exact Hg.
  - unfold sub, SFsub, cond_Zopp. apply binary_normalize_amount.
    set (ez := Z.min eg ec).
    destruct (shl_align_value mg eg ez ltac:(lia)) as [-> _].
    destruct (shl_align_value mc ec ez ltac:(lia)) as [-> _].
    assert (Hz : 0 <= ez - (eg - 56)) by lia.
    pose proof (pow2_pos _ Hz) as Pz.
    assert (A1 : 2 ^ (eg - ez) * 2 ^ (ez - (eg - 56)) = 2 ^ 56).
    { rewrite <- pow2_split by lia. f_equal. lia. }
    assert (A2 : 2 ^ (ec - ez) * 2 ^ (ez - (eg - 56)) = 2 ^ (ec - (eg - 56))).
    { rewrite <- pow2_split by lia. f_equal. lia. }
    assert (P1 : 0 < 2 ^ (eg - ez)) by (apply pow2_pos; lia).
    assert (P2 : 0 < 2 ^ (ec - ez)) by (apply pow2_pos; lia).
    rewrite <- A1, <- A2 in V.
    nia.
Qed.

Lemma net_of_infinite_gross :
  sub (S754_infinity false) (mul (S754_infinity false) tenth) = NaN.
Proof. now rewrite tenth_eq. Qed.

End Amounts.

(** ** The record store *)

Section Store.

Lemma add_is_cons (store : History) (g : Spec.Registration) :
  exists r, Spec.add_record g store = r :: store /\ id r = Spec.reg_id g
            /\ comprobanteUrl r = Spec.reg_url g
            /\ fecha r = new_fecha (Spec.reg_data g).
Proof.
  unfold Spec.add_record, handleAddToHistory; simpl.
  eexists; split; [reflexivity | simpl; auto].
Qed.

Lemma id_differs (r : LiquidationRecord) (k : string) :
  id r <> k -> String.eqb (id r) k = false.
Proof. intros H. now apply String.eqb_neq. Qed.

Lemma add_records_snoc (gs : list Spec.Registration) (g : Spec.Registration) (h : History) :
  Spec.add_records (gs ++ [g]) h = Spec.add_record g (Spec.add_records gs h).
Proof. unfold Spec.add_records. now rewrite fold_left_app. Qed.

(** C6. Adding a record puts it in front of the stored list: after [add],
    the list starts with the new record and goes on with the records that
    were there, in the order they had.  After a run of additions the list
    holds the new records latest first, whatever their dates are. *)
Theorem add_prepends_newest_first :
  forall (fresh_id fresh_url : string) (d : NewRecordData) (h : History)
         (gs : list Spec.Registration),
    (exists r,
        fst (handleAddToHistory fresh_id fresh_url d h) = r :: h
        /\ hd_error (fst (handleAddToHistory fresh_id fresh_url d h)) = Some r
        /\ id r = fresh_id
        /\ fecha r = new_fecha d
        /\ valorCop r = new_valorCop d
        /\ comisionCop r = new_comisionCop d
        /\ liquidoCop r = new_liquidoCop d
        /\ tasaBrlCop r = new_tasaBrlCop d
        /\ totalBrl r = new_totalBrl d
        /\ comprobanteUrl r = fresh_url
        /\ comprobanteName r = file_name (new_file d))
    /\ map id (Spec.add_records gs h) = rev (map Spec.reg_id gs) ++ map id h
    /\ map fecha (Spec.add_records gs h)
       = rev (map (fun g => new_fecha (Spec.reg_data g)) gs) ++ map fecha h
    /\ skipn (List.length gs) (Spec.add_records gs h) = h.
Proof.
  intros fresh_id fresh_url d h gs. split.
  - eexists. simpl. repeat split.
  - induction gs as [|g gs IH] using rev_ind.
    + simpl. auto.
    + destruct IH as (Hid & Hdate & Hrest).
      rewrite add_records_snoc.
      destruct (add_is_cons (Spec.add_records gs h) g) as (r & -> & Hr & _ & Hf).
      rewrite !map_app, !rev_app_distr. simpl.
      rewrite Hid, Hdate, Hr, Hf. repeat split.
      rewrite length_app, Nat.add_comm. simpl. exact Hrest.
Qed.

Lemma filter_other_ids (k : string) (l : History) :
  (forall x, In x l -> id x <> k) ->
  filter (fun record => negb (String.eqb (id record) k)) l = l.
Proof.
  intros H. apply filter_all_kept. intros x Hx.
  now rewrite (id_differs x k (H x Hx)).
Qed.

Lemma delete_filters (k : string) (h : History) :
  fst (handleDeleteRecord k h)
  = filter (fun record => negb (String.eqb (id record) k)) h.
Proof. reflexivity. Qed.

Lemma delete_revokes_at_most_one (k : string) (h : History) :
  (List.length (snd (handleDeleteRecord k h)) <= 1)%nat.
Proof.
  unfold handleDeleteRecord; simpl.
  destruct (find _ h); simpl; auto.
Qed.

(** The handler of a deletion taken on its own, without the effect of
    [App] that the change of the list sets off.  Removing an id that one
    stored record carries deletes that record: the records before it and
    after it stay, in their order, no record with the id is left, and the
    handler revokes the URL of the removed record's proof file once and
    no other URL.  Removing an id that no stored record carries gives
    back the records as they were, and the handler revokes nothing. *)
Theorem remove_deletes_and_releases_once :
  forall (recordId : string) (h : History),
    (forall l1 r l2,
        h = l1 ++ r :: l2 ->
        id r = recordId ->
        (forall x, In x (l1 ++ l2) -> id x <> recordId) ->
        handleDeleteRecord recordId h
        = (l1 ++ l2, [RevokeObjectURL (comprobanteUrl r)])
        /\ Spec.revocations (comprobanteUrl r)
             (snd (handleDeleteRecord recordId h)) = 1%nat
        /\ (forall u, u <> comprobanteUrl r ->
              Spec.revocations u (snd (handleDeleteRecord recordId h)) = 0%nat))
    /\ ((forall x, In x h -> id x <> recordId) ->
        handleDeleteRecord recordId h = (h, []))
    /\ (forall x, In x (fst (handleDeleteRecord recordId h)) -> id x <> recordId)
    /\ (forall x, In x h -> id x <> recordId ->
          In x (fst (handleDeleteRecord recordId h))).
Proof.
  intros recordId h. split; [|split; [|split]].
  - intros l1 r l2 Eh Er Hother. subst h.
    assert (Hl1 : forall x, In x l1 -> id x <> recordId)
      by (intros x Hx; apply Hother, in_or_app; now left).
    assert (Hl2 : forall x, In x l2 -> id x <> recordId)
      by (intros x Hx; apply Hother, in_or_app; now right).
    assert (E : handleDeleteRecord recordId (l1 ++ r :: l2)
                = (l1 ++ l2, [RevokeObjectURL (comprobanteUrl r)])).
    { unfold handleDeleteRecord. rewrite find_past_prefix.
      - simpl. rewrite Er, String.eqb_refl. f_equal.
        rewrite filter_app. simpl. rewrite Er, String.eqb_refl. simpl.
        now rewrite !filter_other_ids.
      - intros x Hx. now apply id_differs, Hl1. }
    rewrite E. simpl. rewrite String.eqb_refl. repeat split.
    intros u Hu.
    destruct (String.eqb_spec (comprobanteUrl r) u); [congruence | reflexivity].
  - intros Habsent. unfold handleDeleteRecord.
    rewrite find_none_of, filter_other_ids; auto.
    intros x Hx. now apply id_differs, Habsent.
  - intros x Hx. rewrite delete_filters in Hx.
    apply filter_In in Hx. destruct Hx as [_ Hx].
    intros E. rewrite E, String.eqb_refl in Hx. discriminate.
  - intros x Hx Hne. rewrite delete_filters. apply filter_In. split; auto.
    now rewrite id_differs.
Qed.

(** C7. In the program the URL of a removed record is not revoked exactly
    once, and the removal of an id that is not in the store is not
    without releases.  On the store of the records a, b and c, the
    removal of b leaves a and c in their order; the updater revokes the
    URL of b, and then, the list being a new one, the effect of [App]
    runs the function it returned for the list of a, b and c, which
    revokes the three URLs: the URL of b is revoked twice, and the URLs
    of a and c, whose records stay in the store, are revoked too.  The
    removal of an id no record carries leaves the three records and
    revokes the three URLs all the same. *)
Theorem removal_releases_more_than_once :
  Lifecycle.deleteRecord "b" Examples.store_abc
  = ([Examples.record_a; Examples.record_c],
     [RevokeObjectURL "blob:b";
      RevokeObjectURL "blob:a"; RevokeObjectURL "blob:b";
      RevokeObjectURL "blob:c"])
  /\ Spec.revocations "blob:b"
       (snd (Lifecycle.deleteRecord "b" Examples.store_abc)) = 2%nat
  /\ Spec.revocations "blob:a"
       (snd (Lifecycle.deleteRecord "b" Examples.store_abc)) = 1%nat
  /\ Lifecycle.deleteRecord "z" Examples.store_abc
     = (Examples.store_abc,
        [RevokeObjectURL "blob:a"; RevokeObjectURL "blob:b";
         RevokeObjectURL "blob:c"]).
Proof.
  assert (D : handleDeleteRecord "b" Examples.store_abc
              = ([Examples.record_a; Examples.record_c],
                 [RevokeObjectURL "blob:b"])) by reflexivity.
  assert (Z : handleDeleteRecord "z" Examples.store_abc
              = (Examples.store_abc, [])) by reflexivity.
  unfold Lifecycle.deleteRecord. rewrite D, Z.
  repeat split.
Qed.

Lemma update_keeps_length (u : LiquidationRecord) (h : History) :
  List.length (handleUpdateRecord u h) = List.length h.
Proof. apply length_map. Qed.

Lemma update_at (u : LiquidationRecord) (h : History) (i : nat) :
  nth_error (handleUpdateRecord u h) i
  = option_map (fun r => if String.eqb (id r) (id u) then u else r)
               (nth_error h i).
Proof. apply nth_error_map. Qed.

(** C8. Updating with a record [u] keeps the length of the stored list and
    the place of every record; a place that held a record with the id of
    [u] now holds [u], and every other place holds what it held.  When no
    stored record has the id of [u], the store comes back unchanged. *)
Theorem update_replaces_only_matching_id :
  forall (u : LiquidationRecord) (h : History),
    List.length (handleUpdateRecord u h) = List.length h
    /\ (forall i r, nth_error h i = Some r -> id r = id u ->
          nth_error (handleUpdateRecord u h) i = Some u)
    /\ (forall i r, nth_error h i = Some r -> id r <> id u ->
          nth_error (handleUpdateRecord u h) i = Some r)
    /\ (forall i, nth_error h i = None ->
          nth_error (handleUpdateRecord u h) i = None)
    /\ ((forall r, In r h -> id r <> id u) -> handleUpdateRecord u h = h).
Proof.
  intros u h. split; [apply update_keeps_length|]. repeat split.
  - intros i r Hi E. rewrite update_at, Hi. simpl.
    now rewrite E, String.eqb_refl.
  - intros i r Hi E. rewrite update_at, Hi. simpl.
    now rewrite (id_differs r (id u) E).
  - intros i Hi. now rewrite update_at, Hi.
  - intros H. unfold handleUpdateRecord.
    rewrite <- (map_id h) at 2. apply map_ext_in.
    intros r Hr. now rewrite (id_differs r (id u) (H r Hr)).
Qed.

End Store.

(** ** The date filter and the export guard *)

Section Dates.

Lemma digit_char_compare (a b : Z) :
  0 <= a < 10 -> 0 <= b < 10 ->
  Ascii.compare (digit_char a) (digit_char b) = (a ?= b).
Proof.
  intros Ha Hb. unfold Ascii.compare, digit_char.
  rewrite !N_ascii_embedding by lia.
  rewrite Z2N.inj_compare by lia.
  apply Z.add_compare_mono_l.
Qed.

Lemma compare_digit (a b : Z) (s t : string) :
  0 <= a < 10 -> 0 <= b < 10 ->
  String.compare (String (digit_char a) s) (String (digit_char b) t)
  = match a ?= b with Eq => String.compare s t | c => c end.
Proof.
  intros Ha Hb. cbn [String.compare].
  rewrite digit_char_compare by assumption.
  destruct (a ?= b); reflexivity.
Qed.

Lemma compare_same_head (c : ascii) (s t : string) :
  String.compare (String c s) (String c t) = String.compare s t.
Proof.
  cbn [String.compare]. unfold Ascii.compare. now rewrite N.compare_refl.
Qed.

Lemma compare_two_digits (n1 n2 : Z) (s t : string) :
  0 <= n1 < 100 -> 0 <= n2 < 100 ->
  String.compare (two_digits n1 ++ s) (two_digits n2 ++ t)
  = match n1 ?= n2 with Eq => String.compare s t | c => c end.
Proof.
  intros H1 H2. unfold two_digits. cbn [append].
  rewrite !compare_digit by div_lia.
  destruct (Z.compare_spec (n1 / 10) (n2 / 10));
    destruct (Z.compare_spec (n1 mod 10) (n2 mod 10));
    destruct (Z.compare_spec n1 n2); try reflexivity; div_lia.
Qed.

Lemma compare_four_digits (n1 n2 : Z) (s t : string) :
  0 <= n1 < 10000 -> 0 <= n2 < 10000 ->
  String.compare (four_digits n1 ++ s) (four_digits n2 ++ t)
  = match n1 ?= n2 with Eq => String.compare s t | c => c end.
Proof.
  intros H1 H2. unfold four_digits.
  rewrite !str_append_assoc, !compare_two_digits by div_lia.
  destruct (Z.compare_spec (n1 / 100) (n2 / 100));
    destruct (Z.compare_spec (n1 mod 100) (n2 mod 100));
    destruct (Z.compare_spec n1 n2); try reflexivity; div_lia.
Qed.

(** On dates with a year of four digits the order of the texts is the
    order of the days. *)
Lemma iso_date_order (y1 m1 d1 y2 m2 d2 : Z) :
  0 <= y1 < 10000 -> 0 <= m1 < 100 -> 0 <= d1 < 100 ->
  0 <= y2 < 10000 -> 0 <= m2 < 100 -> 0 <= d2 < 100 ->
  String.leb (iso_date y1 m1 d1) (iso_date y2 m2 d2) = true
  <-> day_le y1 m1 d1 y2 m2 d2.
Proof.
  intros Y1 M1 D1 Y2 M2 D2. unfold String.leb, iso_date, day_le.
  rewrite compare_four_digits by assumption.
  rewrite compare_same_head, compare_two_digits, compare_same_head by assumption.
  rewrite <- (str_append_nil (two_digits d1)), <- (str_append_nil (two_digits d2)).
  rewrite compare_two_digits by assumption.
  cbn [String.compare].
  destruct (Z.compare_spec y1 y2); destruct (Z.compare_spec m1 m2);
    destruct (Z.compare_spec d1 d2); split; intros H'; try reflexivity;
    try discriminate; lia.
Qed.

Lemma in_range_is_date_within (startDate endDate : string) (r : LiquidationRecord) :
  HistoryPage.in_range startDate endDate r
  = Spec.date_within (Spec.bound startDate) (Spec.bound endDate) (fecha r).
Proof.
  unfold HistoryPage.in_range, Spec.date_within, Spec.bound, str_geb, str_leb.
  destruct startDate, endDate; reflexivity.
Qed.

Lemma bound_some (s : string) : s <> EmptyString -> Spec.bound s = Some s.
Proof. destruct s; [congruence | reflexivity]. Qed.

Lemma date_within_iff (startDate endDate date : string) :
  Spec.date_within (Spec.bound startDate) (Spec.bound endDate) date = true
  <-> (startDate <> EmptyString -> String.leb startDate date = true)
      /\ (endDate <> EmptyString -> String.leb date endDate = true).
Proof.
  unfold Spec.date_within. rewrite andb_true_iff. split.
  - intros [Hs He]. split; intros Hn.
    + now rewrite (bound_some _ Hn) in Hs.
    + now rewrite (bound_some _ Hn) in He.
  - intros [Hs He]. split.
    + destruct startDate; [reflexivity|]. apply Hs. discriminate.
    + destruct endDate; [reflexivity|]. apply He. discriminate.
Qed.

(** C5. The records [handleExportCsv] keeps are those of
    [listByDateRange] over the bounds that are supplied: a record is kept
    exactly when its date is not below a supplied start and not above a
    supplied end, in the order of the code units of the date texts; the
    kept records stand in the order of the store; with no bound at all the
    whole store is kept; and the filter is a plain function to a list, the
    empty list being the outcome when no stored date is in range.  On the
    texts [YYYY-MM-DD] of a date input that order is the order of the
    days. *)
Theorem date_range_listing :
  forall (startDate endDate : string) (store : History),
    HistoryPage.filteredRecords startDate endDate store
    = Spec.listByDateRange (Spec.bound startDate) (Spec.bound endDate) store
    /\ (forall r,
          In r (HistoryPage.filteredRecords startDate endDate store)
          <-> In r store
              /\ (startDate <> EmptyString -> String.leb startDate (fecha r) = true)
              /\ (endDate <> EmptyString -> String.leb (fecha r) endDate = true))
    /\ Spec.in_order_of (HistoryPage.filteredRecords startDate endDate store) store
    /\ HistoryPage.filteredRecords EmptyString EmptyString store = store
    /\ (HistoryPage.filteredRecords startDate endDate store = []
        <-> forall r, In r store ->
              Spec.date_within (Spec.bound startDate) (Spec.bound endDate) (fecha r)
              = false)
    /\ (forall y1 m1 d1 y2 m2 d2,
          0 <= y1 < 10000 -> 0 <= m1 < 100 -> 0 <= d1 < 100 ->
          0 <= y2 < 10000 -> 0 <= m2 < 100 -> 0 <= d2 < 100 ->
          String.leb (Spec.iso_date y1 m1 d1) (Spec.iso_date y2 m2 d2) = true
          <-> Spec.day_le y1 m1 d1 y2 m2 d2).
Proof.
  intros startDate endDate store.
  assert (E : HistoryPage.filteredRecords startDate endDate store
              = Spec.listByDateRange (Spec.bound startDate) (Spec.bound endDate) store).
  { unfold HistoryPage.filteredRecords, Spec.listByDateRange.
    apply filter_ext. intros r. apply in_range_is_date_within. }
  split; [exact E|]. split; [|split; [|split; [|split]]].
  - intros r. rewrite E. unfold Spec.listByDateRange.
    rewrite filter_In, date_within_iff. tauto.
  - apply filter_in_order.
  - unfold HistoryPage.filteredRecords. now apply filter_all_kept.
  - rewrite E. unfold Spec.listByDateRange. split.
    + intros H r Hr.
      destruct (Spec.date_within _ _ (fecha r)) eqn:W; [|reflexivity].
      assert (Hin : In r (filter
                (fun r0 => Spec.date_within (Spec.bound startDate)
                             (Spec.bound endDate) (fecha r0)) store))
        by (apply filter_In; auto).
      rewrite H in Hin. destruct Hin.
    + apply filter_none_kept.
  - apply iso_date_order.
Qed.

Lemma csv_longer_than_header (r : LiquidationRecord) (rows : History) :
  HistoryPage.csvString (r :: rows) <> join "," HistoryPage.headers.
Proof.
  unfold HistoryPage.csvString, join. simpl map.
  set (hd := String.concat "," HistoryPage.headers).
  intros E. apply (f_equal String.length) in E.
  change (String.concat (String newline "") (hd :: HistoryPage.csvRow r :: map HistoryPage.csvRow rows))
    with (hd ++ String newline "" ++
          String.concat (String newline "") (HistoryPage.csvRow r :: map HistoryPage.csvRow rows))%string in E.
  rewrite !str_length_append in E. simpl in E. lia.
Qed.

(** C4. When no record matches the range, the export alerts the user and
    does nothing else: the page state is the one it started from and no
    URL is created and nothing is downloaded.  Whatever the store and the
    range, a download that does happen carries at least one record row:
    its text is never the header row alone. *)
Theorem export_refuses_empty_selection :
  forall (today blob_url : string) (records : History) (st : HistoryPage.State),
    ((forall r, In r records ->
        HistoryPage.in_range (HistoryPage.startDate st) (HistoryPage.endDate st) r = false) ->
     HistoryPage.handleExportCsv today blob_url records st
     = (st, [Alert HistoryPage.nothing_to_export]))
    /\ fst (HistoryPage.handleExportCsv today blob_url records st) = st
    /\ (forall name body,
          In (Download name body)
             (snd (HistoryPage.handleExportCsv today blob_url records st)) ->
          body <> join "," HistoryPage.headers
          /\ exists r rows,
               HistoryPage.filteredRecords (HistoryPage.startDate st)
                 (HistoryPage.endDate st) records = r :: rows
               /\ body = HistoryPage.csvString (r :: rows)).
Proof.
  intros today blob_url records st. unfold HistoryPage.handleExportCsv.
  split; [|split].
  - intros H. unfold HistoryPage.filteredRecords.
    assert (E : filter (HistoryPage.in_range (HistoryPage.startDate st)
                          (HistoryPage.endDate st)) records = []).
    { now apply filter_none_kept. }
    now rewrite E.
  - destruct (HistoryPage.filteredRecords _ _ records); reflexivity.
  - intros name body.
    destruct (HistoryPage.filteredRecords _ _ records) as [|r rows]; simpl.
    + intros [H|[]]. discriminate.
    + intros [H|[H|[H|[]]]]; try discriminate.
      injection H as _ <-. split; [apply csv_longer_than_header|].
      now exists r, rows.
Qed.

End Dates.

(** ** The liquidation formulas *)

Lemma or_zero_cases (x : number) :
  (isNaN x = true /\ or_zero x = pzero)
  \/ ((x = S754_zero false \/ x = S754_zero true) /\ or_zero x = pzero)
  \/ (truthy x = true /\ or_zero x = x).
Proof. destruct x as [[|]|s| |s m e]; unfold or_zero; simpl; auto 6. Qed.

Lemma gtb_zero_truthy (r : number) : gtb r pzero = true -> truthy r = true.
Proof. destruct r as [[|]|[|]| |[|] m e]; simpl; auto. Qed.

Lemma rate_missing_cases (r : option number) :
  rate_missing r = true
  <-> r = None \/ r = Some (S754_zero false) \/ r = Some (S754_zero true)
      \/ r = Some NaN.
Proof.
  destruct r as [[[|]|[|]| |s m e]|]; simpl; split; intros H; auto;
    try discriminate; repeat (destruct H as [H|H]; try discriminate).
Qed.

(** C1. The liquidation computed from the three channel texts and the rate
    has gross = nequi + bancolombia + daviplata, where a channel text that
    does not start with a number counts as 0, commission = gross times the
    literal 0.10, net = gross - commission, and total BRL = net / rate for
    a rate above 0, and 0 for a rate that is 0, absent, or not above 0.
    The recomputation of the edit dialog applies the same three formulas
    to the gross amount and the rate of the record being edited. *)
Theorem liquidation_formulas :
  forall (n b d : string) (rate : option number) (formData : LiquidationRecord),
    let amount s := or_zero (parseFloat s) in
    let l := compute n b d rate in
    let e := EditModal.recompute formData in
    saldoMovimiento l = add (add (amount n) (amount b)) (amount d)
    /\ comision l = mul (saldoMovimiento l) tenth
    /\ liquidoCOP l = sub (saldoMovimiento l) (comision l)
    /\ (forall r, rate = Some r -> gtb r pzero = true ->
          totalBRL l = div (liquidoCOP l) r)
    /\ (forall r, rate = Some r -> gtb r pzero = false -> totalBRL l = pzero)
    /\ (rate = Some pzero -> totalBRL l = pzero)
    /\ (rate = None -> totalBRL l = pzero)
    /\ (forall s, isNaN (parseFloat s) = true -> amount s = pzero)
    /\ (forall s, truthy (parseFloat s) = true -> amount s = parseFloat s)
    /\ tenth = S754_finite false 7205759403792794 (-56)
    /\ comisionCop e = mul (or_zero (valorCop formData)) tenth
    /\ liquidoCop e = sub (or_zero (valorCop formData)) (comisionCop e)
    /\ (gtb (or_zero (tasaBrlCop formData)) pzero = true ->
          totalBrl e = div (liquidoCop e) (tasaBrlCop formData))
    /\ (gtb (or_zero (tasaBrlCop formData)) pzero = false -> totalBrl e = pzero)
    /\ valorCop e = valorCop formData
    /\ tasaBrlCop e = tasaBrlCop formData.
Proof.
  intros n b d rate formData amount l e. subst amount l e.
  unfold compute, EditModal.recompute; simpl.
  repeat match goal with |- _ /\ _ => split end; try reflexivity.
  - intros r -> Hr. now rewrite Hr, (gtb_zero_truthy r Hr).
  - intros r -> Hr. now rewrite Hr, andb_false_r.
  - now intros ->.
  - now intros ->.
  - intros s Hs. destruct (parseFloat s); try discriminate. reflexivity.
  - intros s Hs. unfold or_zero. now rewrite Hs.
  - intros Hr. rewrite Hr.
    pose proof (gtb_zero_truthy _ Hr) as Ht.
    destruct (or_zero_cases (tasaBrlCop formData)) as [[_ E]|[[_ E]|[_ E]]];
      rewrite E in *; try discriminate. reflexivity.
  - now intros ->.
Qed.

(** ** The guard of the register button *)

Lemma refused_click (fresh_id fresh_url : string) (st : State) (h : History) :
  register_refused st = true ->
  handleRegisterClick fresh_id fresh_url st h = (st, h, [Alert register_message]).
Proof. intros G. unfold handleRegisterClick. now rewrite G. Qed.

Lemma refused_without_rate (st : State) :
  rate_missing (brlCopRate st) = true -> register_refused st = true.
Proof. intros H. unfold register_refused. now rewrite H, orb_true_r. Qed.

(** Past the guard of [handleRegisterClick] the rate is a number other
    than 0 and the file is there. *)
Lemma accepted_click_has_rate_and_file (st : Calculator.State) :
  register_refused st = false ->
  exists rate file,
    brlCopRate st = Some rate /\ truthy rate = true
    /\ comprobanteFile st = Some file
    /\ leb (liquidoCOP (liquidation st)) pzero = false.
Proof.
  unfold register_refused. intros H.
  apply orb_false_iff in H. destruct H as [H Hf].
  apply orb_false_iff in H. destruct H as [Hn Hr].
  destruct (brlCopRate st) as [rate|]; [|discriminate].
  destruct (comprobanteFile st) as [file|]; [|discriminate].
  exists rate, file. simpl in Hr. apply negb_false_iff in Hr. auto.
Qed.

(** C2. A click on the register button is refused when the net amount is
    not above 0, or when the rate is missing (not yet there, or 0 after a
    failed fetch), or when no proof file is attached, each on its own:
    the form state and the store come back as they were and the only
    effect is the alert. *)
Theorem register_refused_when_incomplete :
  forall (fresh_id fresh_url : string) (st : State) (h : History),
    leb (liquidoCOP (liquidation st)) pzero = true
    \/ rate_missing (brlCopRate st) = true
    \/ comprobanteFile st = None ->
    handleRegisterClick fresh_id fresh_url st h = (st, h, [Alert register_message]).
Proof.
  intros fresh_id fresh_url st h H. apply refused_click.
  destruct H as [H|[H|H]].
  - unfold register_refused. now rewrite H.
  - now apply refused_without_rate.
  - unfold register_refused. rewrite H. apply orb_true_r.
Qed.

(** ** The exchange rate read from the answer *)

Lemma runs_head (s cur : string) :
  hd_error (Spec.runs is_rate_char cur s)
  = match cur with
    | EmptyString => first_match s
    | _ => Some (cur ++ rate_run s)%string
    end.
Proof.
  revert cur. induction s as [|c r IH]; intros cur; simpl.
  - destruct cur; simpl; [reflexivity | now rewrite str_append_nil].
  - destruct (is_rate_char c) eqn:Hc.
    + rewrite IH. destruct cur as [|a cur]; simpl; [reflexivity|].
      now rewrite str_append_assoc.
    + destruct cur as [|a cur]; simpl; [apply IH | now rewrite str_append_nil].
Qed.

Lemma first_match_is_first_token (text : string) :
  first_match text = hd_error (Spec.rate_tokens text).
Proof. unfold Spec.rate_tokens. now rewrite runs_head. Qed.

Lemma first_match_nonempty (text m : string) :
  first_match text = Some m -> truthy_str m = true.
Proof.
  induction text as [|c r IH]; simpl; [discriminate|].
  destruct (is_rate_char c) eqn:Hc; [|exact IH].
  intros E. injection E as <-. reflexivity.
Qed.

Lemma user_step_keeps_rate (ev : UserEvent) (st : State) (h : History) :
  brlCopRate (fst (fst (user_step ev st h))) = brlCopRate st
  /\ error (fst (fst (user_step ev st h))) = error st.
Proof.
  destruct ev as [ch value|files|value|fresh_id fresh_url]; simpl; auto.
  - unfold handleInputChange. destruct (amount_pattern value); auto.
  - unfold handleRegisterClick. destruct (register_refused st); auto.
    destruct (brlCopRate st) eqn:R, (comprobanteFile st) eqn:F; simpl; auto.
Qed.

Lemma user_step_without_rate (ev : UserEvent) (st : State) (h : History) :
  rate_missing (brlCopRate st) = true ->
  snd (fst (user_step ev st h)) = h.
Proof.
  intros Hr. destruct ev as [ch value|files|value|fresh_id fresh_url]; simpl; auto.
  now rewrite refused_click by now apply refused_without_rate.
Qed.

Lemma user_run_without_rate (evs : list UserEvent) (st : State) (h : History) :
  rate_missing (brlCopRate st) = true ->
  brlCopRate (fst (fst (run (map User evs) st h))) = brlCopRate st
  /\ error (fst (fst (run (map User evs) st h))) = error st
  /\ snd (fst (run (map User evs) st h)) = h.
Proof.
  revert st h. induction evs as [|ev evs IH]; intros st h Hr; simpl; auto.
  pose proof (user_step_keeps_rate ev st h) as [K1 K2].
  pose proof (user_step_without_rate ev st h Hr) as K3.
  destruct (user_step ev st h) as [[st1 h1] e1]; simpl in *.
  assert (Hr1 : rate_missing (brlCopRate st1) = true) by now rewrite K1.
  specialize (IH st1 h1 Hr1).
  destruct (run (map User evs) st1 h1) as [[st2 h2] e2]; simpl in *.
  destruct IH as (I1 & I2 & I3). subst h1. repeat split; congruence.
Qed.

Lemma fetch_throws_one_error (response : Response) (message : string) :
  fst (fetchBrlCopRate response) = Thrown message -> message = fetch_error.
Proof.
  unfold fetchBrlCopRate.
  destruct response as [text|]; [destruct (read_rate text)|]; simpl;
    intros E; congruence.
Qed.

(** C9. The rate is read from the first numeric token of the answer, the
    leftmost run of digits and points, by [parseFloat].  When that token
    does not read as a number, when the answer has no token at all, and
    when the request itself fails, the service throws its one error; so
    it does whenever no token of the answer reads as a number.  The calculator then holds the rate 0
    and shows the message of the error in its footer, and whatever the
    user does on the page afterwards, the rate stays 0, the message stays
    and no record reaches the store. *)
Theorem rate_read_from_first_token :
  forall (text : string) (st : State) (uevs : list UserEvent) (h : History),
    first_match text = hd_error (Spec.rate_tokens text)
    /\ (forall tok,
          hd_error (Spec.rate_tokens text) = Some tok ->
          isNaN (parseFloat tok) = false ->
          fetchBrlCopRate (Answered text) = (Resolved (parseFloat tok), []))
    /\ (forall tok,
          hd_error (Spec.rate_tokens text) = Some tok ->
          isNaN (parseFloat tok) = true ->
          fst (fetchBrlCopRate (Answered text)) = Thrown fetch_error)
    /\ ((forall tok, In tok (Spec.rate_tokens text) ->
           isNaN (parseFloat tok) = true) ->
        fst (fetchBrlCopRate (Answered text)) = Thrown fetch_error)
    /\ fst (fetchBrlCopRate Rejected) = Thrown fetch_error
    /\ (forall response message,
          fst (fetchBrlCopRate response) = Thrown message ->
          message = fetch_error)
    /\ brlCopRate (getRate (Thrown fetch_error) st) = Some pzero
    /\ error_line (getRate (Thrown fetch_error) st) = Some fetch_error
    /\ isLoadingRate (getRate (Thrown fetch_error) st) = false
    /\ brlCopRate
         (fst (fst (run (map User uevs) (getRate (Thrown fetch_error) st) h)))
       = Some pzero
    /\ error_line
         (fst (fst (run (map User uevs) (getRate (Thrown fetch_error) st) h)))
       = Some fetch_error
    /\ snd (fst (run (map User uevs) (getRate (Thrown fetch_error) st) h)) = h.
Proof.
  intros text st uevs h.
  pose proof (first_match_is_first_token text) as F.
  split; [exact F|]. split; [|split; [|split; [|split; [|split]]]].
  - intros tok Ht Hn. rewrite <- F in Ht.
    unfold fetchBrlCopRate, read_rate.
    now rewrite Ht, (first_match_nonempty text tok Ht), Hn.
  - intros tok Ht Hn. rewrite <- F in Ht.
    unfold fetchBrlCopRate, read_rate.
    now rewrite Ht, (first_match_nonempty text tok Ht), Hn.
  - intros Hall. unfold fetchBrlCopRate, read_rate. rewrite F.
    destruct (Spec.rate_tokens text) as [|tok rest]; simpl; [reflexivity|].
    rewrite (Hall tok) by (now left).
    destruct (truthy_str tok); reflexivity.
  - reflexivity.
  - exact fetch_throws_one_error.
  - assert (Hr : rate_missing (brlCopRate (getRate (Thrown fetch_error) st)) = true)
      by reflexivity.
    destruct (user_run_without_rate uevs _ h Hr) as (R1 & R2 & R3).
    unfold error_line. rewrite R1, R2, R3. repeat split.
Qed.

(** ** The CSV text *)

Section Csv.

Lemma string_of_uint_digits (d : Decimal.uint) :
  str_forall is_digit (NilEmpty.string_of_uint d) = true.
Proof. induction d; simpl; auto. Qed.

Lemma dec_string_digits (n : Z) : str_forall is_digit (dec_string n) = true.
Proof.
  unfold dec_string, NilZero.string_of_uint.
  destruct (N.to_uint (Z.to_N n)) eqn:E; try reflexivity;
    rewrite <- E; apply string_of_uint_digits.
Qed.

Lemma zeros_digits (k : nat) : str_forall is_digit (zeros k) = true.
Proof. induction k; simpl; auto. Qed.

Lemma zeros_length (k : nat) : String.length (zeros k) = k.
Proof. induction k; simpl; auto. Qed.

(** A text of at least three digits splits into a first part that is not
    empty and its last two digits. *)
Lemma last_two_digits (m : string) :
  str_forall is_digit m = true -> (3 <= String.length m)%nat ->
  exists ip a b,
    m = (ip ++ String a (String b EmptyString))%string
    /\ ip <> EmptyString
    /\ str_forall is_digit ip = true
    /\ is_digit a = true /\ is_digit b = true.
Proof.
  induction m as [|c m IH]; simpl; intros Hd Hl; [lia|].
  apply andb_true_iff in Hd. destruct Hd as [Hc Hd].
  destruct m as [|a [|b [|x r]]]; simpl in Hl; try lia.
  - exists (String c EmptyString), a, b. simpl in *.
    apply andb_true_iff in Hd. destruct Hd as [Ha Hd].
    apply andb_true_iff in Hd. destruct Hd as [Hb _].
    rewrite Hc. repeat split; auto. discriminate.
  - destruct IH as (ip & a' & b' & E & _ & Hip & Ha & Hb);
      [exact Hd | simpl; lia |].
    exists (String c ip), a', b'. simpl. rewrite <- E, Hc, Hip.
    repeat split; auto. discriminate.
Qed.

Lemma fixed2_shape (n : Z) :
  exists ip a b,
    fixed2_of_hundredths n
    = (ip ++ String "." (String a (String b EmptyString)))%string
    /\ ip <> EmptyString
    /\ str_forall is_digit ip = true
    /\ is_digit a = true /\ is_digit b = true.
Proof.
  unfold fixed2_of_hundredths.
  set (m := (zeros (3 - String.length (dec_string n)) ++ dec_string n)%string).
  assert (Hd : str_forall is_digit m = true)
    by (subst m; now rewrite str_forall_append, zeros_digits, dec_string_digits).
  assert (Hl : (3 <= String.length m)%nat)
    by (subst m; rewrite str_length_append, zeros_length; lia).
  destruct (last_two_digits m Hd Hl) as (ip & a & b & E & Hne & Hip & Ha & Hb).
  exists ip, a, b. split; [|auto].
  rewrite E, str_length_append. simpl String.length.
  replace (String.length ip + 2 - 2)%nat with (String.length ip) by lia.
  rewrite substring_prefix.
  change 2%nat with (String.length (String a (String b EmptyString))) at 1.
  now rewrite substring_suffix.
Qed.

Lemma two_decimals_fixed2 (neg : bool) (n : Z) :
  two_decimals ((if neg then "-" else "") ++ fixed2_of_hundredths n) = true.
Proof.
  destruct (fixed2_shape n) as (ip & a & b & -> & Hne & Hip & Ha & Hb).
  assert (S : span_digits (ip ++ String "." (String a (String b EmptyString)))
              = (ip, String "." (String a (String b EmptyString))))
    by (now apply span_digits_exact).
  unfold two_decimals.
  destruct neg; simpl append.
  - cbv beta iota. rewrite S. destruct ip; [congruence|]. now rewrite Ha, Hb.
  - destruct ip as [|c ip]; [congruence|].
    assert (Hc : c <> "-"%char).
    { simpl in Hip. apply andb_true_iff in Hip. destruct Hip as [Hc _].
      intros ->. discriminate. }
    assert (T : match (String c ip ++ String "." (String a (String b EmptyString)))%string with
                | String "-" r => r
                | _ => (String c ip ++ String "." (String a (String b EmptyString)))%string
                end = (String c ip ++ String "." (String a (String b EmptyString)))%string).
    { simpl. destruct c as [[|] [|] [|] [|] [|] [|] [|] [|]]; try reflexivity.
      now elim Hc. }
    rewrite T, S. now rewrite Ha, Hb.
Qed.

(** A finite number of magnitude below [10^21] is written with exactly
    two decimal places. *)
Lemma toFixed2_two_decimals (x : number) :
  plain_amount x = true -> two_decimals (toFixed2 x) = true.
Proof.
  destruct x as [s|s| |s m e]; simpl; intros H; try discriminate.
  - reflexivity.
  - apply negb_true_iff in H. rewrite H. apply two_decimals_fixed2.
Qed.

Lemma read_quoted_doubled (s : string) :
  read_quoted (double_every dquote s ++ String dquote EmptyString) = s.
Proof.
  induction s as [|c s IH]; [reflexivity|].
  cbn [double_every]. destruct (Ascii.eqb c dquote) eqn:E.
  - apply Ascii.eqb_eq in E. subst c. simpl. now rewrite IH.
  - simpl. now rewrite E, IH.
Qed.

Lemma read_cell_sanitized (s : string) : read_cell (sanitizeCell s) = s.
Proof.
  unfold sanitizeCell. destruct (needs_quotes s) eqn:N.
  - simpl. apply read_quoted_doubled.
  - destruct s as [|c s]; [reflexivity|]. simpl.
    unfold needs_quotes in N. simpl in N.
    destruct (Ascii.eqb c dquote); [|reflexivity].
    rewrite orb_true_r in N. discriminate.
Qed.

(** C3, as amended. The export is the header row followed by one row per
    record, the rows joined by a newline; a row is the date, the five
    numbers and the proof name, in that order, joined by commas.  A number
    that is finite and below [10^21] in magnitude is written with exactly
    two decimal places, with a point and nothing else around the digits
    but the sign.  The proof name is wrapped in double quotes, with its
    double quotes doubled, exactly when it holds a comma, a double quote
    or a newline, and reading the cell back gives the name again.  The
    date is written as it is stored. *)
Theorem csv_export_format :
  forall (rows : History) (r : LiquidationRecord) (x : number) (cell : string),
    csvString rows = join (String newline "") (Spec.header_row :: map csvRow rows)
    /\ csvString (r :: rows)
       = (Spec.header_row
          ++ String newline (join (String newline "") (map csvRow (r :: rows))))%string
    /\ csvRow r
       = (fecha r ++ "," ++ toFixed2 (valorCop r) ++ "," ++
          toFixed2 (comisionCop r) ++ "," ++ toFixed2 (liquidoCop r) ++ "," ++
          toFixed2 (tasaBrlCop r) ++ "," ++ toFixed2 (totalBrl r) ++ "," ++
          sanitizeCell (comprobanteName r))%string
    /\ (Spec.plain_amount x = true -> Spec.two_decimals (toFixed2 x) = true)
    /\ (needs_quotes cell = true
        <-> includes "," cell = true \/ includes dquote cell = true
            \/ includes newline cell = true)
    /\ (needs_quotes cell = true ->
        sanitizeCell cell
        = String dquote (double_every dquote cell ++ String dquote ""))
    /\ (needs_quotes cell = false -> sanitizeCell cell = cell)
    /\ Spec.read_cell (sanitizeCell cell) = cell.
Proof.
  intros rows r x cell. repeat match goal with |- _ /\ _ => split end.
  - reflexivity.
  - reflexivity.
  - reflexivity.
  - apply toFixed2_two_decimals.
  - unfold needs_quotes. rewrite !orb_true_iff. tauto.
  - intros H. unfold sanitizeCell. now rewrite H.
  - intros H. unfold sanitizeCell. now rewrite H.
  - apply read_cell_sanitized.
Qed.

(** A store the calculator itself fills: the amount typed overflows, the
    record is registered with an infinite gross amount, and the export
    writes [Infinity] and [NaN] where two decimal places are claimed.
    And a date that holds a comma goes out without quotes. *)
Lemma csv_fields_without_two_decimals :
  csvString (snd (fst (run Examples.overflow_session (initial Examples.today) [])))
  = (Spec.header_row
     ++ String newline "2024-05-17,Infinity,Infinity,NaN,750.00,NaN,recibo.pdf")%string
  /\ Spec.two_decimals "Infinity" = false
  /\ Spec.two_decimals "NaN" = false
  /\ needs_quotes (fecha Examples.record_comma) = true
  /\ csvRow Examples.record_comma = "2024,05,1.00,0.10,0.90,750.00,0.00,d.pdf".
Proof. vm_compute. repeat split. Qed.

End Csv.

(** ** The amounts of the form *)

Section Form.

(** The test of [handleInputChange] accepts the language of the pattern
    and nothing else. *)
Lemma amount_pattern_language (s : string) :
  amount_pattern s = true <-> amount_text s.
Proof.
  unfold amount_pattern, amount_text. split.
  - destruct (span_digits_spec s) as (E & Ha & Ht).
    destruct (span_digits s) as [a t]; simpl in *.
    set (u := match t with String "." r => r | _ => t end).
    destruct (span_digits_spec u) as (Eu & Hb & _).
    destruct (span_digits u) as [b w]; simpl in *.
    destruct w; [|discriminate]. intros _.
    rewrite str_append_nil in Eu.
    exists a, b. repeat split; try assumption.
    destruct t as [|c r]; [left; subst u; congruence|].
    destruct (Ascii.eqb_spec c ".") as [->|Hc].
    + right. subst u. congruence.
    + left. assert (u = String c r).
      { subst u. destruct c as [[|] [|] [|] [|] [|] [|] [|] [|]];
          try reflexivity. now elim Hc. }
      congruence.
  - assert (All : forall d, str_forall is_digit d = true ->
                         span_digits d = (d, EmptyString)).
    { intros d Hd. rewrite <- (str_append_nil d) at 1.
      now apply span_digits_exact. }
    intros (a & b & Ha & Hb & [->| ->]).
    + rewrite All by (now rewrite str_forall_append, Ha, Hb).
      reflexivity.
    + rewrite (span_digits_exact a (String "." b) Ha) by reflexivity.
      now rewrite (All b Hb).
Qed.

Lemma digit_is_plain (c : ascii) :
  is_digit c = true \/ c = "."%char ->
  is_space c = false /\ c <> "-"%char /\ c <> "+"%char /\ c <> "I"%char.
Proof.
  intros [H| ->]; [|repeat split; discriminate].
  destruct c as [[|] [|] [|] [|] [|] [|] [|] [|]]; try discriminate H;
    repeat split; discriminate.
Qed.

Lemma amount_text_head (s : string) :
  amount_text s ->
  match s with
  | String c _ => is_digit c = true \/ c = "."%char
  | EmptyString => True
  end.
Proof.
  intros (a & b & Ha & Hb & [->| ->]).
  - destruct a as [|c a]; simpl in *.
    + destruct b as [|c b]; simpl in *; [trivial|].
      apply andb_true_iff in Hb. now left.
    + apply andb_true_iff in Ha. now left.
  - destruct a as [|c a]; simpl in *; [now right|].
    apply andb_true_iff in Ha. now left.
Qed.

(** An accepted text is read without a sign: [parseFloat] gives [NaN] or
    an amount. *)
Lemma accepted_text_amount (s : string) :
  amount_pattern s = true -> amount_like (or_zero (parseFloat s)) = true.
Proof.
  intros H. apply amount_pattern_language, amount_text_head in H.
  apply or_zero_amount. unfold parseFloat.
  destruct s as [|c r]; [now left|].
  destruct (digit_is_plain c H) as (Hs & Hm & Hp & _).
  cbn [trimStart]. rewrite Hs.
  assert (R : read_sign (String c r) = (false, String c r)).
  { unfold read_sign.
    destruct c as [[|] [|] [|] [|] [|] [|] [|] [|]]; try reflexivity;
      [now elim Hp | now elim Hm]. }
  rewrite R. apply read_unsigned_amount.
Qed.

#[local] Hint Resolve add_amount accepted_text_amount : amounts.

Lemma step_keeps_accepted (ev : Event) (st : State) (h : History) :
  fields_accepted st = true ->
  fields_accepted (fst (fst (step ev st h))) = true.
Proof.
  intros H. destruct ev as [[ch value|files|value|fresh_id fresh_url]|[rate|message]];
    simpl; try exact H.
  - unfold handleInputChange. destruct (amount_pattern value) eqn:P; [|exact H].
    unfold fields_accepted in *.
    apply andb_true_iff in H. destruct H as [H H3].
    apply andb_true_iff in H. destruct H as [H1 H2].
    destruct ch; simpl; now rewrite ?P, ?H1, ?H2, ?H3.
  - unfold handleRegisterClick. destruct (register_refused st); [exact H|].
    destruct (brlCopRate st), (comprobanteFile st); try exact H. reflexivity.
Qed.

Lemma run_keeps_accepted (evs : list Event) (st : State) (h : History) :
  fields_accepted st = true ->
  fields_accepted (fst (fst (run evs st h))) = true.
Proof.
  revert st h. induction evs as [|ev evs IH]; intros st h H; simpl; [exact H|].
  pose proof (step_keeps_accepted ev st h H) as K.
  destruct (step ev st h) as [[st1 h1] e1]. simpl in K.
  specialize (IH st1 h1 K).
  destruct (run evs st1 h1) as [[st2 h2] e2]. exact IH.
Qed.

Lemma liquidation_amounts (st : Calculator.State) :
  Spec.fields_accepted st = true ->
  Spec.amount_like (saldoMovimiento (liquidation st)) = true
  /\ Spec.sign_is false (comision (liquidation st)) = true.
Proof.
  unfold Spec.fields_accepted. intros H.
  apply andb_true_iff in H. destruct H as [H H3].
  apply andb_true_iff in H. destruct H as [H1 H2].
  assert (G : Spec.amount_like (saldoMovimiento (liquidation st)) = true).
  { unfold liquidation, compute. cbn [saldoMovimiento].
    auto with amounts. }
  split; [exact G|]. now apply mul_tenth_sign.
Qed.

(** C10, as amended. A text typed into an amount field is stored exactly
    when it is digits with at most one point; an accepted text reads as a
    number that is not below 0.  In every state the form can reach the
    three fields hold accepted texts, the gross amount and the commission
    are not below 0, and the net amount is not below 0 as long as the
    gross amount is finite.  A gross amount that is not finite is
    [Infinity], and the net amount is then [NaN]. *)
Theorem accepted_amounts_never_negative :
  forall (today : string) (evs : list Event) (h0 : History)
         (ch : Channel) (value : string) (st0 : Calculator.State),
    let st := fst (fst (run evs (initial today) h0)) in
    let l := liquidation st in
    (amount_pattern value = true <-> Spec.amount_text value)
    /\ (amount_pattern value = true ->
        handleInputChange ch value st0 = set_channel ch value st0)
    /\ (amount_pattern value = false -> handleInputChange ch value st0 = st0)
    /\ (amount_pattern value = true ->
        leb pzero (or_zero (parseFloat value)) = true)
    /\ Spec.fields_accepted st = true
    /\ leb pzero (saldoMovimiento l) = true
    /\ leb pzero (comision l) = true
    /\ (isFinite (saldoMovimiento l) = true -> leb pzero (liquidoCOP l) = true)
    /\ (isFinite (saldoMovimiento l) = false ->
        saldoMovimiento l = S754_infinity false /\ liquidoCOP l = NaN).
Proof.
  intros today evs h0 ch value st0 st l.
  assert (A : Spec.fields_accepted st = true)
    by (apply run_keeps_accepted; reflexivity).
  destruct (liquidation_amounts st A) as [G C]. fold l in G, C.
  repeat match goal with |- _ /\ _ => split end.
  - apply amount_pattern_language.
  - intros H. unfold handleInputChange. now rewrite H.
  - intros H. unfold handleInputChange. now rewrite H.
  - intros H. now apply sign_nonneg, amount_like_sign, accepted_text_amount.
  - exact A.
  - now apply sign_nonneg, amount_like_sign.
  - now apply sign_nonneg.
  - intros F. apply sign_nonneg, amount_like_sign.
    now apply (net_of_finite_gross (saldoMovimiento l)).
  - intros F.
    destruct (amount_like_cases _ G) as [E|[E|(m & e & E & _)]];
      rewrite E in F; try discriminate.
    split; [exact E|].
    change (liquidoCOP l) with (sub (saldoMovimiento l) (mul (saldoMovimiento l) tenth)).
    rewrite E. apply net_of_infinite_gross.
Qed.

(** The amount fields accept a text of 310 digits; it reads as [Infinity]
    and the net amount of the form is [NaN], which is not at or above 0. *)
Lemma huge_amount_net_not_nonnegative :
  amount_pattern Examples.huge_amount = true
  /\ nequi (fst (fst (run [User (InputChange Nequi Examples.huge_amount)]
                        (initial Examples.today) [])))
     = Examples.huge_amount
  /\ liquidoCOP (liquidation
       (fst (fst (run [User (InputChange Nequi Examples.huge_amount)]
                    (initial Examples.today) []))))
     = NaN
  /\ leb pzero (liquidoCOP (liquidation
       (fst (fst (run [User (InputChange Nequi Examples.huge_amount)]
                    (initial Examples.today) [])))))
     = false.
Proof. vm_compute. repeat split. Qed.

End Form.

(** ** The properties at concrete inputs *)

Lemma liquidation_formulas_example :
  totalBRL (compute "100000" "50000" "0" (Some Examples.rate_750))
  = div (liquidoCOP (compute "100000" "50000" "0" (Some Examples.rate_750)))
        Examples.rate_750
  /\ toFixed2 (totalBRL (compute "100000" "50000" "0" (Some Examples.rate_750)))
     = "180.00"
  /\ totalBRL (compute "100000" "50000" "0" (Some pzero)) = pzero
  /\ totalBRL (compute "100000" "50000" "0" None) = pzero
  /\ or_zero (parseFloat "abc") = pzero.
Proof.
  destruct (liquidation_formulas "100000" "50000" "0" (Some Examples.rate_750)
              Examples.record_a) as (_ & _ & _ & H4 & _).
  destruct (liquidation_formulas "100000" "50000" "0" (Some pzero)
              Examples.record_a) as (_ & _ & _ & _ & _ & H6 & _).
  destruct (liquidation_formulas "100000" "50000" "0" None
              Examples.record_a) as (_ & _ & _ & _ & _ & _ & H7 & H8 & _).
  split; [apply (H4 Examples.rate_750); reflexivity|].
  split; [vm_compute; reflexivity|].
  split; [apply H6; reflexivity|].
  split; [apply H7; reflexivity|].
  apply H8. reflexivity.
Defined.

Lemma register_refused_example :
  handleRegisterClick "k" "blob:k" Examples.form_without_amount Examples.store_abc
  = (Examples.form_without_amount, Examples.store_abc, [Alert register_message])
  /\ handleRegisterClick "k" "blob:k" Examples.form_without_rate Examples.store_abc
     = (Examples.form_without_rate, Examples.store_abc, [Alert register_message])
  /\ handleRegisterClick "k" "blob:k" Examples.form_without_file Examples.store_abc
     = (Examples.form_without_file, Examples.store_abc, [Alert register_message]).
Proof.
  split; [|split].
  - apply register_refused_when_incomplete. left. vm_compute. reflexivity.
  - apply register_refused_when_incomplete. right. left. reflexivity.
  - apply register_refused_when_incomplete. right. right. reflexivity.
Defined.

Lemma csv_export_format_example :
  Spec.two_decimals (toFixed2 (totalBrl Examples.record_a)) = true
  /\ sanitizeCell "a,b.pdf" = String dquote ("a,b.pdf" ++ String dquote "")
  /\ sanitizeCell "recibo.pdf" = "recibo.pdf".
Proof.
  destruct (csv_export_format [] Examples.record_a (totalBrl Examples.record_a) "a,b.pdf")
    as (_ & _ & _ & H1 & _ & H2 & _).
  destruct (csv_export_format [] Examples.record_a pzero "recibo.pdf")
    as (_ & _ & _ & _ & _ & _ & H3 & _).
  split; [apply H1; vm_compute; reflexivity|].
  split; [apply H2; vm_compute; reflexivity|].
  apply H3; vm_compute; reflexivity.
Defined.

Lemma export_refuses_example :
  HistoryPage.handleExportCsv Examples.today "blob:csv" Examples.store_abc
    (Examples.range_page "2025-01-01" "")
  = (Examples.range_page "2025-01-01" "", [Alert HistoryPage.nothing_to_export]).
Proof.
  apply (proj1 (export_refuses_empty_selection Examples.today "blob:csv"
                  Examples.store_abc (Examples.range_page "2025-01-01" ""))).
  intros r [<-|[<-|[<-|[]]]]; reflexivity.
Defined.

Lemma date_range_example :
  In Examples.record_c
     (HistoryPage.filteredRecords "2024-04-01" "2024-05-31" Examples.store_abc)
  /\ HistoryPage.filteredRecords "2025-01-01" "" Examples.store_abc = []
  /\ String.leb (Spec.iso_date 2024 3 15) (Spec.iso_date 2024 5 1) = true.
Proof.
  destruct (date_range_listing "2024-04-01" "2024-05-31" Examples.store_abc)
    as (_ & H2 & _ & _ & _ & H6).
  destruct (date_range_listing "2025-01-01" "" Examples.store_abc)
    as (_ & _ & _ & _ & H5 & _).
  split; [|split].
  - apply H2. split; [right; right; left; reflexivity|].
    split; intros _; reflexivity.
  - apply H5. intros r [<-|[<-|[<-|[]]]]; reflexivity.
  - apply H6; unfold Spec.day_le; lia.
Defined.

Lemma remove_example :
  handleDeleteRecord "b" Examples.store_abc
  = ([Examples.record_a; Examples.record_c], [RevokeObjectURL "blob:b"])
  /\ handleDeleteRecord "z" Examples.store_abc = (Examples.store_abc, []).
Proof.
  destruct (remove_deletes_and_releases_once "b" Examples.store_abc) as (H1 & _).
  destruct (remove_deletes_and_releases_once "z" Examples.store_abc) as (_ & H2 & _).
  split.
  - apply (H1 [Examples.record_a] Examples.record_b [Examples.record_c]);
      [reflexivity | reflexivity |].
    intros x [<-|[<-|[]]]; discriminate.
  - apply H2. intros x [<-|[<-|[<-|[]]]]; discriminate.
Defined.

Lemma update_example :
  nth_error
    (handleUpdateRecord (Examples.record_of "b" "2024-03-16" "300000")
       Examples.store_abc) 1
  = Some (Examples.record_of "b" "2024-03-16" "300000")
  /\ nth_error
       (handleUpdateRecord (Examples.record_of "b" "2024-03-16" "300000")
          Examples.store_abc) 0
     = Some Examples.record_a
  /\ handleUpdateRecord (Examples.record_of "z" "2024-03-16" "300000")
       Examples.store_abc
     = Examples.store_abc.
Proof.
  destruct (update_replaces_only_matching_id
              (Examples.record_of "b" "2024-03-16" "300000") Examples.store_abc)
    as (_ & H2 & H3 & _).
  destruct (update_replaces_only_matching_id
              (Examples.record_of "z" "2024-03-16" "300000") Examples.store_abc)
    as (_ & _ & _ & _ & H5).
  split; [|split].
  - apply (H2 1%nat Examples.record_b); reflexivity.
  - apply (H3 0%nat Examples.record_a); [reflexivity | discriminate].
  - apply H5. intros r [<-|[<-|[<-|[]]]]; discriminate.
Defined.

Lemma rate_read_example :
  fetchBrlCopRate (Answered "1 BRL = 750.25 COP") = (Resolved (parseFloat "1"), [])
  /\ fst (fetchBrlCopRate (Answered "It is approx. 750 COP")) = Thrown fetch_error
  /\ fst (fetchBrlCopRate (Answered "no rate today...")) = Thrown fetch_error.
Proof.
  destruct (rate_read_from_first_token "1 BRL = 750.25 COP"
              Examples.filled_form [] []) as (_ & H2 & _).
  destruct (rate_read_from_first_token "It is approx. 750 COP"
              Examples.filled_form [] []) as (_ & _ & H3 & _).
  destruct (rate_read_from_first_token "no rate today..."
              Examples.filled_form [] []) as (_ & _ & _ & H4 & _).
  split; [|split].
  - apply H2; reflexivity.
  - apply (H3 "."); reflexivity.
  - apply H4. intros tok [<-|[]]. reflexivity.
Defined.

Lemma accepted_amounts_example :
  leb pzero (liquidoCOP (liquidation
      (fst (fst (run [User (InputChange Nequi "100000");
                      User (InputChange Bancolombia "-5")]
                   (initial Examples.today) [])))))
  = true
  /\ handleInputChange Daviplata "12.5" Examples.form_without_amount
     = set_channel Daviplata "12.5" Examples.form_without_amount
  /\ handleInputChange Daviplata "1,5" Examples.form_without_amount
     = Examples.form_without_amount.
Proof.
  destruct (accepted_amounts_never_negative Examples.today
              [User (InputChange Nequi "100000"); User (InputChange Bancolombia "-5")]
              [] Daviplata "12.5" Examples.form_without_amount)
    as (_ & H2 & _ & _ & _ & _ & _ & H8 & _).
  destruct (accepted_amounts_never_negative Examples.today [] [] Daviplata "1,5"
              Examples.form_without_amount)
    as (_ & _ & H3 & _).
  split; [apply H8; vm_compute; reflexivity|].
  split; [apply H2; reflexivity | apply H3; reflexivity].
Defined.

(** * Further properties *)

Import Words.

(** ** Registering a liquidation *)

Lemma accepted_click (fresh_id fresh_url : string) (st : Calculator.State) (h : History) :
  register_refused st = false ->
  exists rate file,
    brlCopRate st = Some rate /\ truthy rate = true
    /\ comprobanteFile st = Some file
    /\ leb (liquidoCOP (liquidation st)) pzero = false
    /\ handleRegisterClick fresh_id fresh_url st h
       = ({| nequi := ""; bancolombia := ""; daviplata := "";
             selectedDate := selectedDate st;
             comprobanteFile := None;
             brlCopRate := brlCopRate st;
             isLoadingRate := isLoadingRate st;
             error := error st |},
          {| id := fresh_id;
             fecha := selectedDate st;
             valorCop := saldoMovimiento (liquidation st);
             comisionCop := comision (liquidation st);
             liquidoCop := liquidoCOP (liquidation st);
             tasaBrlCop := rate;
             totalBrl := totalBRL (liquidation st);
             comprobanteUrl := fresh_url;
             comprobanteName := file_name file |} :: h,
          [CreateObjectURL fresh_url; Alert registered_message]).
Proof.
  intros G.
  destruct (accepted_click_has_rate_and_file st G) as (rate & file & R & T & F & N).
  exists rate, file. repeat split; try assumption.
  unfold handleRegisterClick. rewrite G, R, F. reflexivity.
Qed.

(** X1. A click the guard lets through adds one record in front of the
    store, made of the amounts the form shows, the rate, the chosen date
    and the name of the file; it creates the URL of the file and alerts;
    and it empties the three amount fields and the file, so that the same
    click repeated at once is refused and adds nothing. *)
Theorem accepted_click_registers_once :
  forall (fresh_id fresh_url id2 url2 : string) (st : Calculator.State) (h : History),
    register_refused st = false ->
    exists r st',
      handleRegisterClick fresh_id fresh_url st h
      = (st', r :: h, [CreateObjectURL fresh_url; Alert registered_message])
      /\ id r = fresh_id /\ comprobanteUrl r = fresh_url
      /\ fecha r = selectedDate st
      /\ valorCop r = saldoMovimiento (liquidation st)
      /\ comisionCop r = comision (liquidation st)
      /\ liquidoCop r = liquidoCOP (liquidation st)
      /\ brlCopRate st = Some (tasaBrlCop r)
      /\ totalBrl r = totalBRL (liquidation st)
      /\ (exists file, comprobanteFile st = Some file
                       /\ comprobanteName r = file_name file)
      /\ nequi st' = "" /\ bancolombia st' = "" /\ daviplata st' = ""
      /\ comprobanteFile st' = None
      /\ selectedDate st' = selectedDate st /\ brlCopRate st' = brlCopRate st
      /\ handleRegisterClick id2 url2 st' (r :: h)
         = (st', r :: h, [Alert register_message]).
Proof.
  intros fresh_id fresh_url id2 url2 st h G.
  destruct (accepted_click fresh_id fresh_url st h G)
    as (rate & file & R & T & F & N & E).
  eexists. eexists. split; [exact E|]. simpl.
  repeat match goal with |- _ /\ _ => split end; try reflexivity; try assumption.
  now exists file.
Qed.

Lemma accepted_click_example :
  exists r st',
    handleRegisterClick "k" "blob:k" Examples.filled_form Examples.store_abc
    = (st', r :: Examples.store_abc,
       [CreateObjectURL "blob:k"; Alert registered_message])
    /\ toFixed2 (liquidoCop r) = "135000.00"
    /\ handleRegisterClick "k2" "blob:k2" st' (r :: Examples.store_abc)
       = (st', r :: Examples.store_abc, [Alert register_message]).
Proof.
  destruct (accepted_click_registers_once "k" "blob:k" "k2" "blob:k2"
              Examples.filled_form Examples.store_abc)
    as (r & st' & E & _ & _ & _ & _ & _ & L & _ & _ & _ & _ & _ & _ & _ & _ & _ & D);
    [vm_compute; reflexivity|].
  exists r, st'. split; [exact E|]. split; [|exact D].
  rewrite L. vm_compute. reflexivity.
Defined.

Lemma liquidation_total (st : Calculator.State) (rate : number) :
  brlCopRate st = Some rate -> truthy rate = true ->
  totalBRL (liquidation st)
  = (if gtb rate pzero then div (liquidoCOP (liquidation st)) rate else pzero).
Proof.
  intros R T. unfold liquidation, compute. rewrite R. cbn [totalBRL liquidoCOP].
  now rewrite T.
Qed.

Lemma step_keeps_registered (ev : Event) (st : Calculator.State) (h : History) :
  fields_accepted st = true ->
  Forall registered h ->
  Forall registered (snd (fst (step ev st h))).
Proof.
  intros A H.
  destruct ev as [[ch value|files|value|fresh_id fresh_url]|outcome];
    simpl; try exact H.
  destruct (register_refused st) eqn:G.
  - now rewrite refused_click.
  - destruct (accepted_click fresh_id fresh_url st h G)
      as (rate & file & R & T & F & N & ->).
    simpl. constructor; [|exact H].
    destruct (liquidation_amounts st A) as [Ga _].
    unfold registered. simpl.
    repeat match goal with |- _ /\ _ => split end;
      try reflexivity; try assumption.
    now apply liquidation_total.
Qed.

Lemma run_keeps_registered (evs : list Event) (st : Calculator.State) (h : History) :
  fields_accepted st = true ->
  Forall registered h ->
  Forall registered (snd (fst (run evs st h))).
Proof.
  revert st h. induction evs as [|ev evs IH]; intros st h A H; simpl; [exact H|].
  pose proof (step_keeps_accepted ev st h A) as A1.
  pose proof (step_keeps_registered ev st h A H) as H1.
  destruct (step ev st h) as [[st1 h1] e1]. simpl in A1, H1.
  specialize (IH st1 h1 A1 H1).
  destruct (run evs st1 h1) as [[st2 h2] e2]. exact IH.
Qed.

(** X2. Whatever happens on the calculator page, every record it puts
    into the store has a gross amount that is an amount (0, a positive
    number or [Infinity], never [NaN]), a commission and a net amount that
    follow from the gross amount, a rate other than 0, a total that is
    net / rate for a rate above 0, and a net amount that is not at or
    below 0. *)
Theorem calculator_registers_consistent_records :
  forall (today : string) (evs : list Event) (h0 : History),
    Forall registered h0 ->
    Forall registered (snd (fst (run evs (initial today) h0))).
Proof.
  intros today evs h0 H. now apply run_keeps_registered.
Qed.

Lemma consistent_records_example :
  Forall registered
    (snd (fst (run [RateSettled (Resolved Examples.rate_750);
                    User (InputChange Nequi "100000");
                    User (FileChange [Examples.receipt]);
                    User (RegisterClick "k" "blob:k")]
                 (initial Examples.today) []))).
Proof.
  apply (calculator_registers_consistent_records Examples.today _ []).
  constructor.
Defined.

(** ** The rate service *)

Lemma first_match_head (text m : string) :
  first_match text = Some m ->
  exists c r, m = String c r /\ is_rate_char c = true.
Proof.
  induction text as [|c r IH]; simpl; [discriminate|].
  destruct (is_rate_char c) eqn:Hc; [|exact IH].
  intros E. injection E as <-. exists c, (rate_run r). auto.
Qed.

Lemma rate_char_cases (c : ascii) :
  is_rate_char c = true -> is_digit c = true \/ c = "."%char.
Proof.
  unfold is_rate_char. intros H. apply orb_true_iff in H.
  destruct H as [H|H]; [now left | right; now apply Ascii.eqb_eq].
Qed.

Lemma unsigned_text_amount (c : ascii) (r : string) :
  is_rate_char c = true ->
  parseFloat (String c r) = NaN \/ amount_like (parseFloat (String c r)) = true.
Proof.
  intros H. apply rate_char_cases in H.
  destruct (digit_is_plain c H) as (Hs & Hm & Hp & _).
  unfold parseFloat. cbn [trimStart]. rewrite Hs.
  assert (R : read_sign (String c r) = (false, String c r)).
  { unfold read_sign.
    destruct c as [[|] [|] [|] [|] [|] [|] [|] [|]]; try reflexivity;
      [now elim Hp | now elim Hm]. }
  rewrite R. apply read_unsigned_amount.
Qed.

Lemma resolved_rate_amount (response : Response) (rate : number) :
  fst (fetchBrlCopRate response) = Resolved rate -> amount_like rate = true.
Proof.
  unfold fetchBrlCopRate. destruct response as [text|]; [|discriminate].
  unfold read_rate. destruct (first_match text) as [m|] eqn:M; [|discriminate].
  destruct (first_match_head text m M) as (c & r & -> & Hc).
  cbn [truthy_str].
  destruct (unsigned_text_amount c r Hc) as [E|E].
  - rewrite E. discriminate.
  - destruct (isNaN (parseFloat (String c r))); simpl; [discriminate|].
    intros H. injection H as <-. exact E.
Qed.

(** X3. Whatever the provider answers, the rate the calculator holds once
    the request has settled is a number that is not below 0 and not
    [NaN]: the rate the service resolved with, or 0 with the message of
    the service error; and the loading flag is off. *)
Theorem settled_rate_never_negative :
  forall (response : Response) (st : Calculator.State),
    let st' := getRate (fst (fetchBrlCopRate response)) st in
    isLoadingRate st' = false
    /\ exists rate,
         brlCopRate st' = Some rate
         /\ amount_like rate = true
         /\ leb pzero rate = true
         /\ isNaN rate = false
         /\ ((fst (fetchBrlCopRate response) = Resolved rate /\ error st' = None)
             \/ (fst (fetchBrlCopRate response) = Thrown fetch_error
                 /\ rate = pzero /\ error st' = Some fetch_error)).
Proof.
  intros response st.
  destruct (fst (fetchBrlCopRate response)) as [rate|message] eqn:E; simpl.
  - split; [reflexivity|]. exists rate.
    pose proof (resolved_rate_amount response rate E) as A.
    repeat split; auto.
    + now apply sign_nonneg, amount_like_sign.
    + destruct rate as [[|]|[|]| |[|] m e]; try discriminate; reflexivity.
  - split; [reflexivity|]. exists pzero.
    pose proof (fetch_throws_one_error response message E) as ->.
    repeat split; auto.
Qed.

Lemma first_match_skips (pre t : string) :
  str_forall (fun c => negb (is_rate_char c)) pre = true ->
  first_match (pre ++ t) = first_match t.
Proof.
  induction pre as [|c pre IH]; simpl; intros H; [reflexivity|].
  apply andb_true_iff in H. destruct H as [Hc H].
  apply negb_true_iff in Hc. rewrite Hc. now apply IH.
Qed.

Lemma rate_run_exact (tok rest : string) :
  str_forall is_rate_char tok = true ->
  match rest with String c _ => is_rate_char c = false | EmptyString => True end ->
  rate_run (tok ++ rest) = tok.
Proof.
  intros Ht Hr. induction tok as [|c tok IH]; simpl.
  - destruct rest as [|c r]; [reflexivity|]. simpl. now rewrite Hr.
  - simpl in Ht. apply andb_true_iff in Ht. destruct Ht as [Hc Ht].
    now rewrite Hc, (IH Ht).
Qed.

(** X4. What stands around the first numeric token plays no part: for an
    answer made of text without digits or points, then a run of digits
    and points, then anything that does not go on with a digit or a point,
    the service gives what it gives for the run alone. *)
Theorem rate_ignores_surrounding_text :
  forall (pre tok rest : string),
    str_forall (fun c => negb (is_rate_char c)) pre = true ->
    tok <> EmptyString ->
    str_forall is_rate_char tok = true ->
    match rest with String c _ => is_rate_char c = false | EmptyString => True end ->
    first_match (pre ++ tok ++ rest) = Some tok
    /\ fetchBrlCopRate (Answered (pre ++ tok ++ rest))
       = fetchBrlCopRate (Answered tok).
Proof.
  intros pre tok rest Hpre Hne Htok Hrest.
  assert (F : forall r,
             match r with String c _ => is_rate_char c = false | EmptyString => True end ->
             first_match (tok ++ r) = Some tok).
  { intros r Hr. destruct tok as [|c tok]; [congruence|].
    pose proof (rate_run_exact (String c tok) r Htok Hr) as E.
    simpl in Htok. apply andb_true_iff in Htok. destruct Htok as [Hc _].
    cbn [append first_match]. rewrite Hc. f_equal. exact E. }
  assert (E1 : first_match (pre ++ tok ++ rest) = Some tok)
    by (rewrite first_match_skips by assumption; now apply F).
  assert (E2 : first_match tok = Some tok)
    by (rewrite <- (str_append_nil tok) at 1; now apply F).
  split; [exact E1|].
  unfold fetchBrlCopRate, read_rate. now rewrite E1, E2.
Qed.

Lemma rate_ignores_example :
  fetchBrlCopRate (Answered "1 BRL = 750.25 COP")
  = fetchBrlCopRate (Answered "1")
  /\ fetchBrlCopRate (Answered "R$ 750.25 pesos")
     = fetchBrlCopRate (Answered "750.25").
Proof.
  split.
  - apply (rate_ignores_surrounding_text "" "1" " BRL = 750.25 COP");
      [reflexivity | discriminate | reflexivity | reflexivity].
  - apply (rate_ignores_surrounding_text "R$ " "750.25" " pesos");
      [reflexivity | discriminate | reflexivity | reflexivity].
Defined.

(** ** The store operations together *)

Lemma update_keeps_ids (u : LiquidationRecord) (h : History) :
  map id (handleUpdateRecord u h) = map id h.
Proof.
  unfold handleUpdateRecord. rewrite map_map. apply map_ext.
  intros r. destruct (String.eqb_spec (id r) (id u)); congruence.
Qed.

Lemma delete_ids (k : string) (h : History) :
  map id (fst (handleDeleteRecord k h))
  = filter (fun i => negb (String.eqb i k)) (map id h).
Proof.
  rewrite delete_filters. induction h as [|r h IH]; simpl; [reflexivity|].
  destruct (String.eqb (id r) k); simpl; now rewrite IH.
Qed.

(** X5. The three store operations keep the ids of the store distinct:
    an update changes no id at all, a deletion takes ids away, and an
    addition puts one id in front, which is new whenever the id it is
    given is not in the store. *)
Theorem store_keeps_ids_distinct :
  forall (h : History) (u : LiquidationRecord) (k fresh_id fresh_url : string)
         (d : NewRecordData),
    NoDup (map id h) ->
    map id (handleUpdateRecord u h) = map id h
    /\ NoDup (map id (handleUpdateRecord u h))
    /\ NoDup (map id (fst (handleDeleteRecord k h)))
    /\ (~ In fresh_id (map id h) ->
        NoDup (map id (fst (handleAddToHistory fresh_id fresh_url d h)))).
Proof.
  intros h u k fresh_id fresh_url d N.
  split; [apply update_keeps_ids|]. split; [now rewrite update_keeps_ids|].
  split.
  - rewrite delete_ids. now apply NoDup_filter.
  - intros F. simpl. now constructor.
Qed.

Lemma store_keeps_ids_example :
  NoDup (map id (handleUpdateRecord
                   (Examples.record_of "b" "2024-03-16" "300000")
                   Examples.store_abc))
  /\ NoDup (map id (fst (handleDeleteRecord "b" Examples.store_abc))).
Proof.
  assert (N : NoDup (map id Examples.store_abc)).
  { repeat constructor; simpl; intuition discriminate. }
  destruct (store_keeps_ids_distinct Examples.store_abc
              (Examples.record_of "b" "2024-03-16" "300000") "b" "k" "blob:k"
              {| new_fecha := ""; new_valorCop := pzero; new_comisionCop := pzero;
                 new_liquidoCop := pzero; new_tasaBrlCop := pzero;
                 new_totalBrl := pzero; new_comprobanteName := "";
                 new_file := Examples.receipt |} N)
    as (_ & H2 & H3 & _).
  split; assumption.
Defined.

Lemma ids_not_in (k : string) (h : History) :
  ~ In k (map id h) -> forall x, In x h -> id x <> k.
Proof. intros H x Hx E. apply H. rewrite <- E. now apply in_map. Qed.

Lemma find_updated (u : LiquidationRecord) (h : History) :
  (exists r, In r h /\ id r = id u) ->
  find (fun r => String.eqb (id r) (id u)) (handleUpdateRecord u h) = Some u.
Proof.
  intros (r & Hr & E). induction h as [|a h IH]; [destruct Hr|].
  simpl. destruct (String.eqb (id a) (id u)) eqn:Ea.
  - now rewrite String.eqb_refl.
  - rewrite Ea. apply IH. destruct Hr as [->|Hr]; [|exact Hr].
    rewrite E, String.eqb_refl in Ea. discriminate.
Qed.

(** X7. After an update with [u], looking the id of [u] up in the store
    finds [u] when the id was there and nothing when it was not; doing the
    update a second time changes nothing; and a deletion of that id after
    the update revokes the URL of [u], not the URL the record had
    before. *)
Theorem update_then_lookup :
  forall (u : LiquidationRecord) (h : History),
    ((exists r, In r h /\ id r = id u) ->
     find (fun r => String.eqb (id r) (id u)) (handleUpdateRecord u h) = Some u
     /\ snd (handleDeleteRecord (id u) (handleUpdateRecord u h))
        = [RevokeObjectURL (comprobanteUrl u)])
    /\ ((forall r, In r h -> id r <> id u) ->
        find (fun r => String.eqb (id r) (id u)) (handleUpdateRecord u h) = None)
    /\ handleUpdateRecord u (handleUpdateRecord u h) = handleUpdateRecord u h
    /\ fst (handleDeleteRecord (id u) (handleUpdateRecord u h))
       = fst (handleDeleteRecord (id u) h).
Proof.
  intros u h. split; [|split; [|split]].
  - intros H. pose proof (find_updated u h H) as F. split; [exact F|].
    unfold handleDeleteRecord. cbn [snd]. now rewrite F.
  - intros H. apply find_none_of. intros x Hx.
    unfold handleUpdateRecord in Hx. apply in_map_iff in Hx.
    destruct Hx as (r & <- & Hr).
    destruct (String.eqb_spec (id r) (id u)) as [E|E].
    + now elim (H r Hr).
    + now apply String.eqb_neq.
  - unfold handleUpdateRecord. rewrite map_map. apply map_ext. intros r.
    destruct (String.eqb (id r) (id u)) eqn:E.
    + now rewrite String.eqb_refl.
    + now rewrite E.
  - rewrite !delete_filters. unfold handleUpdateRecord.
    induction h as [|r h IH]; simpl; [reflexivity|].
    destruct (String.eqb (id r) (id u)) eqn:E; simpl.
    + rewrite String.eqb_refl. simpl. exact IH.
    + rewrite E. simpl. now rewrite IH.
Qed.

Lemma update_then_lookup_example :
  find (fun r => String.eqb (id r) "b")
    (handleUpdateRecord (Examples.record_of "b" "2024-03-16" "300000")
       Examples.store_abc)
  = Some (Examples.record_of "b" "2024-03-16" "300000")
  /\ find (fun r => String.eqb (id r) "z")
       (handleUpdateRecord (Examples.record_of "z" "2024-03-16" "300000")
          Examples.store_abc)
     = None.
Proof.
  destruct (update_then_lookup (Examples.record_of "b" "2024-03-16" "300000")
              Examples.store_abc) as (H1 & _).
  destruct (update_then_lookup (Examples.record_of "z" "2024-03-16" "300000")
              Examples.store_abc) as (_ & H2 & _).
  split.
  - apply H1. exists Examples.record_b. split; [right; left; reflexivity | reflexivity].
  - apply H2. intros r [<-|[<-|[<-|[]]]]; discriminate.
Defined.

(** ** The URLs of the proof files *)

Lemma revocations_count (url : string) (es : list effect) :
  revocations url es = count_occ string_dec (revoked_urls es) url.
Proof.
  induction es as [|e es IH]; simpl; [reflexivity|].
  destruct e; simpl; try exact IH.
  rewrite IH. destruct (string_dec url0 url) as [->|N].
  - now rewrite String.eqb_refl.
  - apply String.eqb_neq in N. now rewrite N.
Qed.

Lemma revoked_urls_app (a b : list effect) :
  revoked_urls (a ++ b) = revoked_urls a ++ revoked_urls b.
Proof.
  induction a as [|e a IH]; simpl; [reflexivity|].
  destruct e; simpl; now rewrite IH.
Qed.

Lemma created_urls_app (a b : list effect) :
  created_urls (a ++ b) = created_urls a ++ created_urls b.
Proof.
  induction a as [|e a IH]; simpl; [reflexivity|].
  destruct e; simpl; now rewrite IH.
Qed.

Lemma cleanup_revokes (h : History) :
  revoked_urls (Lifecycle.cleanup h) = map comprobanteUrl h
  /\ created_urls (Lifecycle.cleanup h) = [].
Proof.
  induction h as [|r h [IH1 IH2]]; simpl; [auto|]. now rewrite IH1, IH2.
Qed.

Lemma count_once {A} (dec : forall x y : A, {x = y} + {x <> y}) (l : list A) (x : A) :
  NoDup l -> In x l -> count_occ dec l x = 1%nat.
Proof.
  intros N I. apply NoDup_count_occ' with (decA := dec) in I; assumption.
Qed.

Lemma count_occ_absent (l : list string) (x : string) :
  ~ In x l -> count_occ string_dec l x = 0%nat.
Proof. apply count_occ_not_In. Qed.

(** X8. The function the effect of [App] registers for a list revokes the
    URL of every record of that list, once each when the URLs are
    distinct, and nothing else.  When it runs for the list a deletion
    started from, the URL of the deleted record is revoked a second time,
    and the URL of every record that stays in the store is revoked
    too. *)
Theorem cleanup_revokes_every_url :
  forall (h l1 l2 : History) (r : LiquidationRecord) (k : string),
    NoDup (map comprobanteUrl h) ->
    h = l1 ++ r :: l2 ->
    id r = k ->
    (forall x, In x (l1 ++ l2) -> id x <> k) ->
    revoked_urls (Lifecycle.cleanup h) = map comprobanteUrl h
    /\ (forall x, In x h ->
          revocations (comprobanteUrl x) (Lifecycle.cleanup h) = 1%nat)
    /\ revocations (comprobanteUrl r)
         (snd (handleDeleteRecord k h) ++ Lifecycle.cleanup h) = 2%nat
    /\ (forall x, In x (fst (handleDeleteRecord k h)) ->
          revocations (comprobanteUrl x)
            (snd (handleDeleteRecord k h) ++ Lifecycle.cleanup h) = 1%nat).
Proof.
  intros h l1 l2 r k N Eh Er Hother.
  destruct (cleanup_revokes h) as [C _].
  assert (Once : forall x, In x h ->
            count_occ string_dec (map comprobanteUrl h) (comprobanteUrl x) = 1%nat).
  { intros x Hx. apply count_once; [exact N | now apply in_map]. }
  assert (D : snd (handleDeleteRecord k h) = [RevokeObjectURL (comprobanteUrl r)]).
  { subst h. unfold handleDeleteRecord. cbn [snd].
    rewrite find_past_prefix.
    - simpl. now rewrite Er, String.eqb_refl.
    - intros x Hx. apply id_differs, Hother, in_or_app. now left. }
  assert (Rin : In r h) by (subst h; apply in_or_app; right; now left).
  split; [exact C|]. split; [|split].
  - intros x Hx. rewrite revocations_count, C. now apply Once.
  - rewrite revocations_count, revoked_urls_app, D, C. simpl.
    destruct (string_dec (comprobanteUrl r) (comprobanteUrl r)); [|congruence].
    now rewrite Once.
  - intros x Hx. rewrite delete_filters in Hx. apply filter_In in Hx.
    destruct Hx as [Hx Hk].
    rewrite revocations_count, revoked_urls_app, D, C. simpl.
    destruct (string_dec (comprobanteUrl r) (comprobanteUrl x)) as [E|E].
    + exfalso. (* distinct URLs: x would be r *)
      assert (x = r).
      { clear - N E Hx Rin. induction h as [|a h IH]; [destruct Hx|].
        simpl in N. inversion N as [|? ? Hn N']; subst.
        destruct Hx as [->|Hx], Rin as [->|Hr]; auto.
        - elim Hn. rewrite <- E. now apply in_map.
        - elim Hn. rewrite E. now apply in_map. }
      subst x. rewrite Er, String.eqb_refl in Hk. discriminate.
    + now apply Once.
Qed.

Lemma cleanup_example :
  revocations "blob:b"
    (snd (handleDeleteRecord "b" Examples.store_abc)
     ++ Lifecycle.cleanup Examples.store_abc) = 2%nat
  /\ revocations "blob:a"
       (snd (handleDeleteRecord "b" Examples.store_abc)
        ++ Lifecycle.cleanup Examples.store_abc) = 1%nat.
Proof.
  destruct (cleanup_revokes_every_url Examples.store_abc
              [Examples.record_a] [Examples.record_c] Examples.record_b "b")
    as (_ & _ & H3 & H4).
  - repeat constructor; simpl; intuition discriminate.
  - reflexivity.
  - reflexivity.
  - intros x [<-|[<-|[]]]; discriminate.
  - split; [exact H3|]. apply (H4 Examples.record_a). left. reflexivity.
Defined.

(** X6. Deleting the id of a record that was just added, an id the store
    did not hold, gives back the records of the store as they were before
    the addition.  One URL is created over the two operations.  The
    deletion revokes it twice, once in the handler and once in the
    function the effect of [App] runs when the list changes; and that
    function revokes the URL of every record the store held before, after
    the addition and again after the deletion, though these records
    stay. *)
Theorem delete_undoes_add :
  forall (fresh_id fresh_url : string) (d : NewRecordData) (h : History),
    ~ In fresh_id (map id h) ->
    let added := Lifecycle.addToHistory fresh_id fresh_url d h in
    let deleted := Lifecycle.deleteRecord fresh_id (fst added) in
    fst deleted = h
    /\ created_urls (snd added ++ snd deleted) = [fresh_url]
    /\ revoked_urls (snd added) = map comprobanteUrl h
    /\ revoked_urls (snd deleted)
       = fresh_url :: fresh_url :: map comprobanteUrl h
    /\ (~ In fresh_url (map comprobanteUrl h) ->
        revocations fresh_url (snd added ++ snd deleted) = 2%nat).
Proof.
  intros fresh_id fresh_url d h F added deleted.
  assert (A : exists r,
             handleAddToHistory fresh_id fresh_url d h
             = (r :: h, [CreateObjectURL fresh_url; Alert registered_message])
             /\ id r = fresh_id /\ comprobanteUrl r = fresh_url)
    by (eexists; split; [reflexivity | split; reflexivity]).
  destruct A as (r & A & Hid & Hurl).
  assert (Ea : added = (r :: h,
                        [CreateObjectURL fresh_url; Alert registered_message]
                        ++ Lifecycle.cleanup h)).
  { subst added. unfold Lifecycle.addToHistory. now rewrite A. }
  assert (D : handleDeleteRecord fresh_id (r :: h)
              = (h, [RevokeObjectURL fresh_url])).
  { unfold handleDeleteRecord. simpl. rewrite Hid, String.eqb_refl. simpl.
    rewrite filter_other_ids by now apply ids_not_in.
    now rewrite Hurl. }
  assert (Ed : deleted = (h, [RevokeObjectURL fresh_url]
                             ++ Lifecycle.cleanup (r :: h))).
  { subst deleted. rewrite Ea. cbn [fst]. unfold Lifecycle.deleteRecord.
    now rewrite D. }
  destruct (cleanup_revokes h) as [Ch Ch'].
  rewrite Ea, Ed. cbn [fst snd app Lifecycle.cleanup map].
  rewrite Hurl. fold (Lifecycle.cleanup h).
  split; [reflexivity|]. split; [|split; [|split]].
  - cbn [created_urls]. rewrite created_urls_app, Ch'. cbn [created_urls app].
    now rewrite Ch'.
  - cbn [revoked_urls]. exact Ch.
  - cbn [revoked_urls]. now rewrite Ch.
  - intros Hnew. rewrite revocations_count. cbn [revoked_urls].
    rewrite revoked_urls_app, Ch. cbn [revoked_urls]. rewrite Ch.
    rewrite count_occ_app. cbn [count_occ].
    destruct (string_dec fresh_url fresh_url) as [_|N]; [|congruence].
    now rewrite !count_occ_absent by exact Hnew.
Qed.

Lemma delete_undoes_add_example :
  fst (Lifecycle.deleteRecord "k"
         (fst (Lifecycle.addToHistory "k" "blob:k"
                 {| new_fecha := "2024-05-17"; new_valorCop := pzero;
                    new_comisionCop := pzero; new_liquidoCop := pzero;
                    new_tasaBrlCop := pzero; new_totalBrl := pzero;
                    new_comprobanteName := "recibo.pdf";
                    new_file := Examples.receipt |} Examples.store_abc)))
  = Examples.store_abc
  /\ revoked_urls
       (snd (Lifecycle.deleteRecord "k"
               (fst (Lifecycle.addToHistory "k" "blob:k"
                       {| new_fecha := "2024-05-17"; new_valorCop := pzero;
                          new_comisionCop := pzero; new_liquidoCop := pzero;
                          new_tasaBrlCop := pzero; new_totalBrl := pzero;
                          new_comprobanteName := "recibo.pdf";
                          new_file := Examples.receipt |} Examples.store_abc))))
     = ["blob:k"; "blob:k"; "blob:a"; "blob:b"; "blob:c"].
Proof.
  destruct (delete_undoes_add "k" "blob:k"
              {| new_fecha := "2024-05-17"; new_valorCop := pzero;
                 new_comisionCop := pzero; new_liquidoCop := pzero;
                 new_tasaBrlCop := pzero; new_totalBrl := pzero;
                 new_comprobanteName := "recibo.pdf";
                 new_file := Examples.receipt |} Examples.store_abc)
    as (H1 & _ & _ & H4 & _).
  - simpl. intuition discriminate.
  - split; [exact H1 | exact H4].
Defined.

(** ** The edit dialog *)

Lemma handleChange_keeps (name : EditModal.InputName) (value : string)
    (prev : LiquidationRecord) :
  id (EditModal.handleChange name value prev) = id prev
  /\ comprobanteUrl (EditModal.handleChange name value prev) = comprobanteUrl prev
  /\ comprobanteName (EditModal.handleChange name value prev) = comprobanteName prev.
Proof. repeat split. Qed.

Lemma removelast_one_more {A} (l l' : list A) :
  l' <> [] -> removelast (l ++ l') = l ++ removelast l'.
Proof. intros H. now apply removelast_app. Qed.

Lemma last_any_default {A} (l : list A) (x d d' : A) :
  last (x :: l) d = last (x :: l) d'.
Proof.
  revert x. induction l as [|y l IH]; intros x; [reflexivity|].
  change (last (y :: l) d = last (y :: l) d'). apply IH.
Qed.

(** What a run of the dialog does with the URLs. *)
Lemma dialog_run_urls (evs : list EditDialog.Event) (st : EditDialog.State) :
  let cur s := match EditDialog.newFile s with
               | Some (_, u) => [u] | None => [] end in
  created_urls (snd (EditDialog.run evs st)) = picked_urls evs
  /\ revoked_urls (snd (EditDialog.run evs st))
     = removelast (cur st ++ picked_urls evs)
  /\ cur (fst (EditDialog.run evs st))
     = match picked_urls evs with
       | [] => cur st
       | _ => [last (picked_urls evs) EmptyString]
       end
  /\ comprobanteUrl (EditDialog.formData (fst (EditDialog.run evs st)))
     = last (picked_urls evs) (comprobanteUrl (EditDialog.formData st))
  /\ id (EditDialog.formData (fst (EditDialog.run evs st)))
     = id (EditDialog.formData st).
Proof.
  intros cur.
  assert (Cur : forall s, revoked_urls
                  (match EditDialog.newFile s with
                   | Some (_, url) => [RevokeObjectURL url]
                   | None => []
                   end) = cur s).
  { intros s. subst cur. simpl.
    destruct (EditDialog.newFile s) as [[f v]|]; reflexivity. }
  assert (Small : forall s, removelast (cur s) = []).
  { intros s. subst cur. simpl.
    destruct (EditDialog.newFile s) as [[f v]|]; reflexivity. }
  revert st. induction evs as [|ev evs IH]; intros st.
  - simpl. rewrite app_nil_r, Small. repeat split.
  - cbn [EditDialog.run].
    destruct ev as [name value|[|file files] u];
      cbn [EditDialog.step EditDialog.handleFileChange picked_urls].
    + specialize (IH (EditDialog.handleChange name value st)).
      destruct (EditDialog.run evs (EditDialog.handleChange name value st))
        as [st2 e2]. cbn [fst snd app] in *. exact IH.
    + specialize (IH st).
      destruct (EditDialog.run evs st) as [st2 e2]. cbn [fst snd app] in *.
      exact IH.
    + match goal with
      | |- context [EditDialog.run evs ?s] => set (st1 := s)
      end.
      specialize (IH st1). destruct IH as (I1 & I2 & I3 & I4 & I5).
      destruct (EditDialog.run evs st1) as [st2 e2]. cbn [fst snd] in *.
      change (cur st1) with [u] in I2, I3.
      change (comprobanteUrl (EditDialog.formData st1)) with u in I4.
      change (id (EditDialog.formData st1)) with (id (EditDialog.formData st)) in I5.
      rewrite created_urls_app, revoked_urls_app.
      cbn [created_urls revoked_urls app].
      assert (C0 : created_urls
                     (match EditDialog.newFile st with
                      | Some (_, url) => [RevokeObjectURL url]
                      | None => []
                      end) = [])
        by (destruct (EditDialog.newFile st) as [[f v]|]; reflexivity).
      rewrite C0, Cur, I1, I2, I3, I4, I5. cbn [app].
      split; [reflexivity|]. split; [|split; [|split]].
      * now rewrite removelast_one_more by discriminate.
      * destruct (picked_urls evs) as [|v vs]; reflexivity.
      * destruct (picked_urls evs) as [|v vs]; [reflexivity|].
        change (last (v :: vs) u
                = last (v :: vs) (comprobanteUrl (EditDialog.formData st))).
        apply last_any_default.
      * reflexivity.
Qed.

Lemma opened_dialog (record : LiquidationRecord) :
  EditDialog.newFile (EditDialog.opened record) = None
  /\ comprobanteUrl (EditDialog.formData (EditDialog.opened record))
     = comprobanteUrl record
  /\ id (EditDialog.formData (EditDialog.opened record)) = id record.
Proof. repeat split. Qed.

Lemma nodup_last_split (l : list string) (x d : string) :
  NoDup (x :: l) ->
  ~ In (last (x :: l) d) (removelast (x :: l))
  /\ NoDup (removelast (x :: l))
  /\ (forall v, In v (x :: l) -> v <> last (x :: l) d ->
        In v (removelast (x :: l))).
Proof.
  intros N.
  assert (E : x :: l = removelast (x :: l) ++ [last (x :: l) d])
    by (apply app_removelast_last; discriminate).
  rewrite E in N at 1. apply NoDup_remove in N. rewrite app_nil_r in N.
  destruct N as [N1 N2]. split; [exact N2|]. split; [exact N1|].
  intros v Hv Hne. rewrite E in Hv. apply in_app_or in Hv.
  destruct Hv as [Hv|[Hv|[]]]; [exact Hv | congruence].
Qed.

Lemma nodup_app_parts {A} (a b : list A) :
  NoDup (a ++ b) ->
  NoDup a /\ NoDup b /\ (forall x, In x a -> ~ In x b).
Proof.
  induction a as [|x a IH]; simpl; intros N.
  - repeat split; [constructor | exact N | intros x []].
  - inversion N as [|? ? Hx N']; subst. destruct (IH N') as (Na & Nb & D).
    split; [|split; [exact Nb|]].
    + constructor; [|exact Na]. intros H. apply Hx, in_or_app. now left.
    + intros y [<-|Hy]; [|now apply D].
      intros H. apply Hx, in_or_app. now right.
Qed.

Lemma in_removelast {A} (l : list A) (x : A) :
  In x (removelast l) -> In x l.
Proof.
  destruct l as [|a l]; [intros []|]. intros H.
  rewrite (app_removelast_last a (l := a :: l)) by discriminate.
  apply in_or_app. now left.
Qed.

(** X9. A session of the edit dialog that ends with a save.  The URLs
    created are those of the files picked, in order.  The dialog revokes
    the URLs of all picks but the last and then, when a file was picked,
    the URL the record had; after that the update of the store makes the
    effect of [App] revoke the URL of every record of the store as it was
    before the save.  The record handed to the store carries the id of
    the record the dialog was opened on and the URL of the last pick, its
    own URL when no file was picked.  So, for a record of the store and
    distinct URLs: with a pick, the URL the saved record carries is not
    revoked, every other URL created in the dialog is revoked once and
    the URL the record had twice; with no pick, the URL the record keeps
    is revoked once; and in both cases the URL of every other record of
    the store is revoked once, though the record stays. *)
Theorem edit_save_releases_replaced_urls :
  forall (record : LiquidationRecord) (evs : list EditDialog.Event)
         (st : HistoryPage.State) (history : History),
    let result := HistoryHandlers.edit_and_save record evs st history in
    let es := snd result in
    created_urls es = picked_urls evs
    /\ revoked_urls es
       = match picked_urls evs with
         | [] => []
         | _ => removelast (picked_urls evs) ++ [comprobanteUrl record]
         end ++ map comprobanteUrl history
    /\ editingRecord (fst (fst result)) = None
    /\ (exists u,
          snd (fst result) = handleUpdateRecord u history
          /\ id u = id record
          /\ comprobanteUrl u = last (picked_urls evs) (comprobanteUrl record)
          /\ (NoDup (map comprobanteUrl history ++ picked_urls evs) ->
              In record history ->
              (forall x, In x history ->
                 comprobanteUrl x <> comprobanteUrl record ->
                 revocations (comprobanteUrl x) es = 1%nat)
              /\ (picked_urls evs = [] ->
                  comprobanteUrl u = comprobanteUrl record
                  /\ revocations (comprobanteUrl u) es = 1%nat)
              /\ (picked_urls evs <> [] ->
                  revocations (comprobanteUrl u) es = 0%nat
                  /\ revocations (comprobanteUrl record) es = 2%nat
                  /\ (forall v, In v (picked_urls evs) ->
                        v <> comprobanteUrl u ->
                        revocations v es = 1%nat)))).
Proof.
  intros record evs st history result es. subst es result.
  unfold HistoryHandlers.edit_and_save.
  pose proof (dialog_run_urls evs (EditDialog.opened record)) as I.
  cbv zeta in I. destruct I as (I1 & I2 & I3 & I4 & I5).
  destruct (EditDialog.run evs (EditDialog.opened record)) as [dialog e1].
  cbn [fst snd] in *.
  destruct (opened_dialog record) as (O1 & O2 & O3).
  rewrite O1 in I2, I3. rewrite O2 in I4. rewrite O3 in I5. cbn [app] in I2.
  unfold EditDialog.handleSave, HistoryHandlers.handleSaveEdit,
    Lifecycle.updateRecord.
  cbn [fst snd].
  destruct (cleanup_revokes history) as [C C'].
  assert (R : revoked_urls
                (e1 ++ match EditDialog.newFile dialog with
                       | Some _ => [RevokeObjectURL (comprobanteUrl record)]
                       | None => []
                       end ++ Lifecycle.cleanup history)
              = match picked_urls evs with
                | [] => []
                | _ => removelast (picked_urls evs) ++ [comprobanteUrl record]
                end ++ map comprobanteUrl history).
  { rewrite !revoked_urls_app, I2, C.
    destruct (picked_urls evs) as [|v vs].
    - destruct (EditDialog.newFile dialog) as [[f u]|]; [discriminate|].
      reflexivity.
    - destruct (EditDialog.newFile dialog) as [[f u]|]; [|discriminate].
      cbn [revoked_urls]. now rewrite <- app_assoc. }
  split; [|split; [exact R|split; [reflexivity|]]].
  - rewrite !created_urls_app, I1, C'.
    destruct (EditDialog.newFile dialog); simpl; apply app_nil_r.
  - exists (EditDialog.formData dialog).
    split; [reflexivity|]. split; [exact I5|]. split; [exact I4|].
    intros N Hin.
    destruct (nodup_app_parts _ _ N) as (Nh & Np & Disj).
    assert (Rin : In (comprobanteUrl record) (map comprobanteUrl history))
      by now apply in_map.
    assert (Rnot : ~ In (comprobanteUrl record) (picked_urls evs))
      by now apply Disj.
    assert (Once : forall w, In w (map comprobanteUrl history) ->
              count_occ string_dec (map comprobanteUrl history) w = 1%nat)
      by (intros w Hw; now apply count_once).
    split; [|split].
    + intros x Hx Hne. rewrite revocations_count, R, count_occ_app.
      rewrite Once by now apply in_map.
      assert (Xnot : ~ In (comprobanteUrl x) (picked_urls evs))
        by (apply Disj; now apply in_map).
      destruct (picked_urls evs) as [|v vs]; [reflexivity|].
      rewrite count_occ_app. cbn [count_occ].
      rewrite count_occ_absent
        by (intros H; apply Xnot; now apply in_removelast).
      destruct (string_dec (comprobanteUrl record) (comprobanteUrl x));
        [congruence | reflexivity].
    + intros E. rewrite E in I4. cbn [last] in I4.
      split; [exact I4|].
      rewrite revocations_count, R, I4, E. cbn [app].
      now apply Once.
    + intros Hne. rewrite !revocations_count, R, I4.
      destruct (picked_urls evs) as [|v vs]; [congruence|].
      destruct (nodup_last_split vs v (comprobanteUrl record) Np)
        as (L1 & L2 & L3).
      assert (Lin : In (last (v :: vs) (comprobanteUrl record)) (v :: vs)).
      { rewrite (app_removelast_last (comprobanteUrl record) (l := v :: vs)) at 2
          by discriminate.
        apply in_or_app. right. now left. }
      assert (Pout : forall w, In w (v :: vs) ->
                count_occ string_dec (map comprobanteUrl history) w = 0%nat).
      { intros w Hw. apply count_occ_absent. intros H.
        now apply (Disj w H). }
      rewrite !count_occ_app. cbn [count_occ].
      split; [|split].
      * rewrite count_occ_absent by exact L1.
        rewrite Pout by exact Lin.
        destruct (string_dec (comprobanteUrl record)
                    (last (v :: vs) (comprobanteUrl record))) as [E|E];
          [|reflexivity].
        elim Rnot. rewrite E. exact Lin.
      * rewrite count_occ_absent
          by (intros H; apply Rnot; now apply in_removelast).
        rewrite Once by exact Rin.
        destruct (string_dec (comprobanteUrl record) (comprobanteUrl record));
          [reflexivity | congruence].
      * intros w Hw Hne'.
        rewrite revocations_count, R, !count_occ_app. cbn [count_occ].
        rewrite (count_once string_dec) by auto.
        rewrite Pout by exact Hw.
        destruct (string_dec (comprobanteUrl record) w) as [E|E];
          [|reflexivity].
        elim Rnot. now rewrite E.
Qed.

Lemma edit_save_example :
  exists u,
    snd (fst (HistoryHandlers.edit_and_save Examples.record_b Samples.two_picks
                (Examples.range_page "" "") Examples.store_abc))
    = handleUpdateRecord u Examples.store_abc
    /\ comprobanteUrl u = "blob:n2"
    /\ revocations "blob:n2"
         (snd (HistoryHandlers.edit_and_save Examples.record_b Samples.two_picks
                 (Examples.range_page "" "") Examples.store_abc)) = 0%nat
    /\ revocations "blob:b"
         (snd (HistoryHandlers.edit_and_save Examples.record_b Samples.two_picks
                 (Examples.range_page "" "") Examples.store_abc)) = 2%nat
    /\ revocations "blob:n1"
         (snd (HistoryHandlers.edit_and_save Examples.record_b Samples.two_picks
                 (Examples.range_page "" "") Examples.store_abc)) = 1%nat
    /\ revocations "blob:a"
         (snd (HistoryHandlers.edit_and_save Examples.record_b Samples.two_picks
                 (Examples.range_page "" "") Examples.store_abc)) = 1%nat.
Proof.
  destruct (edit_save_releases_replaced_urls Examples.record_b Samples.two_picks
              (Examples.range_page "" "") Examples.store_abc)
    as (_ & _ & _ & u & E & _ & U & C).
  assert (U' : comprobanteUrl u = "blob:n2") by exact U.
  destruct C as (C0 & _ & C).
  - repeat constructor; simpl; intuition discriminate.
  - right. left. reflexivity.
  - destruct C as (C1 & C2 & C3); [discriminate|].
    exists u. split; [exact E|]. split; [exact U'|].
    rewrite <- U' at 1. split; [exact C1|]. split; [exact C2|].
    split.
    + apply C3; [left; reflexivity|]. rewrite U'. discriminate.
    + apply (C0 Examples.record_a); [left; reflexivity | discriminate].
Defined.

(** X10. A session of the edit dialog that ends with a cancel leaves the
    store as it is, revokes every URL the picks created, in the order of
    their creation, and nothing else: once each when they are distinct,
    and never the URL of the record itself unless a pick was given that
    very URL. *)
Theorem edit_cancel_releases_all_picks :
  forall (record : LiquidationRecord) (evs : list EditDialog.Event)
         (st : HistoryPage.State) (history : History),
    let result := HistoryHandlers.edit_and_cancel record evs st history in
    snd (fst result) = history
    /\ editingRecord (fst (fst result)) = None
    /\ created_urls (snd result) = picked_urls evs
    /\ revoked_urls (snd result) = picked_urls evs
    /\ (NoDup (comprobanteUrl record :: picked_urls evs) ->
        revocations (comprobanteUrl record) (snd result) = 0%nat
        /\ forall v, In v (picked_urls evs) ->
             revocations v (snd result) = 1%nat).
Proof.
  intros record evs st history result. subst result.
  unfold HistoryHandlers.edit_and_cancel.
  pose proof (dialog_run_urls evs (EditDialog.opened record)) as I.
  cbv zeta in I. destruct I as (I1 & I2 & I3 & _ & _).
  destruct (EditDialog.run evs (EditDialog.opened record)) as [dialog e1].
  cbn [fst snd] in *.
  destruct (opened_dialog record) as (O1 & _ & _).
  rewrite O1 in I2, I3. cbn [app] in I2.
  assert (R : revoked_urls (e1 ++ EditDialog.handleCancel dialog)
              = picked_urls evs).
  { rewrite revoked_urls_app, I2. unfold EditDialog.handleCancel.
    destruct (picked_urls evs) as [|v vs].
    - destruct (EditDialog.newFile dialog) as [[f u]|]; [discriminate|].
      reflexivity.
    - destruct (EditDialog.newFile dialog) as [[f u]|]; [|discriminate].
      assert (Eu : u = last (v :: vs) EmptyString) by (injection I3; auto).
      rewrite Eu. cbn [revoked_urls].
      symmetry. apply app_removelast_last. discriminate. }
  split; [reflexivity|]. split; [reflexivity|]. split; [|split; [exact R|]].
  - rewrite created_urls_app, I1. unfold EditDialog.handleCancel.
    destruct (EditDialog.newFile dialog) as [[f u]|]; simpl; apply app_nil_r.
  - intros N. inversion N as [|? ? Nrec Npick]; subst.
    split.
    + rewrite revocations_count, R. now apply count_occ_absent.
    + intros v Hv. rewrite revocations_count, R. now apply count_once.
Qed.

Lemma edit_cancel_example :
  revocations "blob:b"
    (snd (HistoryHandlers.edit_and_cancel Examples.record_b Samples.two_picks
            (Examples.range_page "" "") Examples.store_abc)) = 0%nat
  /\ revocations "blob:n2"
       (snd (HistoryHandlers.edit_and_cancel Examples.record_b Samples.two_picks
               (Examples.range_page "" "") Examples.store_abc)) = 1%nat.
Proof.
  destruct (edit_cancel_releases_all_picks Examples.record_b Samples.two_picks
              (Examples.range_page "" "") Examples.store_abc)
    as (_ & _ & _ & _ & C).
  destruct C as (C1 & C2).
  - repeat constructor; simpl; intuition discriminate.
  - split; [exact C1|]. apply C2. right. left. reflexivity.
Defined.

Lemma or_zero_of_amount (x : number) : amount_like x = true -> or_zero x = x.
Proof.
  intros H. destruct (amount_like_cases x H) as [->|[->|(m & e & -> & _)]];
    reflexivity.
Qed.

Lemma or_zero_of_truthy (x : number) : truthy x = true -> or_zero x = x.
Proof. intros H. unfold or_zero. now rewrite H. Qed.

Lemma recompute_registered (r : LiquidationRecord) :
  registered r -> EditModal.recompute r = r.
Proof.
  intros (A & C & L & T & Tot & _). unfold EditModal.recompute.
  rewrite (or_zero_of_amount _ A), (or_zero_of_truthy _ T).
  rewrite <- C, <- L, <- Tot. destruct r; reflexivity.
Qed.

(** X11. Opening the edit dialog on a record the calculator registered
    and saving without touching anything hands the store the record the
    dialog was opened on, the recomputation on opening giving the
    record's own commission, net amount and total, and the records of
    the store stay as they were when no other record carries the id.
    The dialog creates and revokes nothing; but the update stores a new
    list, so the effect of [App] revokes the URL of every record of the
    store, none of which has left it. *)
Theorem save_without_change_keeps_records :
  forall (r : LiquidationRecord) (st : HistoryPage.State) (history : History),
    registered r ->
    (forall x, In x history -> id x = id r -> x = r) ->
    EditDialog.formData (EditDialog.opened r) = r
    /\ HistoryHandlers.edit_and_save r [] st history
       = ({| editingRecord := None;
             startDate := startDate st; endDate := endDate st |},
          history, Lifecycle.cleanup history)
    /\ revoked_urls (snd (HistoryHandlers.edit_and_save r [] st history))
       = map comprobanteUrl history
    /\ created_urls (snd (HistoryHandlers.edit_and_save r [] st history)) = [].
Proof.
  intros r st history R U.
  assert (E : EditDialog.formData (EditDialog.opened r) = r)
    by (now apply recompute_registered).
  assert (S : HistoryHandlers.edit_and_save r [] st history
              = ({| editingRecord := None;
                    startDate := startDate st; endDate := endDate st |},
                 history, Lifecycle.cleanup history)).
  { unfold HistoryHandlers.edit_and_save. cbn [EditDialog.run].
    unfold EditDialog.handleSave, HistoryHandlers.handleSaveEdit,
      Lifecycle.updateRecord.
    rewrite E. cbn [EditDialog.newFile EditDialog.opened app snd].
    f_equal. f_equal. unfold handleUpdateRecord.
    rewrite <- (map_id history) at 2. apply map_ext_in. intros x Hx.
    destruct (String.eqb_spec (id x) (id r)) as [I|I]; [|reflexivity].
    symmetry. now apply U. }
  split; [exact E|]. split; [exact S|].
  rewrite S. cbn [snd]. apply cleanup_revokes.
Qed.

Lemma save_without_change_example :
  HistoryHandlers.edit_and_save Examples.record_b []
    (Examples.range_page "" "") Examples.store_abc
  = (Examples.range_page "" "", Examples.store_abc,
     [RevokeObjectURL "blob:a"; RevokeObjectURL "blob:b";
      RevokeObjectURL "blob:c"]).
Proof.
  apply (save_without_change_keeps_records Examples.record_b
           (Examples.range_page "" "") Examples.store_abc).
  - vm_compute. repeat split.
  - intros x [<-|[<-|[<-|[]]]]; intros H; try reflexivity; discriminate.
Defined.

(** X12. In the edit dialog, a text that does not read as a number in the
    amount input makes the amount, the commission, the net amount and the
    total 0; a text in the rate input that does not read as a number
    above 0 makes the total 0.  No change of an input touches the id, the
    URL or the proof name, and the amount and the rate the dialog holds
    after a change of their input are never [NaN]. *)
Theorem dialog_inputs_coerce_to_zero :
  forall (name : EditModal.InputName) (value : string) (prev : LiquidationRecord),
    let e := EditModal.handleChange name value prev in
    id e = id prev
    /\ comprobanteUrl e = comprobanteUrl prev
    /\ comprobanteName e = comprobanteName prev
    /\ (name = EditModal.valorCop_input ->
        isNaN (valorCop e) = false
        /\ comisionCop e = mul (valorCop e) tenth
        /\ liquidoCop e = sub (valorCop e) (comisionCop e))
    /\ (name = EditModal.valorCop_input -> isNaN (parseFloat value) = true ->
        valorCop e = pzero /\ comisionCop e = pzero
        /\ liquidoCop e = pzero /\ totalBrl e = pzero)
    /\ (name = EditModal.tasaBrlCop_input ->
        isNaN (tasaBrlCop e) = false
        /\ (gtb (parseFloat value) pzero = false -> totalBrl e = pzero)
        /\ (gtb (parseFloat value) pzero = true ->
            tasaBrlCop e = parseFloat value
            /\ totalBrl e = div (liquidoCop e) (parseFloat value))).
Proof.
  intros name value prev e. subst e.
  assert (Idem : forall x, or_zero (or_zero x) = or_zero x)
    by (intros [[|]|[|]| |s m ex]; reflexivity).
  assert (NotNaN : forall x, isNaN (or_zero x) = false)
    by (intros [[|]|[|]| |s m ex]; reflexivity).
  split; [reflexivity|]. split; [reflexivity|]. split; [reflexivity|].
  split; [|split].
  - intros ->. unfold EditModal.handleChange, EditModal.recompute.
    cbn [valorCop comisionCop liquidoCop]. rewrite Idem.
    repeat split. apply NotNaN.
  - intros -> Hn. unfold EditModal.handleChange, EditModal.recompute.
    cbn [valorCop comisionCop liquidoCop totalBrl tasaBrlCop].
    destruct (parseFloat value); try discriminate.
    rewrite tenth_eq. cbn.
    repeat split.
    destruct (or_zero (tasaBrlCop prev)) as [[|]|[|]| |[|] m ex]; reflexivity.
  - intros ->. unfold EditModal.handleChange, EditModal.recompute.
    cbn [valorCop comisionCop liquidoCop totalBrl tasaBrlCop]. rewrite Idem.
    split; [apply NotNaN|]. split.
    + intros G.
      assert (G' : gtb (or_zero (parseFloat value)) pzero = false)
        by (destruct (parseFloat value) as [[|]|[|]| |[|] m ex];
            try discriminate; reflexivity).
      now rewrite G'.
    + intros G. rewrite (or_zero_of_truthy _ (gtb_zero_truthy _ G)).
      now rewrite G.
Qed.

Lemma dialog_inputs_example :
  totalBrl (EditModal.handleChange EditModal.valorCop_input "" Examples.record_a)
  = pzero
  /\ totalBrl (EditModal.handleChange EditModal.tasaBrlCop_input "-3"
                 Examples.record_a) = pzero.
Proof.
  destruct (dialog_inputs_coerce_to_zero EditModal.valorCop_input ""
              Examples.record_a) as (_ & _ & _ & _ & H5 & _).
  destruct (dialog_inputs_coerce_to_zero EditModal.tasaBrlCop_input "-3"
              Examples.record_a) as (_ & _ & _ & _ & _ & H6).
  split.
  - apply H5; reflexivity.
  - apply H6; reflexivity.
Defined.

(** ** The register button and its guard *)

(** X13. Once the rate request has settled, the register button is
    disabled only in states where a click is refused; an enabled button
    is clicked in vain exactly when the rate is missing, that is after a
    failed request. *)
Theorem enabled_button_and_guard :
  forall st : Calculator.State,
    isLoadingRate st = false ->
    (register_disabled st = true -> register_refused st = true)
    /\ (register_disabled st = false ->
        register_refused st = rate_missing (brlCopRate st)).
Proof.
  intros st L. unfold register_disabled, register_refused. rewrite L.
  destruct (leb (liquidoCOP (liquidation st)) pzero),
    (file_missing (comprobanteFile st)),
    (rate_missing (brlCopRate st)); simpl; split; intros H;
    try reflexivity; try discriminate.
Qed.

Lemma enabled_button_example :
  register_disabled Examples.form_without_rate = false
  /\ register_refused Examples.form_without_rate = true
  /\ register_refused Examples.form_without_file = true.
Proof.
  destruct (enabled_button_and_guard Examples.form_without_rate) as (_ & H2);
    [reflexivity|].
  destruct (enabled_button_and_guard Examples.form_without_file) as (H1 & _);
    [reflexivity|].
  assert (D : register_disabled Examples.form_without_rate = false)
    by (vm_compute; reflexivity).
  split; [exact D|]. split.
  - rewrite (H2 D). reflexivity.
  - apply H1. vm_compute. reflexivity.
Defined.

(** ** The accuracy of the numbers read *)

Import Accuracy.













(** ** The texts of the amount fields *)

Lemma append_prefix_cases (x y p c : string) :
  (x ++ y)%string = (p ++ c)%string ->
  (exists x', x = (p ++ x')%string)
  \/ (exists y1 y2, y = (y1 ++ y2)%string /\ p = (x ++ y1)%string).
Proof.
  revert p. induction x as [|a x IH]; intros p E.
  - right. exists p, c. auto.
  - destruct p as [|b p].
    + left. now exists (String a x).
    + simpl in E. injection E as -> E.
      destruct (IH p E) as [(x' & ->)|(y1 & y2 & -> & ->)].
      * left. now exists x'.
      * right. now exists y1, y2.
Qed.

Lemma str_forall_left (f : ascii -> bool) (a b : string) :
  str_forall f (a ++ b) = true -> str_forall f a = true.
Proof.
  rewrite str_forall_append. intros H. now apply andb_true_iff in H.
Qed.

(** X14. Every text one passes through while typing an accepted text is
    accepted itself: the beginnings of a text the amount fields accept
    are accepted, so a number can be typed one character after the
    other. *)
Theorem accepted_texts_closed_under_prefix :
  forall s p : string,
    amount_pattern s = true -> is_prefix p s -> amount_pattern p = true.
Proof.
  intros s p H (c & E). apply amount_pattern_language.
  apply amount_pattern_language in H.
  destruct H as (a & b & Ha & Hb & [Es|Es]); rewrite Es in E.
  - exists p, EmptyString. split; [|split; [reflexivity|]].
    + apply (str_forall_left is_digit p c). rewrite <- E.
      now rewrite str_forall_append, Ha, Hb.
    + left. now rewrite str_append_nil.
  - destruct (append_prefix_cases a (String "." b) p c E)
      as [(x' & ->)|(y1 & y2 & Ey & ->)].
    + exists p, EmptyString. split; [|split; [reflexivity|]].
      * now apply (str_forall_left is_digit p x').
      * left. now rewrite str_append_nil.
    + destruct y1 as [|d y1].
      * exists a, EmptyString. repeat split; auto.
      * simpl in Ey. injection Ey as <- ->.
        exists a, y1. split; [exact Ha|]. split.
        -- now apply (str_forall_left is_digit y1 y2).
        -- now right.
Qed.

Lemma accepted_prefix_example :
  amount_pattern "1500." = true /\ amount_pattern "" = true.
Proof.
  split.
  - apply (accepted_texts_closed_under_prefix "1500.75" "1500.");
      [reflexivity | now exists "75"].
  - apply (accepted_texts_closed_under_prefix "1500.75" "");
      [reflexivity | now exists "1500.75"].
Defined.







(** ** Reading the CSV text back *)

Lemma plain_char_not_special (c : ascii) :
  plain_char c = true ->
  Ascii.eqb c "," = false /\ Ascii.eqb c dquote = false
  /\ Ascii.eqb c newline = false.
Proof.
  unfold plain_char. intros H. apply negb_true_iff in H.
  apply orb_false_iff in H. destruct H as [H H3].
  apply orb_false_iff in H. destruct H as [H1 H2]. auto.
Qed.

Lemma needs_quotes_plain (s : string) :
  needs_quotes s = false <-> str_forall plain_char s = true.
Proof.
  unfold needs_quotes. induction s as [|c s IH]; simpl; [tauto|].
  unfold plain_char at 1.
  destruct (Ascii.eqb c ","), (Ascii.eqb c dquote), (Ascii.eqb c newline);
    simpl; rewrite ?orb_true_r; simpl; try (split; discriminate).
  exact IH.
Qed.

Lemma digit_plain (c : ascii) : is_digit c = true -> plain_char c = true.
Proof.
  destruct c as [[|] [|] [|] [|] [|] [|] [|] [|]]; try discriminate;
    reflexivity.
Qed.

Lemma digits_plain (s : string) :
  str_forall is_digit s = true -> str_forall plain_char s = true.
Proof.
  induction s as [|c s IH]; simpl; [reflexivity|]. intros H.
  apply andb_true_iff in H. destruct H as [Hc H].
  now rewrite (digit_plain c Hc), IH.
Qed.

Lemma str_forall_list (f : ascii -> bool) (s : string) :
  str_forall f s = forallb f (list_ascii_of_string s).
Proof. induction s as [|c s IH]; simpl; [reflexivity | now rewrite IH]. Qed.

Lemma strip_zeros_rev_forall (f : ascii -> bool) (l : list ascii) :
  forallb f l = true -> forallb f (strip_zeros_rev l) = true.
Proof.
  induction l as [|c l IH]; simpl; [reflexivity|]. intros H.
  apply andb_true_iff in H. destruct H as [Hc H].
  destruct c as [[|] [|] [|] [|] [|] [|] [|] [|]]; simpl;
    try (now rewrite Hc, H).
  now apply IH.
Qed.

Lemma forallb_rev_true {A} (f : A -> bool) (l : list A) :
  forallb f l = true -> forallb f (rev l) = true.
Proof.
  rewrite !forallb_forall. intros H x Hx. apply H. now apply in_rev.
Qed.

Lemma strip_trailing_zeros_forall (f : ascii -> bool) (s : string) :
  str_forall f s = true -> str_forall f (strip_trailing_zeros s) = true.
Proof.
  intros H. unfold strip_trailing_zeros.
  rewrite str_forall_list, list_ascii_of_string_of_list_ascii.
  apply forallb_rev_true, strip_zeros_rev_forall, forallb_rev_true.
  now rewrite <- str_forall_list.
Qed.

Lemma toString_large_plain (m : positive) (e : Z) :
  str_forall plain_char (toString_large m e) = true.
Proof.
  unfold toString_large.
  set (X := Zpos m * 2 ^ e).
  set (v := shortest_from _ X _).
  pose proof (digits_plain _ (dec_string_digits v)) as Hds.
  pose proof (strip_trailing_zeros_forall plain_char _ Hds) as Hsig.
  pose proof (digits_plain _ (dec_string_digits
                (Z.of_nat (String.length (dec_string v)) - 1))) as Hex.
  destruct (strip_trailing_zeros (dec_string v)) as [|d [|d' r]];
    [exact Hds | |].
  - simpl in Hsig. apply andb_true_iff in Hsig. destruct Hsig as [Hd _].
    cbn [append str_forall]. now rewrite Hd, Hex.
  - cbn [str_forall] in Hsig.
    apply andb_true_iff in Hsig. destruct Hsig as [Hd Hr].
    cbn [append str_forall]. rewrite Hd. cbn [andb].
    rewrite str_forall_append. cbn [str_forall].
    apply andb_true_iff in Hr. destruct Hr as [Hd' Hr].
    now rewrite Hd', Hr, Hex.
Qed.

Lemma toFixed2_plain (x : number) : str_forall plain_char (toFixed2 x) = true.
Proof.
  destruct x as [s|[|]| |s m e]; try reflexivity.
  unfold toFixed2. rewrite str_forall_append.
  apply andb_true_iff. split; [destruct s; reflexivity|].
  destruct (at_least_1e21 m e); [apply toString_large_plain|].
  destruct (fixed2_shape (hundredths m e)) as (ip & a & b & -> & _ & Hip & Ha & Hb).
  rewrite str_forall_append. cbn [str_forall].
  now rewrite (digits_plain ip Hip), (digit_plain a Ha), (digit_plain b Hb).
Qed.

(** X16. No number goes out with a comma, a double quote or a newline in
    its text, whatever the number is, [NaN], the infinities and the
    numbers written with an exponent included: the five numeric cells of
    a row never need quotes. *)
Theorem numeric_cells_never_need_quotes :
  forall (x : number) (r : LiquidationRecord),
    needs_quotes (toFixed2 x) = false
    /\ sanitizeCell (toFixed2 x) = toFixed2 x
    /\ Forall (fun cell => needs_quotes cell = false)
         [toFixed2 (valorCop r); toFixed2 (comisionCop r);
          toFixed2 (liquidoCop r); toFixed2 (tasaBrlCop r);
          toFixed2 (totalBrl r)].
Proof.
  intros x r.
  assert (P : forall y, needs_quotes (toFixed2 y) = false)
    by (intros y; apply needs_quotes_plain, toFixed2_plain).
  split; [apply P|]. split.
  - unfold sanitizeCell. now rewrite P.
  - repeat constructor; apply P.
Qed.

(** What the reader does once a cell is read and the text goes on with
    a comma, a newline, or ends. *)
Lemma read_after_plain (cell : string) (row : list string) (rest : string) :
  csv_read Plain cell row (String "," rest)
  = csv_read Plain EmptyString (row ++ [cell]) rest
  /\ csv_read Plain cell row (String newline rest)
     = (row ++ [cell]) :: csv_read Plain EmptyString [] rest
  /\ csv_read Closing cell row (String "," rest)
     = csv_read Plain EmptyString (row ++ [cell]) rest
  /\ csv_read Closing cell row (String newline rest)
     = (row ++ [cell]) :: csv_read Plain EmptyString [] rest.
Proof. repeat split. Qed.

Lemma read_plain_run (t cell : string) (row : list string) (rest : string) :
  str_forall plain_char t = true ->
  csv_read Plain cell row (t ++ rest)
  = csv_read Plain (cell ++ t) row rest.
Proof.
  revert cell. induction t as [|c t IH]; intros cell H.
  - now rewrite str_append_nil.
  - simpl in H. apply andb_true_iff in H. destruct H as [Hc H].
    destruct (plain_char_not_special c Hc) as (H1 & H2 & H3).
    cbn [append csv_read]. rewrite H1, H3, H2. cbn [andb].
    rewrite IH by exact H. now rewrite str_append_assoc.
Qed.

Lemma read_quoted_run (t cell : string) (row : list string) (rest : string) :
  match rest with String c _ => Ascii.eqb c dquote = false | EmptyString => True end ->
  csv_read Quoted cell row (double_every dquote t ++ String dquote rest)
  = csv_read Closing (cell ++ t) row rest.
Proof.
  intros Hr. revert cell. induction t as [|c t IH]; intros cell.
  - rewrite str_append_nil. reflexivity.
  - cbn [double_every]. destruct (Ascii.eqb c dquote) eqn:E.
    + apply Ascii.eqb_eq in E. subst c.
      cbn [append csv_read]. change (Ascii.eqb dquote dquote) with true.
      cbv iota. rewrite IH. now rewrite str_append_assoc.
    + cbn [append csv_read]. rewrite E.
      rewrite IH. now rewrite str_append_assoc.
Qed.

(** One cell, quoted or not, followed by a comma. *)
Lemma read_cell_comma (t : string) (row : list string) (rest : string) :
  csv_read Plain EmptyString row (sanitizeCell t ++ String "," rest)
  = csv_read Plain EmptyString (row ++ [t]) rest.
Proof.
  unfold sanitizeCell. destruct (needs_quotes t) eqn:N.
  - cbn [append csv_read]. change (Ascii.eqb dquote ",") with false.
    change (Ascii.eqb dquote newline) with false.
    change (Ascii.eqb dquote dquote) with true. cbv iota. cbn [andb].
    rewrite str_append_assoc. cbn [append].
    now rewrite read_quoted_run by reflexivity.
  - apply needs_quotes_plain in N. now rewrite read_plain_run by exact N.
Qed.

(** The last cell of a row, followed by a newline or by the end. *)
Lemma read_cell_last (t : string) (row : list string) (rest : string) :
  csv_read Plain EmptyString row (sanitizeCell t ++ String newline rest)
  = (row ++ [t]) :: csv_read Plain EmptyString [] rest
  /\ csv_read Plain EmptyString row (sanitizeCell t) = [row ++ [t]].
Proof.
  unfold sanitizeCell. destruct (needs_quotes t) eqn:N.
  - cbn [append csv_read]. change (Ascii.eqb dquote ",") with false.
    change (Ascii.eqb dquote newline) with false.
    change (Ascii.eqb dquote dquote) with true. cbv iota. cbn [andb].
    split.
    + rewrite str_append_assoc. cbn [append].
      now rewrite read_quoted_run by reflexivity.
    + now rewrite (read_quoted_run t EmptyString row EmptyString I).
  - apply needs_quotes_plain in N. split.
    + now rewrite read_plain_run by exact N.
    + rewrite <- (str_append_nil t) at 1.
      now rewrite read_plain_run by exact N.
Qed.

Lemma join_cons (sep x : string) (y : string) (l : list string) :
  join sep (x :: y :: l) = (x ++ sep ++ join sep (y :: l))%string.
Proof. reflexivity. Qed.

Lemma read_row (cells : list string) (c : string) (row : list string) (rest : string) :
  csv_read Plain EmptyString row
    (join "," (map sanitizeCell (c :: cells)) ++ String newline rest)
  = (row ++ c :: cells) :: csv_read Plain EmptyString [] rest
  /\ csv_read Plain EmptyString row (join "," (map sanitizeCell (c :: cells)))
     = [row ++ c :: cells].
Proof.
  revert c row. induction cells as [|c2 cells IH]; intros c row.
  - apply read_cell_last.
  - cbn [map]. rewrite join_cons.
    destruct (IH c2 (row ++ [c])) as [I1 I2]. cbn [map] in I1, I2.
    split.
    + rewrite str_append_assoc. cbn [append]. rewrite read_cell_comma.
      rewrite I1. now rewrite <- app_assoc.
    + cbn [append]. rewrite read_cell_comma, I2. now rewrite <- app_assoc.
Qed.

Lemma read_table (table : list (list string)) (c : string) (cells : list string) :
  Forall (fun row => row <> []) table ->
  read_csv (join (String newline EmptyString)
              (map (fun row => join "," (map sanitizeCell row))
                   ((c :: cells) :: table)))
  = (c :: cells) :: table.
Proof.
  unfold read_csv. revert c cells.
  induction table as [|row table IH]; intros c cells H.
  - cbn [map]. apply (proj2 (read_row cells c [] EmptyString)).
  - inversion H as [|? ? Hrow Htab]; subst.
    destruct row as [|c2 cells2]; [congruence|].
    cbn [map]. rewrite join_cons. cbn [append].
    destruct (read_row cells c []
                (join (String newline EmptyString)
                   (map (fun row => join "," (map sanitizeCell row))
                        ((c2 :: cells2) :: table)))) as [R _].
    cbn [map] in R. rewrite R. cbn [app]. f_equal.
    now apply IH.
Qed.

Lemma csvRow_cells (r : LiquidationRecord) :
  needs_quotes (fecha r) = false ->
  csvRow r = join "," (map sanitizeCell (cells_of r)).
Proof.
  intros H. unfold csvRow, cells_of. cbn [map].
  assert (P : forall y, sanitizeCell (toFixed2 y) = toFixed2 y).
  { intros y. unfold sanitizeCell.
    now rewrite (proj2 (needs_quotes_plain _) (toFixed2_plain y)). }
  assert (F : sanitizeCell (fecha r) = fecha r)
    by (unfold sanitizeCell; now rewrite H).
  now rewrite !P, F.
Qed.

(** X17. Reading the exported text back gives what went in: a reader
    that splits rows at newlines and cells at commas, and takes a cell
    that opens with a double quote up to its closing quote with doubled
    quotes undone, finds the seven column names and then, for every
    record, the date, the five numbers as written and the proof name
    itself, however many commas, quotes or newlines the name holds, as
    long as no date holds one. *)
Theorem csv_text_reads_back :
  forall rows : History,
    (forall r, In r rows -> needs_quotes (fecha r) = false) ->
    read_csv (csvString rows) = headers :: map cells_of rows.
Proof.
  intros rows H. unfold csvString.
  assert (E : map csvRow rows
              = map (fun row => join "," (map sanitizeCell row))
                    (map cells_of rows)).
  { rewrite map_map. apply map_ext_in. intros r Hr.
    now apply csvRow_cells, H. }
  rewrite E.
  change (join "," headers)
    with (join "," (map sanitizeCell
                      ("Fecha" :: tl headers))).
  apply (read_table (map cells_of rows) "Fecha" (tl headers)).
  apply Forall_forall. intros row Hrow. apply in_map_iff in Hrow.
  destruct Hrow as (r & <- & _). discriminate.
Qed.

Lemma csv_reads_back_example :
  read_csv (csvString [Examples.record_a; Samples.record_quoted])
  = [headers; cells_of Examples.record_a; cells_of Samples.record_quoted]
  /\ needs_quotes (comprobanteName Samples.record_quoted) = true.
Proof.
  split; [|reflexivity].
  apply (csv_text_reads_back [Examples.record_a; Samples.record_quoted]).
  intros r [<-|[<-|[]]]; reflexivity.
Defined.
